(** * Kanban board service: access control, ordered collections, audit trail

    A shallow embedding of the GraphQL resolvers ([src/graphql/resolvers/index.ts]),
    the guards ([src/auth/guards.ts]), the error helpers ([src/errors.ts]) and the
    pagination schema ([src/validation.ts]) over an explicit model of the
    relational store described by the initial migration
    ([prisma/migrations/20260105180000_init/migration.sql]).

    Modelled: the queries [projects], [project], [tasks], [comments],
    [activityLog], every mutation except [register] and [login], and the field
    resolvers [Task.labels], [Project.columns] and [Column.tasks].  Password
    hashing and token signing are outside the model: a request arrives with
    the context [buildContext] made of its token.

    Conventions of the embedding:
    - a table is the list of its rows in insertion order;
    - primary keys (cuid strings in the program) are opaque identifiers, modelled
      as natural numbers drawn from a counter kept in the store;
    - GraphQL [Int] arguments and SQL [INTEGER] columns are [Z];
    - a text is the [string] of its UTF-8 bytes.  [trim] strips the white
      space and line terminators of ECMAScript, the ones beyond ASCII
      included.  [toLowerCase] is the program's on ASCII text only, and a
      statement that depends on a folded text assumes [ascii_text] of it;
    - the store is SQLite, as the migration says.  Its connector has no
      case-insensitive [contains]: the client refuses a query that asks for
      one, so [projects] with a search text ends in [INTERNAL_SERVER_ERROR];
    - timestamps ([createdAt], [updatedAt], [joinedAt]) and the password hash are
      left out: no resolver modelled here branches on them, and an ordering by
      [createdAt] is the insertion order of the table;
    - a resolver is a computation over the store that returns either a value or
      an error code.  The program opens no transaction, so the store reached
      when an error is thrown is the store that stays: the monad returns the
      store next to the error instead of rolling it back;
    - an exception that is not a [GraphQLError] of [src/errors.ts] (a constraint
      violation reported by the store, a [TypeError]) surfaces as
      [INTERNAL_SERVER_ERROR];
    - the human-readable message of an error is not modelled, only its code.

    The file has two parts: the definitions (the program, then the predicates
    and the concrete board the statements use), and the proofs. *)

From Stdlib Require Import ZArith List String Ascii Bool Arith Lia.
From Stdlib Require Import Permutation Finite Sorted.
Import ListNotations.

Local Open Scope Z_scope.

(** ** Enumerations of the schema *)

Inductive Role := ADMIN | USER.
Inductive ProjectRole := OWNER | MEMBER.
Inductive InvitationStatus := PENDING | ACCEPTED | REVOKED.
Inductive TaskStatus := TODO | IN_PROGRESS | DONE | ARCHIVED.

Definition Role_eqb (a b : Role) : bool :=
  match a, b with ADMIN, ADMIN | USER, USER => true | _, _ => false end.

Definition ProjectRole_eqb (a b : ProjectRole) : bool :=
  match a, b with OWNER, OWNER | MEMBER, MEMBER => true | _, _ => false end.

Definition InvitationStatus_eqb (a b : InvitationStatus) : bool :=
  match a, b with
  | PENDING, PENDING | ACCEPTED, ACCEPTED | REVOKED, REVOKED => true
  | _, _ => false
  end.

(** ** Rows *)

Definition Id := nat.
Bind Scope nat_scope with Id.
Definition DateTime := Z.

Record User := {
  user_id : Id;
  user_email : string;
  user_role : Role }.

Record Project := {
  project_id : Id;
  project_name : string;
  project_ownerId : Id }.

Record ProjectMember := {
  pm_id : Id;
  pm_projectId : Id;
  pm_userId : Id;
  pm_projectRole : ProjectRole }.

Record Column := {
  column_id : Id;
  column_title : string;
  column_position : Z;
  column_projectId : Id }.

Record Task := {
  task_id : Id;
  task_title : string;
  task_description : option string;
  task_dueDate : option DateTime;
  task_position : Z;
  task_status : TaskStatus;
  task_columnId : Id;
  task_creatorId : Id;
  task_assigneeId : option Id }.

Record Comment := {
  comment_id : Id;
  comment_content : string;
  comment_taskId : Id;
  comment_authorId : Id }.

Record Label := {
  label_id : Id;
  label_name : string;
  label_color : option string;
  label_projectId : Id }.

Record TaskLabel := {
  tl_id : Id;
  tl_taskId : Id;
  tl_labelId : Id }.

Record Invitation := {
  inv_id : Id;
  inv_email : string;
  inv_token : string;
  inv_status : InvitationStatus;
  inv_projectId : Id;
  inv_invitedById : Id }.

(** The [details] payload of an audit row: a JSON value. *)
#[local] Unset Elimination Schemes.
Inductive Json :=
| JNull
| JString (s : string)
| JNumber (z : Z)
| JRef (i : Id)
| JArray (l : list Json)
| JObject (fields : list (string * Json)).
#[local] Set Elimination Schemes.

Record ActivityLog := {
  log_id : Id;
  log_action : string;
  log_details : Json;
  log_actorId : Id;
  log_projectId : Id;
  log_taskId : option Id }.

(** ** The store *)

Record Db := {
  users : list User;
  projects : list Project;
  members : list ProjectMember;
  columns : list Column;
  tasks : list Task;
  comments : list Comment;
  labels : list Label;
  taskLabels : list TaskLabel;
  invitations : list Invitation;
  activity : list ActivityLog;
  nextId : Id }.

Definition set_projects (v : list Project) (s : Db) : Db :=
  {| users := users s; projects := v; members := members s; columns := columns s;
     tasks := tasks s; comments := comments s; labels := labels s;
     taskLabels := taskLabels s; invitations := invitations s;
     activity := activity s; nextId := nextId s |}.

Definition set_members (v : list ProjectMember) (s : Db) : Db :=
  {| users := users s; projects := projects s; members := v; columns := columns s;
     tasks := tasks s; comments := comments s; labels := labels s;
     taskLabels := taskLabels s; invitations := invitations s;
     activity := activity s; nextId := nextId s |}.

Definition set_columns (v : list Column) (s : Db) : Db :=
  {| users := users s; projects := projects s; members := members s; columns := v;
     tasks := tasks s; comments := comments s; labels := labels s;
     taskLabels := taskLabels s; invitations := invitations s;
     activity := activity s; nextId := nextId s |}.

Definition set_tasks (v : list Task) (s : Db) : Db :=
  {| users := users s; projects := projects s; members := members s; columns := columns s;
     tasks := v; comments := comments s; labels := labels s;
     taskLabels := taskLabels s; invitations := invitations s;
     activity := activity s; nextId := nextId s |}.

Definition set_comments (v : list Comment) (s : Db) : Db :=
  {| users := users s; projects := projects s; members := members s; columns := columns s;
     tasks := tasks s; comments := v; labels := labels s;
     taskLabels := taskLabels s; invitations := invitations s;
     activity := activity s; nextId := nextId s |}.

Definition set_labels (v : list Label) (s : Db) : Db :=
  {| users := users s; projects := projects s; members := members s; columns := columns s;
     tasks := tasks s; comments := comments s; labels := v;
     taskLabels := taskLabels s; invitations := invitations s;
     activity := activity s; nextId := nextId s |}.

Definition set_taskLabels (v : list TaskLabel) (s : Db) : Db :=
  {| users := users s; projects := projects s; members := members s; columns := columns s;
     tasks := tasks s; comments := comments s; labels := labels s;
     taskLabels := v; invitations := invitations s;
     activity := activity s; nextId := nextId s |}.

Definition set_invitations (v : list Invitation) (s : Db) : Db :=
  {| users := users s; projects := projects s; members := members s; columns := columns s;
     tasks := tasks s; comments := comments s; labels := labels s;
     taskLabels := taskLabels s; invitations := v;
     activity := activity s; nextId := nextId s |}.

Definition set_activity (v : list ActivityLog) (s : Db) : Db :=
  {| users := users s; projects := projects s; members := members s; columns := columns s;
     tasks := tasks s; comments := comments s; labels := labels s;
     taskLabels := taskLabels s; invitations := invitations s;
     activity := v; nextId := nextId s |}.

Definition set_nextId (v : Id) (s : Db) : Db :=
  {| users := users s; projects := projects s; members := members s; columns := columns s;
     tasks := tasks s; comments := comments s; labels := labels s;
     taskLabels := taskLabels s; invitations := invitations s;
     activity := activity s; nextId := v |}.

(** ** Errors ([src/errors.ts]) and the resolver monad *)

Inductive ErrorCode :=
| UNAUTHENTICATED
| FORBIDDEN
| BAD_USER_INPUT
| NOT_FOUND
| INTERNAL_SERVER_ERROR.

Inductive Outcome (A : Type) :=
| Ok (a : A)
| Err (e : ErrorCode).

Arguments Ok {A} a.
Arguments Err {A} e.

Definition M (A : Type) : Type := Db -> Outcome A * Db.

Definition ret {A} (a : A) : M A := fun s => (Ok a, s).

Definition bind {A B} (m : M A) (f : A -> M B) : M B :=
  fun s =>
    match m s with
    | (Ok a, s') => f a s'
    | (Err e, s') => (Err e, s')
    end.

Definition throw {A} (e : ErrorCode) : M A := fun s => (Err e, s).
Definition gets {A} (f : Db -> A) : M A := fun s => (Ok (f s), s).
Definition modify (f : Db -> Db) : M unit := fun s => (Ok tt, f s).

Declare Scope resolver_scope.
Delimit Scope resolver_scope with resolver.
Notation "x <- m ;; k" := (bind m (fun x => k))
  (at level 61, m at next level, right associativity) : resolver_scope.
Notation "m ;; k" := (bind m (fun _ => k))
  (at level 61, right associativity) : resolver_scope.
Local Open Scope resolver_scope.

Definition unauthenticated {A} : M A := throw UNAUTHENTICATED.
Definition forbidden {A} : M A := throw FORBIDDEN.
Definition badUserInput {A} : M A := throw BAD_USER_INPUT.
Definition notFound {A} : M A := throw NOT_FOUND.
(** A constraint violation of the store, or a [TypeError]. *)
Definition internalError {A} : M A := throw INTERNAL_SERVER_ERROR.

(** [when b m]: the statement [if (b) m;] where [m] throws. *)
Definition when (b : bool) (m : M unit) : M unit := if b then m else ret tt.

(** A fresh primary key. *)
Definition freshId : M Id :=
  fun s => (Ok (nextId s), set_nextId (S (nextId s)) s).

(** ** Strings: [trim], [toLowerCase], [includes("@")]

    A [string] holds the UTF-8 encoding of the program's text, as a string
    literal of this file does.  The length tests of the modelled resolvers,
    [length < 1] and [length === 0], ask whether the text is empty. *)

(** The one-byte white space of ECMAScript: U+0009 to U+000D and U+0020. *)
Definition is_space (c : ascii) : bool :=
  match nat_of_ascii c with
  | 9%nat | 10%nat | 11%nat | 12%nat | 13%nat | 32%nat => true
  | _ => false
  end.

(** U+00A0, encoded C2 A0. *)
Definition is_space2 (c d : ascii) : bool :=
  ((nat_of_ascii c =? 194)%nat && (nat_of_ascii d =? 160)%nat)%bool.

(** The three-byte white space: U+1680 (E1 9A 80), U+2000 to U+200A
    (E2 80 80 to E2 80 8A), U+2028 and U+2029 (E2 80 A8, E2 80 A9), U+202F
    (E2 80 AF), U+205F (E2 81 9F), U+3000 (E3 80 80), U+FEFF (EF BB BF). *)
Definition is_space3 (c d e : ascii) : bool :=
  let c := nat_of_ascii c in
  let d := nat_of_ascii d in
  let e := nat_of_ascii e in
  (((c =? 225) && (d =? 154) && (e =? 128))
   || ((c =? 226) && (d =? 128)
       && (((128 <=? e) && (e <=? 138)) || (e =? 168) || (e =? 169) || (e =? 175)))
   || ((c =? 226) && (d =? 129) && (e =? 159))
   || ((c =? 227) && (d =? 128) && (e =? 128))
   || ((c =? 239) && (d =? 187) && (e =? 191)))%nat%bool.

(** [trimStart]: drop white space code points at the head of the text. *)
Fixpoint dropSpaces (l : list ascii) : list ascii :=
  match l with
  | [] => []
  | c :: l1 =>
      if is_space c then dropSpaces l1
      else
        match l1 with
        | d :: l2 =>
            if is_space2 c d then dropSpaces l2
            else
              match l2 with
              | e :: l3 => if is_space3 c d e then dropSpaces l3 else l
              | [] => l
              end
        | [] => l
        end
  end.

(** [trimEnd], on the bytes in reverse order: the last byte comes first. *)
Fixpoint dropSpacesEnd (l : list ascii) : list ascii :=
  match l with
  | [] => []
  | e :: l1 =>
      if is_space e then dropSpacesEnd l1
      else
        match l1 with
        | d :: l2 =>
            if is_space2 d e then dropSpacesEnd l2
            else
              match l2 with
              | c :: l3 => if is_space3 c d e then dropSpacesEnd l3 else l
              | [] => l
              end
        | [] => l
        end
  end.

(** [String.prototype.trim]: white space and line terminators of ECMAScript
    are removed at both ends. *)
Definition trim (s : string) : string :=
  string_of_list_ascii
    (rev (dropSpacesEnd (rev (dropSpaces (list_ascii_of_string s))))).

(** Text made of ASCII characters only. *)
Definition ascii_text (s : string) : bool :=
  forallb (fun c => (nat_of_ascii c <? 128)%nat) (list_ascii_of_string s).

(** [String.prototype.toLowerCase] on ASCII text, where it folds the letters
    A to Z and nothing else.  Outside ASCII the program folds further letters,
    which this function leaves alone: a statement that depends on the folded
    text assumes [ascii_text] of what is folded. *)
Definition lower_ascii (c : ascii) : ascii :=
  let n := nat_of_ascii c in
  if ((65 <=? n)%nat && (n <=? 90)%nat)%bool then ascii_of_nat (n + 32) else c.

Fixpoint toLowerCase (s : string) : string :=
  match s with
  | EmptyString => EmptyString
  | String c s' => String (lower_ascii c) (toLowerCase s')
  end.

Fixpoint includes_at (s : string) : bool :=
  match s with
  | EmptyString => false
  | String c s' => (Ascii.eqb c "@"%char || includes_at s')%bool
  end.

(** ** Ordering of query results

    [orderBy] is a stable insertion sort: rows that compare equal stay in
    table order. *)

Fixpoint insertBy {A} (le : A -> A -> bool) (x : A) (l : list A) : list A :=
  match l with
  | [] => [x]
  | y :: l' => if le x y then x :: l else y :: insertBy le x l'
  end.

Definition orderBy {A} (le : A -> A -> bool) (l : list A) : list A :=
  fold_right (insertBy le) [] l.

Definition updateWhere {A} (p : A -> bool) (f : A -> A) (l : list A) : list A :=
  map (fun r => if p r then f r else r) l.

(** ** The store's calls (the Prisma client over the migration's schema)

    A [create] or [update] that would break a foreign key or a unique index
    fails and writes nothing. *)

Definition user_exists (s : Db) (id : Id) : bool :=
  existsb (fun u => (user_id u =? id)%nat) (users s).
Definition project_exists (s : Db) (id : Id) : bool :=
  existsb (fun p => (project_id p =? id)%nat) (projects s).
Definition column_exists (s : Db) (id : Id) : bool :=
  existsb (fun c => (column_id c =? id)%nat) (columns s).
Definition task_exists (s : Db) (id : Id) : bool :=
  existsb (fun t => (task_id t =? id)%nat) (tasks s).
Definition label_exists (s : Db) (id : Id) : bool :=
  existsb (fun l => (label_id l =? id)%nat) (labels s).

Definition opt_exists (ex : Db -> Id -> bool) (s : Db) (o : option Id) : bool :=
  match o with None => true | Some i => ex s i end.

Definition user_findUnique (id : Id) : M (option User) :=
  gets (fun s => find (fun u => (user_id u =? id)%nat) (users s)).

Definition project_findUnique (id : Id) : M (option Project) :=
  gets (fun s => find (fun p => (project_id p =? id)%nat) (projects s)).

Definition is_member_row (projectId userId : Id) (m : ProjectMember) : bool :=
  ((pm_projectId m =? projectId)%nat && (pm_userId m =? userId)%nat)%bool.

Definition projectMember_findUnique (projectId userId : Id) : M (option ProjectMember) :=
  gets (fun s => find (is_member_row projectId userId) (members s)).

Definition column_findUnique (id : Id) : M (option Column) :=
  gets (fun s => find (fun c => (column_id c =? id)%nat) (columns s)).

Definition task_findUnique (id : Id) : M (option Task) :=
  gets (fun s => find (fun t => (task_id t =? id)%nat) (tasks s)).

Definition label_findUnique (id : Id) : M (option Label) :=
  gets (fun s => find (fun l => (label_id l =? id)%nat) (labels s)).

Definition invitation_findUnique (token : string) : M (option Invitation) :=
  gets (fun s => find (fun i => String.eqb (inv_token i) token) (invitations s)).

Definition column_updateMany (where_ : Column -> bool) (data : Column -> Column) : M unit :=
  modify (fun s => set_columns (updateWhere where_ data (columns s)) s).

Definition column_create (projectId : Id) (title : string) (position : Z) : M Column :=
  fk <- gets (fun s => project_exists s projectId);;
  if fk then
    id <- freshId;;
    let col := {| column_id := id; column_title := title;
                  column_position := position; column_projectId := projectId |} in
    modify (fun s => set_columns (columns s ++ [col]) s);;
    ret col
  else internalError.

Definition task_findMany (where_ : Task -> bool) (le : Task -> Task -> bool) : M (list Task) :=
  gets (fun s => orderBy le (filter where_ (tasks s))).

Definition task_findFirst (where_ : Task -> bool) (le : Task -> Task -> bool) : M (option Task) :=
  gets (fun s => hd_error (orderBy le (filter where_ (tasks s)))).

Definition task_updateMany (where_ : Task -> bool) (data : Task -> Task) : M unit :=
  modify (fun s => set_tasks (updateWhere where_ data (tasks s)) s).

Definition position_asc (a b : Task) : bool := task_position a <=? task_position b.
Definition position_desc (a b : Task) : bool := task_position b <=? task_position a.

Definition task_create (title : string) (description : option string)
    (dueDate : option DateTime) (columnId creatorId : Id) (assigneeId : option Id)
    (position : Z) (status : TaskStatus) : M Task :=
  fk <- gets (fun s => (column_exists s columnId && user_exists s creatorId
                         && opt_exists user_exists s assigneeId)%bool);;
  if fk then
    id <- freshId;;
    let t := {| task_id := id; task_title := title; task_description := description;
                task_dueDate := dueDate; task_position := position;
                task_status := status; task_columnId := columnId;
                task_creatorId := creatorId; task_assigneeId := assigneeId |} in
    modify (fun s => set_tasks (tasks s ++ [t]) s);;
    ret t
  else internalError.

(** The [data] object of [prisma.task.update]: an absent key is [None]; a key
    set to [null] is [Some None]. *)
Record TaskUpdate := {
  upd_title : option string;
  upd_description : option (option string);
  upd_dueDate : option (option DateTime);
  upd_status : option (option TaskStatus);
  upd_columnId : option Id;
  upd_position : option Z;
  upd_assigneeId : option (option Id) }.

Definition noUpdate : TaskUpdate :=
  {| upd_title := None; upd_description := None; upd_dueDate := None;
     upd_status := None; upd_columnId := None; upd_position := None;
     upd_assigneeId := None |}.

Definition orElse {A} (o : option A) (d : A) : A :=
  match o with Some a => a | None => d end.

Definition applyUpdate (d : TaskUpdate) (t : Task) : Task :=
  {| task_id := task_id t;
     task_title := orElse (upd_title d) (task_title t);
     task_description := orElse (upd_description d) (task_description t);
     task_dueDate := orElse (upd_dueDate d) (task_dueDate t);
     task_position := orElse (upd_position d) (task_position t);
     task_status :=
       match upd_status d with Some (Some st) => st | _ => task_status t end;
     task_columnId := orElse (upd_columnId d) (task_columnId t);
     task_creatorId := task_creatorId t;
     task_assigneeId := orElse (upd_assigneeId d) (task_assigneeId t) |}.

(** [status] is a required column: [null] is refused; a new [columnId] or
    [assigneeId] must reference an existing row. *)
Definition update_accepted (s : Db) (d : TaskUpdate) : bool :=
  (match upd_status d with Some None => false | _ => true end
   && opt_exists column_exists s (upd_columnId d)
   && match upd_assigneeId d with Some a => opt_exists user_exists s a | None => true end)%bool.

Definition task_update (id : Id) (d : TaskUpdate) : M Task :=
  found <- task_findUnique id;;
  match found with
  | None => internalError
  | Some t =>
      okd <- gets (fun s => update_accepted s d);;
      if okd then
        modify (fun s => set_tasks
                  (updateWhere (fun r => (task_id r =? id)%nat) (applyUpdate d) (tasks s)) s);;
        ret (applyUpdate d t)
      else internalError
  end.

Definition activityLog_create (action : string) (actorId projectId : Id)
    (taskId : option Id) (details : Json) : M ActivityLog :=
  fk <- gets (fun s => (user_exists s actorId && project_exists s projectId
                         && opt_exists task_exists s taskId)%bool);;
  if fk then
    id <- freshId;;
    let row := {| log_id := id; log_action := action; log_details := details;
                  log_actorId := actorId; log_projectId := projectId;
                  log_taskId := taskId |} in
    modify (fun s => set_activity (activity s ++ [row]) s);;
    ret row
  else internalError.

Definition projectMember_upsert (projectId userId : Id) (createRole : ProjectRole)
  : M ProjectMember :=
  found <- projectMember_findUnique projectId userId;;
  match found with
  | Some m => ret m
  | None =>
      fk <- gets (fun s => (project_exists s projectId && user_exists s userId)%bool);;
      if fk then
        id <- freshId;;
        let m := {| pm_id := id; pm_projectId := projectId; pm_userId := userId;
                    pm_projectRole := createRole |} in
        modify (fun s => set_members (members s ++ [m]) s);;
        ret m
      else internalError
  end.

Definition invitation_create (projectId : Id) (email token : string) (invitedById : Id)
  : M Invitation :=
  dup <- invitation_findUnique token;;
  fk <- gets (fun s => (project_exists s projectId && user_exists s invitedById)%bool);;
  match dup with
  | Some _ => internalError
  | None =>
      if fk then
        id <- freshId;;
        let i := {| inv_id := id; inv_email := email; inv_token := token;
                    inv_status := PENDING; inv_projectId := projectId;
                    inv_invitedById := invitedById |} in
        modify (fun s => set_invitations (invitations s ++ [i]) s);;
        ret i
      else internalError
  end.

Definition set_status (st : InvitationStatus) (i : Invitation) : Invitation :=
  {| inv_id := inv_id i; inv_email := inv_email i; inv_token := inv_token i;
     inv_status := st; inv_projectId := inv_projectId i;
     inv_invitedById := inv_invitedById i |}.

Definition invitation_update (token : string) (st : InvitationStatus) : M Invitation :=
  found <- invitation_findUnique token;;
  match found with
  | None => internalError
  | Some i =>
      modify (fun s => set_invitations
                (updateWhere (fun r => String.eqb (inv_token r) token) (set_status st)
                   (invitations s)) s);;
      ret (set_status st i)
  end.

Definition label_create (projectId : Id) (name : string) (color : option string) : M Label :=
  fk <- gets (fun s => project_exists s projectId);;
  dup <- gets (fun s => existsb (fun l => ((label_projectId l =? projectId)%nat
                                          && String.eqb (label_name l) name)%bool) (labels s));;
  if (fk && negb dup)%bool then
    id <- freshId;;
    let l := {| label_id := id; label_name := name; label_color := color;
                label_projectId := projectId |} in
    modify (fun s => set_labels (labels s ++ [l]) s);;
    ret l
  else internalError.

Definition is_link (taskId labelId : Id) (l : TaskLabel) : bool :=
  ((tl_taskId l =? taskId)%nat && (tl_labelId l =? labelId)%nat)%bool.

Definition taskLabel_upsert (taskId labelId : Id) : M TaskLabel :=
  found <- gets (fun s => find (is_link taskId labelId) (taskLabels s));;
  match found with
  | Some l => ret l
  | None =>
      fk <- gets (fun s => (task_exists s taskId && label_exists s labelId)%bool);;
      if fk then
        id <- freshId;;
        let l := {| tl_id := id; tl_taskId := taskId; tl_labelId := labelId |} in
        modify (fun s => set_taskLabels (taskLabels s ++ [l]) s);;
        ret l
      else internalError
  end.

Definition taskLabel_deleteMany (taskId labelId : Id) : M unit :=
  modify (fun s => set_taskLabels
            (filter (fun l => negb (is_link taskId labelId l)) (taskLabels s)) s).

Definition comment_create (taskId authorId : Id) (content : string) : M Comment :=
  fk <- gets (fun s => (task_exists s taskId && user_exists s authorId)%bool);;
  if fk then
    id <- freshId;;
    let c := {| comment_id := id; comment_content := content;
                comment_taskId := taskId; comment_authorId := authorId |} in
    modify (fun s => set_comments (comments s ++ [c]) s);;
    ret c
  else internalError.

(** The nested [prisma.project.create] of [createProject]: the project, its
    owner membership, the three default columns and the audit row are written
    by one call. *)
Definition project_create (name : string) (ownerId : Id) : M Project :=
  fk <- gets (fun s => user_exists s ownerId);;
  if fk then
    pid <- freshId;;
    mid <- freshId;;
    c1 <- freshId;;
    c2 <- freshId;;
    c3 <- freshId;;
    lid <- freshId;;
    let p := {| project_id := pid; project_name := name; project_ownerId := ownerId |} in
    modify (fun s => set_projects (projects s ++ [p]) s);;
    modify (fun s => set_members
              (members s ++ [{| pm_id := mid; pm_projectId := pid; pm_userId := ownerId;
                                pm_projectRole := OWNER |}]) s);;
    modify (fun s => set_columns
              (columns s ++
                 [{| column_id := c1; column_title := "To Do"; column_position := 1;
                     column_projectId := pid |};
                  {| column_id := c2; column_title := "In Progress"; column_position := 2;
                     column_projectId := pid |};
                  {| column_id := c3; column_title := "Done"; column_position := 3;
                     column_projectId := pid |}]) s);;
    modify (fun s => set_activity
              (activity s ++
                 [{| log_id := lid; log_action := "PROJECT_CREATED";
                     log_details := JObject [("name"%string, JString name)];
                     log_actorId := ownerId; log_projectId := pid;
                     log_taskId := None |}]) s);;
    ret p
  else internalError.

(** ** Request context ([src/context.ts]) *)

Record AuthUser := {
  au_id : Id;
  au_role : Role }.

Record GraphQLContext := {
  ctx_user : option AuthUser }.

(** The non-null assertion [ctx.user!] followed by a property access. *)
Definition user_bang (ctx : GraphQLContext) : M AuthUser :=
  match ctx_user ctx with
  | Some u => ret u
  | None => internalError
  end.

(** ** Guards ([src/auth/guards.ts]) *)

Definition requireAuth (ctx : GraphQLContext) : M unit :=
  match ctx_user ctx with
  | None => unauthenticated
  | Some _ => ret tt
  end.

Definition requireAdmin (ctx : GraphQLContext) : M unit :=
  requireAuth ctx;;
  u <- user_bang ctx;;
  when (negb (Role_eqb (au_role u) ADMIN)) forbidden.

Definition requireProjectMember (ctx : GraphQLContext) (projectId : Id) : M unit :=
  requireAuth ctx;;
  u <- user_bang ctx;;
  if Role_eqb (au_role u) ADMIN then ret tt
  else
    membership <- projectMember_findUnique projectId (au_id u);;
    match membership with
    | None => forbidden
    | Some _ => ret tt
    end.

Definition requireProjectOwnerOrAdmin (ctx : GraphQLContext) (projectId : Id) : M unit :=
  requireAuth ctx;;
  u <- user_bang ctx;;
  if Role_eqb (au_role u) ADMIN then ret tt
  else
    membership <- projectMember_findUnique projectId (au_id u);;
    match membership with
    | None => forbidden
    | Some m => when (negb (ProjectRole_eqb (pm_projectRole m) OWNER)) forbidden
    end.

Definition getProjectIdByColumnId (columnId : Id) : M Id :=
  col <- column_findUnique columnId;;
  match col with
  | None => notFound
  | Some c => ret (column_projectId c)
  end.

(** The query selects the task's column through the required relation; a task
    whose column is missing cannot be read as [task.column.projectId]. *)
Definition getProjectIdByTaskId (taskId : Id) : M Id :=
  task <- task_findUnique taskId;;
  match task with
  | None => notFound
  | Some t =>
      col <- column_findUnique (task_columnId t);;
      match col with
      | None => internalError
      | Some c => ret (column_projectId c)
      end
  end.

(** ** Validation ([src/validation.ts]) *)

Definition parsePagination (offset limit : Z) : M (Z * Z) :=
  if ((0 <=? offset) && (1 <=? limit) && (limit <=? 50))%bool
  then ret (offset, limit)
  else badUserInput.

Record Page (A : Type) := {
  items : list A;
  total : Z;
  page_offset : Z;
  page_limit : Z }.

Arguments items {A} _.
Arguments total {A} _.
Arguments page_offset {A} _.
Arguments page_limit {A} _.

Definition paginate {A} (rows : list A) (offset limit : Z) : Page A :=
  {| items := firstn (Z.to_nat limit) (skipn (Z.to_nat offset) rows);
     total := Z.of_nat (List.length rows);
     page_offset := offset;
     page_limit := limit |}.

(** ** Resolvers ([src/graphql/resolvers/index.ts]) *)

(** *** Queries *)

Definition Query_project (ctx : GraphQLContext) (projectId : Id) : M Project :=
  requireProjectMember ctx projectId;;
  project <- project_findUnique projectId;;
  match project with
  | None => notFound
  | Some p => ret p
  end.

Definition TaskStatus_eqb (a b : TaskStatus) : bool :=
  match a, b with
  | TODO, TODO | IN_PROGRESS, IN_PROGRESS | DONE, DONE | ARCHIVED, ARCHIVED => true
  | _, _ => false
  end.

Definition column_position_of (s : Db) (columnId : Id) : Z :=
  match find (fun c => (column_id c =? columnId)%nat) (columns s) with
  | Some c => column_position c
  | None => 0
  end.

(** [orderBy: column.position asc, position asc, createdAt desc]. *)
Definition board_order (s : Db) (a b : Task) : bool :=
  let ca := column_position_of s (task_columnId a) in
  let cb := column_position_of s (task_columnId b) in
  ((ca <? cb) || ((ca =? cb) && (task_position a <=? task_position b)))%bool.

Definition Query_tasks (ctx : GraphQLContext) (projectId : Id) (offset limit : Z)
    (status : option TaskStatus) (assigneeId : option Id) : M (Page Task) :=
  requireProjectMember ctx projectId;;
  p <- parsePagination offset limit;;
  let where_ (s : Db) (t : Task) : bool :=
    (match find (fun c => (column_id c =? task_columnId t)%nat) (columns s) with
     | Some c => (column_projectId c =? projectId)%nat
     | None => false
     end
     && match status with Some st => TaskStatus_eqb (task_status t) st | None => true end
     && match assigneeId with
        | Some a => match task_assigneeId t with Some b => (a =? b)%nat | None => false end
        | None => true
        end)%bool in
  rows <- gets (fun s => orderBy (board_order s) (rev (filter (where_ s) (tasks s))));;
  ret (paginate rows (fst p) (snd p)).

Definition Query_comments (ctx : GraphQLContext) (taskId : Id) (offset limit : Z)
  : M (Page Comment) :=
  projectId <- getProjectIdByTaskId taskId;;
  requireProjectMember ctx projectId;;
  p <- parsePagination offset limit;;
  rows <- gets (fun s => rev (filter (fun c => (comment_taskId c =? taskId)%nat) (comments s)));;
  ret (paginate rows (fst p) (snd p)).

Definition Query_activityLog (ctx : GraphQLContext) (projectId : Id) (offset limit : Z)
  : M (Page ActivityLog) :=
  requireProjectMember ctx projectId;;
  p <- parsePagination offset limit;;
  rows <- gets (fun s => rev (filter (fun a => (log_projectId a =? projectId)%nat) (activity s)));;
  ret (paginate rows (fst p) (snd p)).

(** *** Mutations *)

Definition createProject (ctx : GraphQLContext) (name_in : string) : M Project :=
  requireAuth ctx;;
  let name := trim name_in in
  when (String.length name <? 1)%nat badUserInput;;
  u <- user_bang ctx;;
  project_create name (au_id u).

Record CreateColumnInput := {
  cc_projectId : Id;
  cc_title : string;
  cc_position : Z }.

Definition shift_column (c : Column) : Column :=
  {| column_id := column_id c; column_title := column_title c;
     column_position := column_position c + 1; column_projectId := column_projectId c |}.

(** [input.position] is a GraphQL [Int], so [Number.isInteger] holds of it. *)
Definition createColumn (ctx : GraphQLContext) (input : CreateColumnInput) : M Column :=
  requireProjectOwnerOrAdmin ctx (cc_projectId input);;
  when (String.length (trim (cc_title input)) <? 1)%nat badUserInput;;
  when (cc_position input <? 1) badUserInput;;
  column_updateMany
    (fun c => ((column_projectId c =? cc_projectId input)%nat
               && (cc_position input <=? column_position c))%bool)
    shift_column;;
  col <- column_create (cc_projectId input) (trim (cc_title input)) (cc_position input);;
  u <- user_bang ctx;;
  activityLog_create "COLUMN_CREATED" (au_id u) (cc_projectId input) None
    (JObject [("columnId"%string, JRef (column_id col));
              ("title"%string, JString (column_title col))]);;
  ret col.

Record CreateTaskInput := {
  ct_columnId : Id;
  ct_title : string;
  ct_description : option string;
  ct_dueDate : option DateTime;
  ct_assigneeId : option Id }.

(** [s?.trim() || null]: a missing or blank text becomes [null]. *)
Definition trimOrNull (o : option string) : option string :=
  match o with
  | None => None
  | Some d => if (String.length (trim d) =? 0)%nat then None else Some (trim d)
  end.

Definition isNone {A} (o : option A) : bool :=
  match o with None => true | Some _ => false end.

(** The assignee check shared by [createTask] and [assignTask]. *)
Definition checkAssignee (ctx : GraphQLContext) (projectId : Id) (assigneeId : option Id)
  : M unit :=
  match assigneeId with
  | None => ret tt
  | Some a =>
      membership <- projectMember_findUnique projectId a;;
      if isNone membership then
        u <- user_bang ctx;;
        when (negb (Role_eqb (au_role u) ADMIN)) forbidden
      else ret tt
  end.

Definition jsonOfId (o : option Id) : Json :=
  match o with Some i => JRef i | None => JNull end.

Definition createTask (ctx : GraphQLContext) (input : CreateTaskInput) : M Task :=
  projectId <- getProjectIdByColumnId (ct_columnId input);;
  requireProjectMember ctx projectId;;
  let title := trim (ct_title input) in
  when (String.length title <? 1)%nat badUserInput;;
  checkAssignee ctx projectId (ct_assigneeId input);;
  last <- task_findFirst (fun t => (task_columnId t =? ct_columnId input)%nat) position_desc;;
  let position := match last with Some t => task_position t | None => 0 end + 1 in
  u <- user_bang ctx;;
  task <- task_create title (trimOrNull (ct_description input)) (ct_dueDate input)
            (ct_columnId input) (au_id u) (ct_assigneeId input) position TODO;;
  activityLog_create "TASK_CREATED" (au_id u) projectId (Some (task_id task))
    (JObject [("title"%string, JString (task_title task));
              ("columnId"%string, JRef (task_columnId task))]);;
  ret task.

(** An optional, nullable GraphQL input field: left out, [null], or a value. *)
Inductive Opt (A : Type) :=
| Undefined
| Null
| Val (a : A).

Arguments Undefined {A}.
Arguments Null {A}.
Arguments Val {A} a.

Record UpdateTaskInput := {
  ut_title : Opt string;
  ut_description : Opt string;
  ut_dueDate : Opt DateTime;
  ut_status : Opt TaskStatus }.

Definition nullable {A} (o : Opt A) : option (option A) :=
  match o with
  | Undefined => None
  | Null => Some None
  | Val a => Some (Some a)
  end.

(** [Object.keys(data)] in the order the keys are assigned. *)
Definition changedKeys (d : TaskUpdate) : list Json :=
  (if isNone (upd_title d) then [] else [JString "title"])
  ++ (if isNone (upd_description d) then [] else [JString "description"])
  ++ (if isNone (upd_dueDate d) then [] else [JString "dueDate"])
  ++ (if isNone (upd_status d) then [] else [JString "status"]).

Definition updateTask (ctx : GraphQLContext) (taskId : Id) (input : UpdateTaskInput)
  : M Task :=
  projectId <- getProjectIdByTaskId taskId;;
  requireProjectMember ctx projectId;;
  task <- task_findUnique taskId;;
  match task with
  | None => notFound
  | Some _ =>
      title <- match ut_title input with
               | Undefined => ret None
               | Null => internalError
               | Val t =>
                   when (String.length (trim t) <? 1)%nat badUserInput;;
                   ret (Some (trim t))
               end;;
      let data :=
        {| upd_title := title;
           upd_description :=
             match ut_description input with
             | Undefined => None
             | Null => Some None
             | Val d => Some (trimOrNull (Some d))
             end;
           upd_dueDate := nullable (ut_dueDate input);
           upd_status := nullable (ut_status input);
           upd_columnId := None;
           upd_position := None;
           upd_assigneeId := None |} in
      updated <- task_update taskId data;;
      u <- user_bang ctx;;
      activityLog_create "TASK_UPDATED" (au_id u) projectId (Some taskId)
        (JObject [("changes"%string, JArray (changedKeys data))]);;
      ret updated
  end.

Record MoveTaskInput := {
  mt_taskId : Id;
  mt_toColumnId : Id;
  mt_toPosition : Z }.

Definition shift_task (t : Task) : Task :=
  {| task_id := task_id t; task_title := task_title t;
     task_description := task_description t; task_dueDate := task_dueDate t;
     task_position := task_position t + 1; task_status := task_status t;
     task_columnId := task_columnId t; task_creatorId := task_creatorId t;
     task_assigneeId := task_assigneeId t |}.

Definition setPosition (p : Z) : TaskUpdate :=
  {| upd_title := None; upd_description := None; upd_dueDate := None;
     upd_status := None; upd_columnId := None; upd_position := Some p;
     upd_assigneeId := None |}.

Definition setColumnAndPosition (c : Id) (p : Z) : TaskUpdate :=
  {| upd_title := None; upd_description := None; upd_dueDate := None;
     upd_status := None; upd_columnId := Some c; upd_position := Some p;
     upd_assigneeId := None |}.

(** [sourceTasks.map((t, idx) => prisma.task.update({ where: { id: t.id },
    data: { position: idx + 1 } }))]: the updates touch distinct rows and are
    run here in array order. *)
Fixpoint renumber (sourceTasks : list Task) (idx : nat) : M unit :=
  match sourceTasks with
  | [] => ret tt
  | t :: rest =>
      task_update (task_id t) (setPosition (Z.of_nat idx + 1));;
      renumber rest (S idx)
  end.

(** [input.toPosition] is a GraphQL [Int], so [Number.isInteger] holds of it. *)
Definition moveTask (ctx : GraphQLContext) (input : MoveTaskInput) : M Task :=
  fromProjectId <- getProjectIdByTaskId (mt_taskId input);;
  toProjectId <- getProjectIdByColumnId (mt_toColumnId input);;
  when (negb (fromProjectId =? toProjectId)%nat) forbidden;;
  requireProjectMember ctx fromProjectId;;
  when (mt_toPosition input <? 1) badUserInput;;
  task <- task_findUnique (mt_taskId input);;
  match task with
  | None => notFound
  | Some task =>
      task_updateMany
        (fun t => ((task_columnId t =? mt_toColumnId input)%nat
                   && (mt_toPosition input <=? task_position t))%bool)
        shift_task;;
      moved <- task_update (mt_taskId input)
                 (setColumnAndPosition (mt_toColumnId input) (mt_toPosition input));;
      sourceTasks <- task_findMany (fun t => (task_columnId t =? task_columnId task)%nat)
                       position_asc;;
      renumber sourceTasks 0;;
      u <- user_bang ctx;;
      activityLog_create "TASK_MOVED" (au_id u) fromProjectId (Some (task_id moved))
        (JObject [("fromColumnId"%string, JRef (task_columnId task));
                  ("toColumnId"%string, JRef (mt_toColumnId input));
                  ("toPosition"%string, JNumber (mt_toPosition input))]);;
      ret moved
  end.

Definition setAssignee (a : option Id) : TaskUpdate :=
  {| upd_title := None; upd_description := None; upd_dueDate := None;
     upd_status := None; upd_columnId := None; upd_position := None;
     upd_assigneeId := Some a |}.

Definition assignTask (ctx : GraphQLContext) (taskId : Id) (assigneeId : option Id)
  : M Task :=
  projectId <- getProjectIdByTaskId taskId;;
  requireProjectMember ctx projectId;;
  checkAssignee ctx projectId assigneeId;;
  updated <- task_update taskId (setAssignee assigneeId);;
  u <- user_bang ctx;;
  activityLog_create "TASK_ASSIGNED" (au_id u) projectId (Some taskId)
    (JObject [("assigneeId"%string, jsonOfId assigneeId)]);;
  ret updated.

Record CommentTaskInput := {
  cm_taskId : Id;
  cm_content : string }.

Definition commentTask (ctx : GraphQLContext) (input : CommentTaskInput) : M Comment :=
  requireAuth ctx;;
  projectId <- getProjectIdByTaskId (cm_taskId input);;
  requireProjectMember ctx projectId;;
  let content := trim (cm_content input) in
  when (String.length content <? 1)%nat badUserInput;;
  u <- user_bang ctx;;
  comment <- comment_create (cm_taskId input) (au_id u) content;;
  activityLog_create "COMMENT_ADDED" (au_id u) projectId (Some (cm_taskId input))
    (JObject [("commentId"%string, JRef (comment_id comment))]);;
  ret comment.

Record InviteMemberInput := {
  im_projectId : Id;
  im_email : string }.

(** [randomToken(40)] draws from [Math.random]; the drawn token is an argument. *)
Definition inviteMember (ctx : GraphQLContext) (input : InviteMemberInput)
    (token : string) : M Invitation :=
  requireProjectOwnerOrAdmin ctx (im_projectId input);;
  let email := toLowerCase (trim (im_email input)) in
  when (negb (includes_at email)) badUserInput;;
  u <- user_bang ctx;;
  invite <- invitation_create (im_projectId input) email token (au_id u);;
  activityLog_create "MEMBER_INVITED" (au_id u) (im_projectId input) None
    (JObject [("email"%string, JString email)]);;
  ret invite.

Definition acceptInvite (ctx : GraphQLContext) (token : string) : M ProjectMember :=
  requireAuth ctx;;
  invite <- invitation_findUnique token;;
  match invite with
  | None => notFound
  | Some invite =>
      when (negb (InvitationStatus_eqb (inv_status invite) PENDING)) badUserInput;;
      u <- user_bang ctx;;
      user <- user_findUnique (au_id u);;
      match user with
      | None => unauthenticated
      | Some user =>
          when (negb (String.eqb (toLowerCase (user_email user))
                                 (toLowerCase (inv_email invite)))
                && negb (Role_eqb (au_role u) ADMIN))%bool forbidden;;
          membership <- projectMember_upsert (inv_projectId invite) (au_id u) MEMBER;;
          invitation_update token ACCEPTED;;
          activityLog_create "INVITE_ACCEPTED" (au_id u) (inv_projectId invite) None
            (JObject [("email"%string, JString (inv_email invite))]);;
          ret membership
      end
  end.

Record CreateLabelInput := {
  cl_projectId : Id;
  cl_name : string;
  cl_color : option string }.

Definition createLabel (ctx : GraphQLContext) (input : CreateLabelInput) : M Label :=
  requireProjectOwnerOrAdmin ctx (cl_projectId input);;
  let name := trim (cl_name input) in
  when (String.length name <? 1)%nat badUserInput;;
  label <- label_create (cl_projectId input) name (trimOrNull (cl_color input));;
  u <- user_bang ctx;;
  activityLog_create "LABEL_CREATED" (au_id u) (cl_projectId input) None
    (JObject [("labelId"%string, JRef (label_id label));
              ("name"%string, JString (label_name label))]);;
  ret label.

Definition addLabelToTask (ctx : GraphQLContext) (taskId labelId : Id) : M Task :=
  projectId <- getProjectIdByTaskId taskId;;
  requireProjectMember ctx projectId;;
  label <- label_findUnique labelId;;
  match label with
  | None => notFound
  | Some label =>
      when (negb (label_projectId label =? projectId)%nat) forbidden;;
      taskLabel_upsert taskId labelId;;
      u <- user_bang ctx;;
      activityLog_create "LABEL_ADDED_TO_TASK" (au_id u) projectId (Some taskId)
        (JObject [("labelId"%string, JRef labelId)]);;
      task <- task_findUnique taskId;;
      match task with
      | None => notFound
      | Some t => ret t
      end
  end.

Definition removeLabelFromTask (ctx : GraphQLContext) (taskId labelId : Id) : M Task :=
  projectId <- getProjectIdByTaskId taskId;;
  requireProjectMember ctx projectId;;
  label <- label_findUnique labelId;;
  match label with
  | None => notFound
  | Some label =>
      when (negb (label_projectId label =? projectId)%nat) forbidden;;
      taskLabel_deleteMany taskId labelId;;
      u <- user_bang ctx;;
      activityLog_create "LABEL_REMOVED_FROM_TASK" (au_id u) projectId (Some taskId)
        (JObject [("labelId"%string, JRef labelId)]);;
      task <- task_findUnique taskId;;
      match task with
      | None => notFound
      | Some t => ret t
      end
  end.

(** *** Field resolver [Task.labels] *)

Definition name_asc (a b : Label) : bool := String.leb (label_name a) (label_name b).

Definition Task_labels (t : Task) : M (list Label) :=
  links <- gets (fun s => filter (fun l => (tl_taskId l =? task_id t)%nat) (taskLabels s));;
  if (List.length links =? 0)%nat then ret []
  else
    gets (fun s => orderBy name_asc
            (filter (fun l => existsb (fun k => (tl_labelId k =? label_id l)%nat) links)
               (labels s))).

(** ** The API surface as one request type *)

Inductive Request :=
| ReqProject (projectId : Id)
| ReqTasks (projectId : Id) (offset limit : Z) (status : option TaskStatus)
    (assigneeId : option Id)
| ReqComments (taskId : Id) (offset limit : Z)
| ReqActivityLog (projectId : Id) (offset limit : Z)
| ReqCreateProject (name : string)
| ReqCreateColumn (input : CreateColumnInput)
| ReqCreateTask (input : CreateTaskInput)
| ReqUpdateTask (taskId : Id) (input : UpdateTaskInput)
| ReqMoveTask (input : MoveTaskInput)
| ReqAssignTask (taskId : Id) (assigneeId : option Id)
| ReqCommentTask (input : CommentTaskInput)
| ReqInviteMember (input : InviteMemberInput) (token : string)
| ReqAcceptInvite (token : string)
| ReqCreateLabel (input : CreateLabelInput)
| ReqAddLabelToTask (taskId labelId : Id)
| ReqRemoveLabelFromTask (taskId labelId : Id).

Inductive Response :=
| ResProject (p : Project)
| ResTasks (p : Page Task)
| ResComments (p : Page Comment)
| ResActivity (p : Page ActivityLog)
| ResColumn (c : Column)
| ResTask (t : Task)
| ResComment (c : Comment)
| ResInvitation (i : Invitation)
| ResMember (m : ProjectMember)
| ResLabel (l : Label).

Definition respond {A} (wrap : A -> Response) (m : M A) : M Response :=
  fun s =>
    match m s with
    | (Ok a, s') => (Ok (wrap a), s')
    | (Err e, s') => (Err e, s')
    end.

Definition resolve (ctx : GraphQLContext) (req : Request) : M Response :=
  match req with
  | ReqProject p => respond ResProject (Query_project ctx p)
  | ReqTasks p o l st a => respond ResTasks (Query_tasks ctx p o l st a)
  | ReqComments t o l => respond ResComments (Query_comments ctx t o l)
  | ReqActivityLog p o l => respond ResActivity (Query_activityLog ctx p o l)
  | ReqCreateProject n => respond ResProject (createProject ctx n)
  | ReqCreateColumn i => respond ResColumn (createColumn ctx i)
  | ReqCreateTask i => respond ResTask (createTask ctx i)
  | ReqUpdateTask t i => respond ResTask (updateTask ctx t i)
  | ReqMoveTask i => respond ResTask (moveTask ctx i)
  | ReqAssignTask t a => respond ResTask (assignTask ctx t a)
  | ReqCommentTask i => respond ResComment (commentTask ctx i)
  | ReqInviteMember i tok => respond ResInvitation (inviteMember ctx i tok)
  | ReqAcceptInvite tok => respond ResMember (acceptInvite ctx tok)
  | ReqCreateLabel i => respond ResLabel (createLabel ctx i)
  | ReqAddLabelToTask t l => respond ResTask (addLabelToTask ctx t l)
  | ReqRemoveLabelFromTask t l => respond ResTask (removeLabelFromTask ctx t l)
  end.

(** The mutations that write project, column or task state, with the action
    tag each one logs. *)
Definition action_tag (req : Request) : option string :=
  match req with
  | ReqCreateProject _ => Some "PROJECT_CREATED"
  | ReqCreateColumn _ => Some "COLUMN_CREATED"
  | ReqCreateTask _ => Some "TASK_CREATED"
  | ReqUpdateTask _ _ => Some "TASK_UPDATED"
  | ReqMoveTask _ => Some "TASK_MOVED"
  | ReqAssignTask _ _ => Some "TASK_ASSIGNED"
  | ReqCommentTask _ => Some "COMMENT_ADDED"
  | ReqInviteMember _ _ => Some "MEMBER_INVITED"
  | ReqAcceptInvite _ => Some "INVITE_ACCEPTED"
  | ReqCreateLabel _ => Some "LABEL_CREATED"
  | ReqAddLabelToTask _ _ => Some "LABEL_ADDED_TO_TASK"
  | ReqRemoveLabelFromTask _ _ => Some "LABEL_REMOVED_FROM_TASK"
  | _ => None
  end%string.

(** The operations that take a [taskId] or a [columnId], with the ids. *)
Definition taskId_of (req : Request) : option Id :=
  match req with
  | ReqComments t _ _ | ReqUpdateTask t _ | ReqAssignTask t _
  | ReqAddLabelToTask t _ | ReqRemoveLabelFromTask t _ => Some t
  | ReqMoveTask i => Some (mt_taskId i)
  | ReqCommentTask i => Some (cm_taskId i)
  | _ => None
  end.

Definition columnId_of (req : Request) : option Id :=
  match req with
  | ReqCreateTask i => Some (ct_columnId i)
  | ReqMoveTask i => Some (mt_toColumnId i)
  | _ => None
  end.

(** An id of the request that resolves to no row. *)
Definition unknown_id (s : Db) (req : Request) : bool :=
  (match taskId_of req with Some t => negb (task_exists s t) | None => false end
   || match columnId_of req with Some c => negb (column_exists s c) | None => false end)%bool.

(** Resource-to-project resolution, as a read of the store. *)
Definition project_of_column (s : Db) (columnId : Id) : option Id :=
  option_map column_projectId (find (fun c => (column_id c =? columnId)%nat) (columns s)).

Definition project_of_task (s : Db) (taskId : Id) : option Id :=
  match find (fun t => (task_id t =? taskId)%nat) (tasks s) with
  | Some t => project_of_column s (task_columnId t)
  | None => None
  end.

(** The project whose membership gate ([requireProjectMember]) a request
    reaches, for the operations that call it. *)
Definition gated_project (s : Db) (req : Request) : option Id :=
  match req with
  | ReqProject p | ReqTasks p _ _ _ _ | ReqActivityLog p _ _ => Some p
  | ReqComments t _ _ | ReqUpdateTask t _ | ReqAssignTask t _
  | ReqAddLabelToTask t _ | ReqRemoveLabelFromTask t _ => project_of_task s t
  | ReqCommentTask i => project_of_task s (cm_taskId i)
  | ReqCreateTask i => project_of_column s (ct_columnId i)
  | ReqMoveTask i =>
      match project_of_task s (mt_taskId i), project_of_column s (mt_toColumnId i) with
      | Some p, Some q => if (p =? q)%nat then Some p else None
      | _, _ => None
      end
  | _ => None
  end.

Definition is_member (s : Db) (projectId userId : Id) : bool :=
  existsb (is_member_row projectId userId) (members s).

(** ** Ordered collections: the position invariant *)

Definition task_positions (columnId : Id) (s : Db) : list Z :=
  map task_position (filter (fun t => (task_columnId t =? columnId)%nat) (tasks s)).

Definition column_positions (projectId : Id) (s : Db) : list Z :=
  map column_position (filter (fun c => (column_projectId c =? projectId)%nat) (columns s)).

(** The values are exactly [1..count], without gap or duplicate. *)
Definition contiguous (ps : list Z) : Prop :=
  NoDup ps /\ forall z, In z ps <-> 1 <= z <= Z.of_nat (List.length ps).

Definition positions_ok (s : Db) : Prop :=
  (forall projectId, contiguous (column_positions projectId s))
  /\ (forall columnId, contiguous (task_positions columnId s)).

(** A valid store: contiguous positions, unique task keys below the key
    counter, and every column inside an existing project. *)
Record valid (s : Db) : Prop := {
  valid_positions : positions_ok s;
  valid_task_ids : NoDup (map task_id (tasks s));
  valid_task_fresh : Forall (fun i => (i < nextId s)%nat) (map task_id (tasks s));
  valid_column_fk :
    Forall (fun c => project_exists s (column_projectId c) = true) (columns s) }.

Definition ordered_op (req : Request) : bool :=
  match req with
  | ReqCreateColumn _ | ReqCreateTask _ | ReqMoveTask _ => true
  | _ => false
  end.

(** The position argument is at most the size of the target scope plus one. *)
Definition in_range (s : Db) (req : Request) : bool :=
  match req with
  | ReqCreateColumn i =>
      cc_position i <=? Z.of_nat (List.length (column_positions (cc_projectId i) s)) + 1
  | ReqMoveTask i =>
      mt_toPosition i <=? Z.of_nat (List.length (task_positions (mt_toColumnId i) s)) + 1
  | _ => true
  end.

(** Requests executed one after the other, each on the store the previous one
    left, whatever its outcome. *)
Fixpoint run (s : Db) (reqs : list (GraphQLContext * Request)) : Db :=
  match reqs with
  | [] => s
  | (ctx, req) :: rest => run (snd (resolve ctx req s)) rest
  end.

Fixpoint all_in_range (s : Db) (reqs : list (GraphQLContext * Request)) : bool :=
  match reqs with
  | [] => true
  | (ctx, req) :: rest =>
      (ordered_op req && in_range s req && all_in_range (snd (resolve ctx req s)) rest)%bool
  end.

(** The effect of [renumber] on the task table. *)
Fixpoint renumber_rows (ids : list Id) (idx : nat) (rows : list Task) : list Task :=
  match ids with
  | [] => rows
  | i :: rest =>
      renumber_rows rest (S idx)
        (updateWhere (fun r => (task_id r =? i)%nat)
           (applyUpdate (setPosition (Z.of_nat idx + 1))) rows)
  end.

Fixpoint index_of (i : Id) (ids : list Id) : option nat :=
  match ids with
  | [] => None
  | j :: rest => if (j =? i)%nat then Some O else option_map S (index_of i rest)
  end.

Definition renumber_row (ids : list Id) (idx : nat) (r : Task) : Task :=
  match index_of (task_id r) ids with
  | Some k => applyUpdate (setPosition (Z.of_nat (idx + k) + 1)) r
  | None => r
  end.

(** The task table after the three writes of [moveTask]. *)
Definition moved_rows (input : MoveTaskInput) (fromColumnId : Id) (rows : list Task)
  : list Task :=
  let shifted :=
    updateWhere
      (fun t => ((task_columnId t =? mt_toColumnId input)%nat
                 && (mt_toPosition input <=? task_position t))%bool)
      shift_task rows in
  let placed :=
    updateWhere (fun r => (task_id r =? mt_taskId input)%nat)
      (applyUpdate (setColumnAndPosition (mt_toColumnId input) (mt_toPosition input)))
      shifted in
  renumber_rows
    (map task_id
       (orderBy position_asc
          (filter (fun t => (task_columnId t =? fromColumnId)%nat) placed)))
    0 placed.

Definition shift_from (p z : Z) : Z := if p <=? z then z + 1 else z.

(** The position [createTask] reads before it adds one. *)
Definition last_position (columnId : Id) (s : Db) : Z :=
  match hd_error (orderBy position_desc
                    (filter (fun t => (task_columnId t =? columnId)%nat) (tasks s))) with
  | Some t => task_position t
  | None => 0
  end.

(** The column table after the [updateMany] of [createColumn]. *)
Definition shifted_columns (input : CreateColumnInput) (cols : list Column) : list Column :=
  updateWhere
    (fun c => ((column_projectId c =? cc_projectId input)%nat
               && (cc_position input <=? column_position c))%bool)
    shift_column cols.

(** ** A concrete board

    Project 10 is owned by alice (a plain user), has the three default columns
    and three tasks in the first one.  A second project, 50, is owned by bob.
    root has the global ADMIN role and is a member of neither. *)

Local Open Scope nat_scope.
Local Open Scope string_scope.

Definition newTask (id : Id) (title : string) (position : Z) (columnId creatorId : Id)
  : Task :=
  {| task_id := id; task_title := title; task_description := None;
     task_dueDate := None; task_position := position; task_status := TODO;
     task_columnId := columnId; task_creatorId := creatorId; task_assigneeId := None |}.

Definition board : Db :=
  {| users :=
       [{| user_id := 1; user_email := "alice@example.com"; user_role := USER |};
        {| user_id := 2; user_email := "root@example.com"; user_role := ADMIN |};
        {| user_id := 3; user_email := "bob@example.com"; user_role := USER |};
        {| user_id := 4; user_email := "carol@example.com"; user_role := USER |}];
     projects :=
       [{| project_id := 10; project_name := "Board"; project_ownerId := 1 |};
        {| project_id := 50; project_name := "Other"; project_ownerId := 3 |}];
     members :=
       [{| pm_id := 11; pm_projectId := 10; pm_userId := 1; pm_projectRole := OWNER |};
        {| pm_id := 51; pm_projectId := 50; pm_userId := 3; pm_projectRole := OWNER |}];
     columns :=
       [{| column_id := 20; column_title := "To Do"; column_position := 1%Z;
           column_projectId := 10 |};
        {| column_id := 21; column_title := "In Progress"; column_position := 2%Z;
           column_projectId := 10 |};
        {| column_id := 22; column_title := "Done"; column_position := 3%Z;
           column_projectId := 10 |};
        {| column_id := 60; column_title := "To Do"; column_position := 1%Z;
           column_projectId := 50 |}];
     tasks :=
       [newTask 30 "a" 1%Z 20 1; newTask 31 "b" 2%Z 20 1; newTask 32 "c" 3%Z 20 1];
     comments := [];
     labels :=
       [{| label_id := 40; label_name := "bug"; label_color := None;
           label_projectId := 10 |}];
     taskLabels := [];
     invitations :=
       [{| inv_id := 70; inv_email := "Carol@Example.com"; inv_token := "tok-carol";
           inv_status := PENDING; inv_projectId := 10; inv_invitedById := 1 |};
        {| inv_id := 71; inv_email := "alice@example.com"; inv_token := "tok-alice";
           inv_status := PENDING; inv_projectId := 10; inv_invitedById := 1 |};
        {| inv_id := 72; inv_email := "bob@example.com"; inv_token := "tok-revoked";
           inv_status := REVOKED; inv_projectId := 10; inv_invitedById := 1 |}];
     activity := [];
     nextId := 100 |}.

Definition as_user (id : Id) (role : Role) : GraphQLContext :=
  {| ctx_user := Some {| au_id := id; au_role := role |} |}.

Definition as_alice : GraphQLContext := as_user 1 USER.
Definition as_root : GraphQLContext := as_user 2 ADMIN.
Definition as_bob : GraphQLContext := as_user 3 USER.
Definition as_carol : GraphQLContext := as_user 4 USER.
Definition anonymous : GraphQLContext := {| ctx_user := None |}.

Local Close Scope string_scope.
Local Close Scope nat_scope.

(** ** Predicates used by the statements *)

Definition in_column (c : Id) (t : Task) : bool := (task_columnId t =? c)%nat.

(** The keys [moveTask] reads back from the source column, in position order. *)
Definition source_ids (c : Id) (rows : list Task) : list Id :=
  map task_id (orderBy position_asc (filter (in_column c) rows)).

(** One row after the [updateMany] and the [update] of [moveTask]. *)
Definition place (input : MoveTaskInput) (r : Task) : Task :=
  let r1 := if (in_column (mt_toColumnId input) r
                && (mt_toPosition input <=? task_position r))%bool
            then shift_task r else r in
  if (task_id r1 =? mt_taskId input)%nat
  then applyUpdate (setColumnAndPosition (mt_toColumnId input) (mt_toPosition input)) r1
  else r1.

Definition placed (input : MoveTaskInput) (rows : list Task) : list Task :=
  map (place input) rows.

(** The number of rows whose position is below [p]. *)
Definition below (p : Z) (rows : list Task) : nat :=
  List.length (filter (fun r => task_position r <? p) rows).

Definition positions_by_id (s : Db) : list (Id * Z) :=
  map (fun t => (task_id t, task_position t)) (tasks s).

Definition succeeded {A} (o : Outcome A) : bool :=
  match o with Ok _ => true | Err _ => false end.

(** The foreign key from a task to its column. *)
Definition tasks_fk (s : Db) : Prop :=
  Forall (fun t => column_exists s (task_columnId t) = true) (tasks s).

(** One audit row, with the caller's id and the tag, was appended. *)
Definition logged (ctx : GraphQLContext) (tag : string) (s s' : Db) : Prop :=
  exists u row,
    ctx_user ctx = Some u
    /\ activity s' = activity s ++ [row]
    /\ log_actorId row = au_id u
    /\ log_action row = tag.

(** The store apart from the audit table and the key counter. *)
Definition same_data (s s' : Db) : Prop :=
  users s' = users s /\ projects s' = projects s /\ members s' = members s
  /\ columns s' = columns s /\ tasks s' = tasks s /\ comments s' = comments s
  /\ labels s' = labels s /\ taskLabels s' = taskLabels s
  /\ invitations s' = invitations s.

Definition membership_count (s : Db) (projectId userId : Id) : nat :=
  List.length (filter (is_member_row projectId userId) (members s)).

Definition member_key (m : ProjectMember) : Id * Id := (pm_projectId m, pm_userId m).

(** The unique index on (projectId, userId). *)
Definition members_unique (s : Db) : Prop := NoDup (map member_key (members s)).

(** The invitation table after the [update] of [acceptInvite]. *)
Definition accepted (token : string) (rows : list Invitation) : list Invitation :=
  updateWhere (fun r => String.eqb (inv_token r) token) (set_status ACCEPTED) rows.

(** What a call of [addLabelToTask] needs in order to succeed: an
    authenticated caller whose account exists and who is an ADMIN or a member of
    the task's project, and a label of that same project. *)
Definition can_label (ctx : GraphQLContext) (u : AuthUser) (p : Id) (label : Label)
    (taskId labelId : Id) (s : Db) : Prop :=
  ctx_user ctx = Some u
  /\ user_exists s (au_id u) = true
  /\ (au_role u = ADMIN \/ is_member s p (au_id u) = true)
  /\ project_of_task s taskId = Some p
  /\ project_exists s p = true
  /\ find (fun l => (label_id l =? labelId)%nat) (labels s) = Some label
  /\ label_projectId label = p.

Definition linked (s : Db) (taskId labelId : Id) : bool :=
  existsb (is_link taskId labelId) (taskLabels s).

(** ** Requests on the concrete board *)

Definition column_at_zero : CreateColumnInput :=
  {| cc_projectId := 10; cc_title := "Backlog"; cc_position := 0 |}.

Definition column_at_two : CreateColumnInput :=
  {| cc_projectId := 10; cc_title := "Review"; cc_position := 2 |}.

Definition column_at_five : CreateColumnInput :=
  {| cc_projectId := 10; cc_title := "Later"; cc_position := 5 |}.

Definition task_d : CreateTaskInput :=
  {| ct_columnId := 21; ct_title := "d"; ct_description := None;
     ct_dueDate := None; ct_assigneeId := None |}.

Definition move_a_last : MoveTaskInput :=
  {| mt_taskId := 30; mt_toColumnId := 20; mt_toPosition := 3 |}.

Definition move_c_first : MoveTaskInput :=
  {| mt_taskId := 32; mt_toColumnId := 20; mt_toPosition := 1 |}.

Definition move_a_across : MoveTaskInput :=
  {| mt_taskId := 30; mt_toColumnId := 21; mt_toPosition := 1 |}.

Definition move_a_to_zero : MoveTaskInput :=
  {| mt_taskId := 30; mt_toColumnId := 21; mt_toPosition := 0 |}.

Definition move_a_to_nine : MoveTaskInput :=
  {| mt_taskId := 30; mt_toColumnId := 21; mt_toPosition := 9 |}.

Definition move_a_to_other_project : MoveTaskInput :=
  {| mt_taskId := 30; mt_toColumnId := 60; mt_toPosition := 1 |}.

(** Five requests within range: the last one is refused (bob is no member). *)
Definition in_range_requests : list (GraphQLContext * Request) :=
  [(as_alice, ReqCreateColumn column_at_two);
   (as_alice, ReqCreateTask task_d);
   (as_alice, ReqMoveTask move_a_across);
   (as_alice, ReqMoveTask move_c_first);
   (as_bob, ReqMoveTask move_a_last)].

Definition column_gap_requests : list (GraphQLContext * Request) :=
  [(as_alice, ReqCreateColumn column_at_five)].

Definition comment_on_unknown : Request :=
  ReqCommentTask {| cm_taskId := 999; cm_content := "hello" |}.

Definition labelled_board : Db := snd (addLabelToTask as_alice 30 40 board).

Definition carol_joined : Db := snd (acceptInvite as_carol "tok-carol" board).

Definition bug_label : Label :=
  {| label_id := 40; label_name := "bug"; label_color := None; label_projectId := 10 |}.

Definition alice_owner_row : ProjectMember :=
  {| pm_id := 11; pm_projectId := 10; pm_userId := 1; pm_projectRole := OWNER |}.

Definition alice_invitation : Invitation :=
  {| inv_id := 71; inv_email := "alice@example.com"; inv_token := "tok-alice";
     inv_status := PENDING; inv_projectId := 10; inv_invitedById := 1 |}.

(** ** Resolvers outside the request type

    [Query.projects] and the field resolvers [Project.columns] and
    [Column.tasks] of [src/graphql/resolvers/index.ts]. *)

(** [where: { name: { contains: search, mode: "insensitive" } }].  The store
    is SQLite ([prisma/migrations], first line), whose connector has no [mode]
    argument: the client refuses the query before it reaches the database,
    and the server answers INTERNAL_SERVER_ERROR.  Without a search text the
    [where] clause carries no name filter. *)
Definition name_contains_insensitive (search : option string) : M unit :=
  match search with
  | Some _ => internalError
  | None => ret tt
  end.

(** [Query.projects]: an absent or [null] search is [None]; the rows come
    newest first. *)
Definition Query_projects (ctx : GraphQLContext) (offset limit : Z)
    (search_in : option string) : M (Page Project) :=
  requireAuth ctx;;
  p <- parsePagination offset limit;;
  let search := option_map trim search_in in
  when (match search with Some q => (String.length q =? 0)%nat | None => false end)
    badUserInput;;
  u <- user_bang ctx;;
  if Role_eqb (au_role u) ADMIN then
    name_contains_insensitive search;;
    rows <- gets (fun s => rev (projects s));;
    ret (paginate rows (fst p) (snd p))
  else
    name_contains_insensitive search;;
    rows <- gets (fun s =>
              rev (filter (fun pr => existsb (is_member_row (project_id pr) (au_id u))
                                       (members s))
                     (projects s)));;
    ret (paginate rows (fst p) (snd p)).

(** [orderBy: { position: "asc" }] on columns. *)
Definition column_asc (a b : Column) : bool := column_position a <=? column_position b.

Definition Project_columns (p : Project) : M (list Column) :=
  gets (fun s => orderBy column_asc
                   (filter (fun c => (column_projectId c =? project_id p)%nat) (columns s))).

(** [Column.tasks]: no guard of its own; [status] and [assigneeId] filter when
    given. *)
Definition Column_tasks (c : Column) (offset limit : Z) (status : option TaskStatus)
    (assigneeId : option Id) : M (Page Task) :=
  p <- parsePagination offset limit;;
  let where_ (t : Task) : bool :=
    ((task_columnId t =? column_id c)%nat
     && match status with Some st => TaskStatus_eqb (task_status t) st | None => true end
     && match assigneeId with
        | Some a => match task_assigneeId t with Some b => (a =? b)%nat | None => false end
        | None => true
        end)%bool in
  rows <- gets (fun s => orderBy position_asc (filter where_ (tasks s)));;
  ret (paginate rows (fst p) (snd p)).

(** ** Predicates on stores, pages and requests *)

(** The error codes the resolvers raise themselves; INTERNAL_SERVER_ERROR is
    what a failing store call or a TypeError becomes. *)
Definition is_rejection (e : ErrorCode) : bool :=
  match e with
  | INTERNAL_SERVER_ERROR => false
  | _ => true
  end.

(** What a page owes to [paginationSchema] and to [skip]/[take]. *)
Definition page_ok {A} (offset limit : Z) (p : Page A) : Prop :=
  0 <= offset /\ 1 <= limit <= 50
  /\ page_offset p = offset /\ page_limit p = limit
  /\ 0 <= total p
  /\ Z.of_nat (List.length (items p)) = Z.min limit (Z.max 0 (total p - offset)).

(** The caller holds the OWNER row of the project. *)
Definition is_owner (s : Db) (projectId userId : Id) : bool :=
  match find (is_member_row projectId userId) (members s) with
  | Some m => ProjectRole_eqb (pm_projectRole m) OWNER
  | None => false
  end.

(** The project whose owner gate ([requireProjectOwnerOrAdmin]) a request
    reaches first. *)
Definition owner_gated_project (req : Request) : option Id :=
  match req with
  | ReqCreateColumn i => Some (cc_projectId i)
  | ReqInviteMember i _ => Some (im_projectId i)
  | ReqCreateLabel i => Some (cl_projectId i)
  | _ => None
  end.

(** Key, column and position of a task row. *)
Definition task_shape (t : Task) : Id * Id * Z :=
  (task_id t, task_columnId t, task_position t).

(** A valid store whose project keys are below the key counter and whose
    membership rows point at existing projects. *)
Record sound (s : Db) : Prop := {
  sound_valid : valid s;
  sound_projects : Forall (fun p => (project_id p < nextId s)%nat) (projects s);
  sound_members :
    Forall (fun m => project_exists s (pm_projectId m) = true) (members s) }.

(** The three columns the nested create of [createProject] writes. *)
Definition default_columns (projectId firstKey : Id) : list Column :=
  [{| column_id := firstKey; column_title := "To Do"; column_position := 1;
      column_projectId := projectId |};
   {| column_id := S firstKey; column_title := "In Progress"; column_position := 2;
      column_projectId := projectId |};
   {| column_id := S (S firstKey); column_title := "Done"; column_position := 3;
      column_projectId := projectId |}].

(** Requests executed in sequence whose position arguments are within range. *)
Fixpoint all_within (s : Db) (reqs : list (GraphQLContext * Request)) : bool :=
  match reqs with
  | [] => true
  | (ctx, req) :: rest =>
      (in_range s req && all_within (snd (resolve ctx req s)) rest)%bool
  end.

(** A link between a task and a label of the task's own project. *)
Definition link_in_project (s : Db) (k : TaskLabel) : Prop :=
  exists p l,
    project_of_task s (tl_taskId k) = Some p
    /\ find (fun l => (label_id l =? tl_labelId k)%nat) (labels s) = Some l
    /\ label_projectId l = p.

(** Every link of the store stays inside one project. *)
Definition labels_scoped (s : Db) : Prop := Forall (link_in_project s) (taskLabels s).

(** Task keys are unique and below the key counter. *)
Definition keyed (s : Db) : Prop :=
  NoDup (map task_id (tasks s))
  /\ Forall (fun i => (i < nextId s)%nat) (map task_id (tasks s)).

(** ** Further requests on the concrete board *)

Definition retitle_b : UpdateTaskInput :=
  {| ut_title := Val "  b, revised "%string; ut_description := Undefined;
     ut_dueDate := Undefined; ut_status := Val DONE |}.

Definition mixed_requests : list (GraphQLContext * Request) :=
  [(as_carol, ReqCreateProject "Roadmap"%string);
   (as_alice, ReqUpdateTask 31 retitle_b);
   (as_alice, ReqAssignTask 30 (Some 1%nat));
   (as_alice, ReqMoveTask move_a_across);
   (as_alice, ReqCommentTask {| cm_taskId := 30; cm_content := "moved"%string |});
   (as_carol, ReqAcceptInvite "tok-carol"%string);
   (as_alice, ReqCreateColumn column_at_two);
   (anonymous, ReqTasks 10 0 10 None None)].


Definition feature_label : CreateLabelInput :=
  {| cl_projectId := 10; cl_name := " feature "%string; cl_color := None |}.

Definition label_requests : list (GraphQLContext * Request) :=
  [(as_alice, ReqMoveTask move_a_to_other_project);
   (as_bob, ReqAddLabelToTask 30 40);
   (as_alice, ReqMoveTask move_a_across);
   (as_alice, ReqCreateLabel feature_label);
   (as_alice, ReqAddLabelToTask 31 103);
   (as_root, ReqAddLabelToTask 31 40);
   (as_alice, ReqRemoveLabelFromTask 30 40)].

Definition assign_to_nobody : Request := ReqAssignTask 30 (Some 999%nat).

Definition second_bug_label : CreateLabelInput :=
  {| cl_projectId := 10; cl_name := "  bug "%string; cl_color := None |}.

Definition todo_column : Column :=
  {| column_id := 20; column_title := "To Do"; column_position := 1;
     column_projectId := 10 |}.

(** U+00A0, the no-break space, in UTF-8. *)
Definition nbsp : string :=
  String (ascii_of_nat 194) (String (ascii_of_nat 160) EmptyString).

Definition task_for_bob : CreateTaskInput :=
  {| ct_columnId := 21; ct_title := "e"; ct_description := None;
     ct_dueDate := None; ct_assigneeId := Some 3%nat |}.

Definition untitled_task_for_bob : CreateTaskInput :=
  {| ct_columnId := 21; ct_title := nbsp; ct_description := None;
     ct_dueDate := None; ct_assigneeId := Some 3%nat |}.

Definition untitled_column : CreateColumnInput :=
  {| cc_projectId := 10; cc_title := nbsp; cc_position := 1 |}.

(** * Proofs *)

(** ** Contiguous position lists *)

Section Contiguous.

Lemma contiguous_nil : contiguous [].
Proof.
  split; [constructor | intros z; simpl; lia].
Qed.

Lemma contiguous_perm ps qs :
  Permutation ps qs -> contiguous ps -> contiguous qs.
Proof.
  intros Hp [Hnd Hin]. split.
  - eapply Permutation_NoDup; eauto.
  - intros z. rewrite <- (Permutation_length Hp), <- Hin.
    split; apply Permutation_in; auto using Permutation_sym.
Qed.

Lemma in_range_seq n idx z :
  In z (map (fun k => Z.of_nat k + 1) (seq idx n))
  <-> Z.of_nat idx + 1 <= z <= Z.of_nat idx + Z.of_nat n.
Proof.
  rewrite in_map_iff. split.
  - intros [k [<- Hk]]. apply in_seq in Hk. lia.
  - intros Hz. exists (Z.to_nat (z - 1)). split; [lia |].
    apply in_seq. lia.
Qed.

Lemma contiguous_range n :
  contiguous (map (fun k => Z.of_nat k + 1) (seq 0 n)).
Proof.
  split.
  - apply Finite.Injective_map_NoDup; [| apply seq_NoDup].
    intros a b; lia.
  - intros z. rewrite in_range_seq, length_map, length_seq. lia.
Qed.

Lemma contiguous_insert ps p :
  contiguous ps -> 1 <= p <= Z.of_nat (List.length ps) + 1 ->
  contiguous (p :: map (shift_from p) ps).
Proof.
  intros [Hnd Hin] Hp. split.
  - constructor.
    + rewrite in_map_iff. intros [z [Hz _]]. unfold shift_from in Hz.
      destruct (Z.leb_spec p z); lia.
    + apply Finite.Injective_map_NoDup; auto.
      intros a b. unfold shift_from.
      destruct (Z.leb_spec p a), (Z.leb_spec p b); lia.
  - intros z. simpl. rewrite length_map, in_map_iff. split.
    + intros [<- | [y [<- Hy]]]; [lia |].
      apply Hin in Hy. unfold shift_from. destruct (Z.leb_spec p y); lia.
    + intros Hz. destruct (Z.eq_dec p z) as [-> | Hne]; [now left | right].
      destruct (Z_lt_le_dec z p).
      * exists z. split; [| apply Hin; lia].
        unfold shift_from. destruct (Z.leb_spec p z); lia.
      * exists (z - 1). split; [| apply Hin; lia].
        unfold shift_from. destruct (Z.leb_spec p (z - 1)); lia.
Qed.

Lemma contiguous_snoc ps :
  contiguous ps -> contiguous (ps ++ [Z.of_nat (List.length ps) + 1]).
Proof.
  intros H. apply contiguous_perm with (Z.of_nat (List.length ps) + 1 :: ps).
  - apply Permutation_cons_append.
  - pose proof (contiguous_insert ps (Z.of_nat (List.length ps) + 1) H) as Hi.
    replace (map (shift_from (Z.of_nat (List.length ps) + 1)) ps) with ps in Hi.
    + apply Hi. lia.
    + rewrite <- (map_id ps) at 1. apply map_ext_in. intros z Hz.
      apply H in Hz. unfold shift_from.
      destruct (Z.leb_spec (Z.of_nat (List.length ps) + 1) z); lia.
Qed.

End Contiguous.

(** ** Ordering and row updates *)

Section Tables.

Context {A : Type}.

Lemma insertBy_perm (le : A -> A -> bool) x l :
  Permutation (insertBy le x l) (x :: l).
Proof.
  induction l as [| y l IH]; simpl; auto.
  destruct (le x y); auto.
  rewrite IH. apply perm_swap.
Qed.

Lemma orderBy_perm (le : A -> A -> bool) l : Permutation (orderBy le l) l.
Proof.
  induction l as [| x l IH]; simpl; auto.
  rewrite insertBy_perm. auto.
Qed.

Lemma filter_map_commute {B} (g : A -> B) (p : B -> bool) (q : A -> bool) l :
  (forall r, In r l -> p (g r) = q r) ->
  filter p (map g l) = map g (filter q l).
Proof.
  induction l as [| x l IH]; simpl; intros H; auto.
  rewrite (H x) by auto. destruct (q x); simpl; rewrite IH; auto.
Qed.

End Tables.

Lemma NoDup_map_inj {A B} (f : A -> B) l a b :
  NoDup (map f l) -> In a l -> In b l -> f a = f b -> a = b.
Proof.
  induction l as [| x l IH]; simpl; [tauto |].
  intros Hnd Ha Hb Hf. inversion Hnd as [| ? ? Hx Hl]; subst.
  destruct Ha as [-> | Ha], Hb as [-> | Hb]; auto.
  - exfalso. apply Hx. rewrite Hf. now apply in_map.
  - exfalso. apply Hx. rewrite <- Hf. now apply in_map.
Qed.

Lemma filter_map_fixed {A} (p : A -> bool) (g : A -> A) l :
  (forall r, In r l -> p (g r) = p r) ->
  (forall r, In r l -> p r = true -> g r = r) ->
  filter p (map g l) = filter p l.
Proof.
  induction l as [| x l IH]; simpl; intros Hp Hg; auto.
  rewrite (Hp x) by auto. destruct (p x) eqn:E.
  - rewrite (Hg x) by auto. f_equal. apply IH; auto.
  - apply IH; auto.
Qed.

(** ** Renumbering a column *)

Section Renumber.

Lemma task_id_applyUpdate d t : task_id (applyUpdate d t) = task_id t.
Proof. reflexivity. Qed.

Lemma task_columnId_setPosition p t :
  task_columnId (applyUpdate (setPosition p) t) = task_columnId t.
Proof. reflexivity. Qed.

Lemma index_of_notin i ids : ~ In i ids -> index_of i ids = None.
Proof.
  induction ids as [| j ids IH]; simpl; auto.
  intros H. destruct (Nat.eqb_spec j i); [tauto |].
  rewrite IH; tauto.
Qed.

Lemma index_of_in i ids : In i ids -> exists k, index_of i ids = Some k.
Proof.
  induction ids as [| j ids IH]; simpl; [tauto |].
  intros H. destruct (Nat.eqb_spec j i); [eauto |].
  destruct IH as [k ->]; [tauto | simpl; eauto].
Qed.

Lemma renumber_rows_spec ids :
  NoDup ids ->
  forall idx rows, renumber_rows ids idx rows = map (renumber_row ids idx) rows.
Proof.
  induction 1 as [| i ids Hi Hnd IH]; intros idx rows; simpl.
  - unfold renumber_row. simpl. now rewrite map_id.
  - rewrite IH. unfold updateWhere. rewrite map_map. apply map_ext.
    intros r. unfold renumber_row. simpl.
    destruct (Nat.eqb_spec (task_id r) i) as [E | Hne].
    + rewrite task_id_applyUpdate, E, Nat.eqb_refl, (index_of_notin _ _ Hi).
      now rewrite Nat.add_0_r.
    + destruct (Nat.eqb_spec i (task_id r)); [congruence |].
      destruct (index_of (task_id r) ids); simpl; auto.
      now rewrite Nat.add_succ_r.
Qed.

Lemma map_index_seq ids :
  NoDup ids ->
  forall idx,
    map (fun i => match index_of i ids with
                  | Some k => Z.of_nat (idx + k) + 1
                  | None => 0
                  end) ids
    = map (fun k => Z.of_nat k + 1) (seq idx (List.length ids)).
Proof.
  induction 1 as [| i ids Hi Hnd IH]; intros idx; simpl; auto.
  rewrite Nat.eqb_refl, Nat.add_0_r. f_equal.
  rewrite <- IH. apply map_ext_in. intros j Hj.
  destruct (Nat.eqb_spec i j); [congruence |].
  destruct (index_of j ids); simpl; auto.
  now rewrite Nat.add_succ_r.
Qed.

Variable c : Id.
Variable rows : list Task.
Hypothesis rows_keys : NoDup (map task_id rows).

Lemma source_ids_perm :
  Permutation (map task_id (filter (in_column c) rows)) (source_ids c rows).
Proof.
  unfold source_ids. apply Permutation_map, Permutation_sym, orderBy_perm.
Qed.

Lemma source_ids_NoDup : NoDup (source_ids c rows).
Proof.
  eapply Permutation_NoDup; [apply source_ids_perm |].
  induction rows as [| r l IH]; simpl; [constructor |].
  inversion rows_keys as [| ? ? Hr Hl]; subst.
  destruct (in_column c r); simpl; auto.
  constructor; auto.
  rewrite in_map_iff. intros [r' [E Hr']]. apply filter_In in Hr'.
  apply Hr. rewrite <- E. apply in_map. tauto.
Qed.

Lemma source_ids_column r : In r rows -> In (task_id r) (source_ids c rows) -> in_column c r = true.
Proof.
  intros Hr Hi.
  apply (Permutation_in _ (Permutation_sym source_ids_perm)) in Hi.
  apply in_map_iff in Hi. destruct Hi as [r' [E Hr']].
  apply filter_In in Hr'. destruct Hr' as [Hr' Hc].
  now rewrite <- (NoDup_map_inj task_id rows r' r rows_keys Hr' Hr E).
Qed.

Lemma renumbered_source :
  contiguous (map task_position (filter (in_column c) (renumber_rows (source_ids c rows) 0 rows))).
Proof.
  rewrite (renumber_rows_spec _ source_ids_NoDup).
  rewrite (filter_map_commute (renumber_row (source_ids c rows) 0) (in_column c) (in_column c)).
  2:{ intros r _. unfold renumber_row, in_column.
      destruct (index_of (task_id r) (source_ids c rows)); reflexivity. }
  rewrite map_map.
  apply contiguous_perm
    with (map (fun k => Z.of_nat k + 1) (seq 0 (List.length (source_ids c rows))));
    [| apply contiguous_range].
  rewrite <- (map_index_seq _ source_ids_NoDup).
  apply Permutation_sym.
  erewrite map_ext_in.
  - rewrite <- (map_map task_id). apply Permutation_map, source_ids_perm.
  - intros r Hr. cbv beta. unfold renumber_row.
    destruct (index_of_in (task_id r) (source_ids c rows)) as [k ->]; [| reflexivity].
    apply (Permutation_in _ source_ids_perm). now apply in_map.
Qed.

Lemma renumbered_other c' :
  c' <> c ->
  filter (fun t => (task_columnId t =? c')%nat) (renumber_rows (source_ids c rows) 0 rows)
  = filter (fun t => (task_columnId t =? c')%nat) rows.
Proof.
  intros Hc. rewrite (renumber_rows_spec _ source_ids_NoDup).
  apply filter_map_fixed.
  - intros r _. unfold renumber_row.
    destruct (index_of (task_id r) (source_ids c rows)); reflexivity.
  - intros r Hr Hc'. unfold renumber_row.
    rewrite index_of_notin; auto.
    intros Hi. apply source_ids_column in Hi; auto.
    unfold in_column in Hi. apply Nat.eqb_eq in Hi, Hc'. congruence.
Qed.

Lemma renumbered_keys :
  map task_id (renumber_rows (source_ids c rows) 0 rows) = map task_id rows.
Proof.
  rewrite (renumber_rows_spec _ source_ids_NoDup), map_map.
  apply map_ext. intros r. unfold renumber_row.
  destruct (index_of (task_id r) (source_ids c rows)); reflexivity.
Qed.

End Renumber.

(** ** The three writes of [moveTask] on the task table *)

Section MoveRows.

Variable input : MoveTaskInput.
Variable rows : list Task.
Variable task : Task.
Hypothesis rows_keys : NoDup (map task_id rows).
Hypothesis task_row : find (fun t => (task_id t =? mt_taskId input)%nat) rows = Some task.

Lemma moved_rows_placed :
  moved_rows input (task_columnId task) rows
  = renumber_rows (source_ids (task_columnId task) (placed input rows)) 0
      (placed input rows).
Proof.
  unfold moved_rows, source_ids, placed, updateWhere. now rewrite !map_map.
Qed.

Lemma place_key r : task_id (place input r) = task_id r.
Proof.
  unfold place.
  destruct (in_column (mt_toColumnId input) r
            && (mt_toPosition input <=? task_position r))%bool; simpl;
    match goal with |- context [if ?b then _ else _] => destruct b end; reflexivity.
Qed.

Lemma placed_keys : map task_id (placed input rows) = map task_id rows.
Proof.
  unfold placed. rewrite map_map. apply map_ext, place_key.
Qed.

Lemma task_in_rows : In task rows /\ task_id task = mt_taskId input.
Proof.
  apply find_some in task_row. now rewrite Nat.eqb_eq in task_row.
Qed.

Lemma the_task r : In r rows -> task_id r = mt_taskId input -> r = task.
Proof.
  intros Hr E. destruct task_in_rows as [Ht Et].
  apply (NoDup_map_inj task_id rows); auto. congruence.
Qed.

Lemma place_moved r :
  task_id r = mt_taskId input ->
  task_columnId (place input r) = mt_toColumnId input
  /\ task_position (place input r) = mt_toPosition input.
Proof.
  intros E. unfold place.
  destruct (in_column (mt_toColumnId input) r
            && (mt_toPosition input <=? task_position r))%bool; simpl;
    rewrite E, Nat.eqb_refl; auto.
Qed.

Lemma place_other r :
  task_id r <> mt_taskId input ->
  task_columnId (place input r) = task_columnId r
  /\ task_position (place input r)
     = if in_column (mt_toColumnId input) r then shift_from (mt_toPosition input) (task_position r)
       else task_position r.
Proof.
  intros E. unfold place, shift_from.
  destruct (in_column (mt_toColumnId input) r); simpl;
    [destruct (mt_toPosition input <=? task_position r); simpl |];
    (destruct (Nat.eqb_spec (task_id r) (mt_taskId input)); [tauto |]); auto.
Qed.

Lemma place_fixed r :
  task_id r <> mt_taskId input -> in_column (mt_toColumnId input) r = false -> place input r = r.
Proof.
  intros E Hc. unfold place. rewrite Hc. simpl.
  destruct (Nat.eqb_spec (task_id r) (mt_taskId input)); tauto.
Qed.

Lemma placed_elsewhere c :
  c <> mt_toColumnId input -> c <> task_columnId task ->
  filter (fun t => (task_columnId t =? c)%nat) (placed input rows)
  = filter (fun t => (task_columnId t =? c)%nat) rows.
Proof.
  intros Hto Hfrom. unfold placed. apply filter_map_fixed.
  - intros r Hr. destruct (Nat.eq_dec (task_id r) (mt_taskId input)) as [E | E].
    + rewrite (proj1 (place_moved r E)), (the_task r Hr E).
      destruct (Nat.eqb_spec (mt_toColumnId input) c),
               (Nat.eqb_spec (task_columnId task) c); congruence.
    + now rewrite (proj1 (place_other r E)).
  - intros r Hr Hc. apply Nat.eqb_eq in Hc.
    destruct (Nat.eq_dec (task_id r) (mt_taskId input)) as [E | E].
    + rewrite (the_task r Hr E) in Hc. congruence.
    + apply place_fixed; auto. unfold in_column. apply Nat.eqb_neq. congruence.
Qed.

Lemma placed_target_rest l :
  (forall r, In r l -> task_id r <> mt_taskId input) ->
  map task_position (filter (in_column (mt_toColumnId input)) (map (place input) l))
  = map (shift_from (mt_toPosition input))
      (map task_position (filter (in_column (mt_toColumnId input)) l)).
Proof.
  induction l as [| x l IH]; simpl; intros H; auto.
  assert (Hx : task_id x <> mt_taskId input) by auto.
  destruct (place_other x Hx) as [Hc Hp].
  unfold in_column at 1. rewrite Hc. fold (in_column (mt_toColumnId input) x).
  destruct (in_column (mt_toColumnId input) x) eqn:E; simpl; rewrite IH; auto. now rewrite Hp.
Qed.

Lemma placed_target_perm l :
  NoDup (map task_id l) -> In task l -> in_column (mt_toColumnId input) task = false ->
  Permutation
    (map task_position (filter (in_column (mt_toColumnId input)) (map (place input) l)))
    (mt_toPosition input
     :: map (shift_from (mt_toPosition input))
          (map task_position (filter (in_column (mt_toColumnId input)) l))).
Proof.
  destruct task_in_rows as [_ Et].
  induction l as [| x l IH]; simpl; [tauto |].
  intros Hnd Hin Hc. inversion Hnd as [| ? ? Hx Hl]; subst.
  destruct (Nat.eq_dec (task_id x) (mt_taskId input)) as [E | E].
  - assert (x = task) as ->.
    { destruct Hin as [-> | Hin]; auto.
      exfalso. apply Hx. rewrite E, <- Et. now apply in_map. }
    destruct (place_moved task E) as [Hpc Hpp].
    unfold in_column at 1. rewrite Hpc, Nat.eqb_refl, Hc. simpl.
    rewrite Hpp, placed_target_rest; auto.
    intros r Hr Er. apply Hx. rewrite E, <- Er. now apply in_map.
  - destruct Hin as [-> | Hin]; [congruence |].
    destruct (place_other x E) as [Hpc Hpp].
    unfold in_column at 1. rewrite Hpc. fold (in_column (mt_toColumnId input) x).
    destruct (in_column (mt_toColumnId input) x) eqn:Ex; simpl; auto.
    rewrite Hpp, IH; auto. apply perm_swap.
Qed.

Lemma placed_target :
  mt_toColumnId input <> task_columnId task ->
  Permutation
    (map task_position (filter (in_column (mt_toColumnId input)) (placed input rows)))
    (mt_toPosition input
     :: map (shift_from (mt_toPosition input))
          (map task_position (filter (in_column (mt_toColumnId input)) rows))).
Proof.
  intros H. apply placed_target_perm; auto.
  - apply task_in_rows.
  - unfold in_column. apply Nat.eqb_neq. congruence.
Qed.

(** Every column is contiguous after the writes when it was before, provided
    the target position is at most the size of the target column plus one. *)
Lemma moved_rows_contiguous c :
  (forall c', contiguous
     (map task_position (filter (fun t => (task_columnId t =? c')%nat) rows))) ->
  1 <= mt_toPosition input
    <= Z.of_nat (List.length (filter (in_column (mt_toColumnId input)) rows)) + 1 ->
  contiguous
    (map task_position
       (filter (fun t => (task_columnId t =? c)%nat)
          (moved_rows input (task_columnId task) rows))).
Proof.
  intros Hrows Hp. rewrite moved_rows_placed.
  assert (Hk : NoDup (map task_id (placed input rows))) by now rewrite placed_keys.
  destruct (Nat.eq_dec c (task_columnId task)) as [-> | Hfrom].
  - now apply renumbered_source.
  - rewrite renumbered_other; auto.
    destruct (Nat.eq_dec c (mt_toColumnId input)) as [-> | Hto].
    + eapply contiguous_perm; [apply Permutation_sym, placed_target; auto |].
      apply contiguous_insert; [apply Hrows |].
      now rewrite length_map.
    + rewrite placed_elsewhere; auto.
Qed.

Lemma moved_rows_keys :
  map task_id (moved_rows input (task_columnId task) rows) = map task_id rows.
Proof.
  rewrite moved_rows_placed, renumbered_keys, placed_keys; auto.
  now rewrite placed_keys.
Qed.

End MoveRows.

(** ** Running the resolvers *)

(** [unfold_store] exposes a resolver as nested case analyses over reads of
    the store; [break_match] and [break_in] then take the cases one by one. *)
Ltac unfold_store :=
  cbv beta iota zeta delta
    [bind ret gets modify throw when unauthenticated forbidden badUserInput notFound
     internalError freshId user_bang requireAuth requireAdmin requireProjectMember
     requireProjectOwnerOrAdmin getProjectIdByColumnId getProjectIdByTaskId
     user_findUnique project_findUnique projectMember_findUnique column_findUnique
     task_findUnique label_findUnique invitation_findUnique column_updateMany
     column_create task_findMany task_findFirst task_updateMany task_create
     task_update activityLog_create projectMember_upsert invitation_create
     invitation_update label_create taskLabel_upsert taskLabel_deleteMany
     comment_create project_create checkAssignee parsePagination respond].

Ltac unfold_store_in H :=
  cbv beta iota zeta delta
    [bind ret gets modify throw when unauthenticated forbidden badUserInput notFound
     internalError freshId user_bang requireAuth requireAdmin requireProjectMember
     requireProjectOwnerOrAdmin getProjectIdByColumnId getProjectIdByTaskId
     user_findUnique project_findUnique projectMember_findUnique column_findUnique
     task_findUnique label_findUnique invitation_findUnique column_updateMany
     column_create task_findMany task_findFirst task_updateMany task_create
     task_update activityLog_create projectMember_upsert invitation_create
     invitation_update label_create taskLabel_upsert taskLabel_deleteMany
     comment_create project_create checkAssignee parsePagination respond] in H.

Ltac break_match :=
  match goal with
  | |- context [match ?x with _ => _ end] =>
      lazymatch x with
      | context [match _ with _ => _ end] => fail
      | _ => destruct x eqn:?
      end
  end.

Lemma find_key_some rows i :
  In i (map task_id rows) ->
  exists t, find (fun r => (task_id r =? i)%nat) rows = Some t.
Proof.
  induction rows as [| x l IH]; simpl; [tauto |].
  intros [E | H].
  - rewrite E, Nat.eqb_refl. eauto.
  - destruct (task_id x =? i)%nat; eauto.
Qed.

Lemma updateWhere_keys p d rows :
  map task_id (updateWhere p (applyUpdate d) rows) = map task_id rows.
Proof.
  unfold updateWhere. rewrite map_map. apply map_ext.
  intros r. destruct (p r); reflexivity.
Qed.

Lemma renumber_run l :
  forall idx s,
    (forall t, In t l -> In (task_id t) (map task_id (tasks s))) ->
    renumber l idx s
    = (Ok tt, set_tasks (renumber_rows (map task_id l) idx (tasks s)) s).
Proof.
  induction l as [| t l IH]; intros idx s H; simpl.
  - destruct s; reflexivity.
  - destruct (find_key_some (tasks s) (task_id t)) as [r Hr]; [apply H; now left |].
    unfold bind at 1. unfold task_update. unfold_store. rewrite Hr. simpl.
    rewrite IH; [reflexivity |].
    intros t' Ht'. simpl. rewrite updateWhere_keys. apply H. now right.
Qed.

Lemma find_shifted p i rows :
  find (fun r => (task_id r =? i)%nat) (updateWhere p shift_task rows)
  = option_map (fun r => if p r then shift_task r else r)
      (find (fun r => (task_id r =? i)%nat) rows).
Proof.
  unfold updateWhere.
  induction rows as [| x l IH]; simpl; auto.
  destruct (p x) eqn:E; simpl; destruct (task_id x =? i)%nat; simpl; auto;
    now rewrite E.
Qed.

Lemma task_update_run i d s t :
  find (fun r => (task_id r =? i)%nat) (tasks s) = Some t ->
  update_accepted s d = true ->
  task_update i d s
  = (Ok (applyUpdate d t),
     set_tasks (updateWhere (fun r => (task_id r =? i)%nat) (applyUpdate d) (tasks s)) s).
Proof.
  intros Hf Ha. unfold task_update. unfold_store. now rewrite Hf, Ha.
Qed.

Lemma column_exists_find s i c :
  find (fun c => (column_id c =? i)%nat) (columns s) = Some c -> column_exists s i = true.
Proof.
  intros H. apply find_some in H. unfold column_exists.
  apply existsb_exists. eauto.
Qed.

Lemma update_accepted_move s v c p :
  column_exists s c = true ->
  update_accepted (set_tasks v s) (setColumnAndPosition c p) = true.
Proof.
  intros H. unfold update_accepted. simpl.
  change (column_exists (set_tasks v s) c) with (column_exists s c).
  now rewrite H.
Qed.

(** As [unfold_store_in], keeping the writes of [moveTask] folded so that they
    can be rewritten with their run lemmas. *)
Ltac unfold_reads_in H :=
  cbv beta iota zeta delta
    [bind ret gets modify throw when unauthenticated forbidden badUserInput notFound
     internalError user_bang requireAuth requireAdmin requireProjectMember
     requireProjectOwnerOrAdmin getProjectIdByColumnId getProjectIdByTaskId
     user_findUnique project_findUnique projectMember_findUnique column_findUnique
     task_findUnique label_findUnique invitation_findUnique column_updateMany
     task_findMany task_findFirst task_updateMany checkAssignee parsePagination respond]
    in H.

Ltac break_read_in H :=
  match type of H with
  | context [match ?x with _ => _ end] =>
      lazymatch x with
      | context [match _ with _ => _ end] => fail
      | context [task_update] => fail
      | context [renumber] => fail
      | context [activityLog_create] => fail
      | _ => destruct x eqn:?
      end
  end.

Ltac break_in H :=
  match type of H with
  | context [match ?x with _ => _ end] =>
      lazymatch x with
      | context [match _ with _ => _ end] => fail
      | _ => destruct x eqn:?
      end
  end.

Ltac done_run H := inversion H; subst; clear H; cbn.

Lemma moveTask_cases ctx input s r s' :
  moveTask ctx input s = (r, s') ->
  (s' = s /\ exists e, r = Err e /\ (e = BAD_USER_INPUT -> mt_toPosition input < 1))
  \/ (exists task u,
        find (fun t => (task_id t =? mt_taskId input)%nat) (tasks s) = Some task
        /\ ctx_user ctx = Some u
        /\ 1 <= mt_toPosition input
        /\ tasks s' = moved_rows input (task_columnId task) (tasks s)
        /\ users s' = users s /\ projects s' = projects s /\ members s' = members s
        /\ columns s' = columns s /\ comments s' = comments s /\ labels s' = labels s
        /\ taskLabels s' = taskLabels s /\ invitations s' = invitations s
        /\ ((exists moved row,
               r = Ok moved
               /\ task_id moved = mt_taskId input
               /\ task_columnId moved = mt_toColumnId input
               /\ task_position moved = mt_toPosition input
               /\ activity s' = activity s ++ [row]
               /\ log_action row = "TASK_MOVED"%string
               /\ log_actorId row = au_id u
               /\ nextId s' = S (nextId s))
            \/ (r = Err INTERNAL_SERVER_ERROR
                /\ activity s' = activity s /\ nextId s' = nextId s))).
Proof.
  intros H. unfold moveTask in H. unfold_reads_in H.
  repeat break_read_in H;
    try (done_run H; left; split; [reflexivity |];
         eexists; split; [reflexivity |]; try discriminate;
         intros _; now apply Z.ltb_lt).
  all: match goal with
  | Hc : find (fun c => (column_id c =? mt_toColumnId _)%nat) _ = Some _ |- _ =>
      pose proof (column_exists_find _ _ _ Hc) as Hcol
  end.
  all: match goal with Hs : Some _ = Some _ |- _ => injection Hs as <- end.
  all: match goal with Hp : (_ <? 1) = false |- _ => apply Z.ltb_ge in Hp end.
  all: match goal with
  | Hf : find _ (tasks _) = Some ?t |- _ =>
    erewrite task_update_run in H;
      [| cbn [tasks set_tasks]; rewrite find_shifted, Hf; reflexivity
       | now apply update_accepted_move ]
  end.
  all: rewrite renumber_run in H;
    [| intros x Hx; apply (Permutation_in _ (orderBy_perm _ _)) in Hx;
       apply filter_In in Hx; now apply in_map ].
  all: unfold activityLog_create in H; unfold_store_in H; repeat break_in H;
    done_run H; right; do 2 eexists;
    repeat (split; [first [eassumption | reflexivity] |]).
  all: match goal with
  | Hf : find _ (tasks _) = Some _ |- _ =>
      pose proof (proj2 (find_some _ _ Hf)) as Hid; apply Nat.eqb_eq in Hid
  end.
  all: first [ left; do 2 eexists; repeat split; solve [reflexivity | exact Hid]
             | right; repeat split; reflexivity ].
Qed.

Lemma moveTask_effect ctx input s r s' :
  moveTask ctx input s = (r, s') ->
  columns s' = columns s /\ projects s' = projects s /\ (nextId s <= nextId s')%nat
  /\ (tasks s' = tasks s
      \/ exists task,
           find (fun t => (task_id t =? mt_taskId input)%nat) (tasks s) = Some task
           /\ 1 <= mt_toPosition input
           /\ tasks s' = moved_rows input (task_columnId task) (tasks s)).
Proof.
  intros H. apply moveTask_cases in H.
  destruct H as [[-> _] | (task & u & Hf & _ & Hp & Ht & _ & Hpr & _ & Hc & _ & _ & _ & _ & Hlog)].
  - auto.
  - repeat split; auto.
    + destruct Hlog as [(m & row & _ & _ & _ & _ & _ & _ & _ & ->) | (_ & _ & ->)]; lia.
    + right. eauto.
Qed.

Lemma createTask_effect ctx input s r s' :
  createTask ctx input s = (r, s') ->
  columns s' = columns s /\ projects s' = projects s /\ (nextId s <= nextId s')%nat
  /\ (tasks s' = tasks s
      \/ exists t,
           tasks s' = tasks s ++ [t]
           /\ task_id t = nextId s /\ (nextId s < nextId s')%nat
           /\ task_columnId t = ct_columnId input
           /\ task_position t = last_position (ct_columnId input) s + 1).
Proof.
  intros H. unfold createTask in H. unfold_store_in H.
  repeat break_in H; done_run H; repeat split; auto; try lia.
  all: right; eexists; repeat split; try reflexivity; cbn; try lia.
  all: unfold last_position;
    match goal with Hh : hd_error _ = _ |- _ => now rewrite Hh end.
Qed.

Lemma createColumn_effect ctx input s r s' :
  createColumn ctx input s = (r, s') ->
  tasks s' = tasks s /\ projects s' = projects s /\ (nextId s <= nextId s')%nat
  /\ (columns s' = columns s
      \/ (project_exists s (cc_projectId input) = false
          /\ columns s' = shifted_columns input (columns s))
      \/ (project_exists s (cc_projectId input) = true
          /\ 1 <= cc_position input
          /\ exists col,
               columns s' = shifted_columns input (columns s) ++ [col]
               /\ column_projectId col = cc_projectId input
               /\ column_position col = cc_position input)).
Proof.
  intros H. unfold createColumn in H. unfold_store_in H.
  repeat break_in H; done_run H; repeat split; auto; try lia.
  all: right; try (left; split; [assumption | reflexivity]).
  all: right; repeat split; auto; try lia; eexists; repeat split; reflexivity.
Qed.

Lemma orderBy_desc_hd l :
  match hd_error (orderBy position_desc l) with
  | None => l = []
  | Some t => In t l /\ forall r, In r l -> task_position r <= task_position t
  end.
Proof.
  induction l as [| x l IH]; simpl; auto.
  destruct (orderBy position_desc l) as [| y ys] eqn:E; simpl in *.
  - subst l. split; auto. intros r [<- | []]. lia.
  - destruct IH as [Hy Hmax]. unfold position_desc at 1.
    destruct (Z.leb_spec (task_position y) (task_position x)); simpl.
    + split; auto. intros r [<- | Hr]; [lia |]. specialize (Hmax r Hr). lia.
    + split; auto. intros r [<- | Hr]; [lia | auto].
Qed.

Lemma last_position_contiguous c s :
  contiguous (task_positions c s) ->
  last_position c s = Z.of_nat (List.length (task_positions c s)).
Proof.
  intros [_ Hin]. unfold last_position, task_positions in *.
  set (l := filter (fun t => (task_columnId t =? c)%nat) (tasks s)) in *.
  pose proof (orderBy_desc_hd l) as Hhd.
  destruct (hd_error (orderBy position_desc l)) as [t |].
  - destruct Hhd as [Ht Hmax].
    assert (H1 : In (task_position t) (map task_position l)) by now apply in_map.
    apply Hin in H1.
    assert (H2 : In (Z.of_nat (List.length (map task_position l))) (map task_position l)).
    { apply Hin. lia. }
    apply in_map_iff in H2. destruct H2 as [r [Er Hr]].
    specialize (Hmax r Hr). lia.
  - now rewrite Hhd.
Qed.

Lemma shifted_column_positions input cols q :
  map column_position
    (filter (fun c => (column_projectId c =? q)%nat) (shifted_columns input cols))
  = if (q =? cc_projectId input)%nat
    then map (shift_from (cc_position input))
           (map column_position (filter (fun c => (column_projectId c =? q)%nat) cols))
    else map column_position (filter (fun c => (column_projectId c =? q)%nat) cols).
Proof.
  unfold shifted_columns, updateWhere, shift_from.
  induction cols as [| x l IH]; simpl.
  - now destruct (q =? cc_projectId input)%nat.
  - destruct (Nat.eqb_spec (column_projectId x) (cc_projectId input)) as [E | E]; simpl.
    + destruct (cc_position input <=? column_position x) eqn:Hp; simpl;
        destruct (Nat.eqb_spec (column_projectId x) q) as [Eq | Eq]; simpl;
        rewrite IH;
        destruct (Nat.eqb_spec q (cc_projectId input)); try congruence;
        simpl; now rewrite ?Hp.
    + destruct (Nat.eqb_spec (column_projectId x) q) as [Eq | Eq]; simpl;
        rewrite IH;
        destruct (Nat.eqb_spec q (cc_projectId input)); congruence.
Qed.

Lemma project_exists_frame s s' p :
  projects s' = projects s -> project_exists s' p = project_exists s p.
Proof. unfold project_exists. now intros ->. Qed.

Lemma snd_respond {A} (wrap : A -> Response) (m : M A) s :
  snd (respond wrap m s) = snd (m s).
Proof.
  unfold respond. destruct (m s) as [[a | e] s']; reflexivity.
Qed.

Lemma Forall_lt_mono n m (l : list nat) :
  (n <= m)%nat -> Forall (fun i => (i < n)%nat) l -> Forall (fun i => (i < m)%nat) l.
Proof.
  intros Hnm. apply Forall_impl. intros; lia.
Qed.

Lemma filter_none {A} (p : A -> bool) l :
  (forall x, In x l -> p x = false) -> filter p l = [].
Proof.
  induction l as [| x l IH]; simpl; intros H; auto.
  rewrite (H x) by auto. auto.
Qed.

Lemma createColumn_valid ctx input s :
  valid s -> in_range s (ReqCreateColumn input) = true ->
  valid (snd (createColumn ctx input s)).
Proof.
  intros [[Hcols Htasks] Hkeys Hfresh Hfk] Hr.
  destruct (createColumn ctx input s) as [r s'] eqn:Hrun. simpl.
  destruct (createColumn_effect _ _ _ _ _ Hrun) as (Ht & Hp & Hn & Hc).
  simpl in Hr. apply Z.leb_le in Hr.
  rewrite Forall_forall in Hfk.
  constructor.
  - split; [| intros c; unfold task_positions; rewrite Ht; apply Htasks].
    intros q. unfold column_positions.
    destruct Hc as [-> | [[Hno ->] | (Hyes & Hpos & col & -> & Hcp & Hcpos)]].
    + apply Hcols.
    + rewrite shifted_column_positions.
      destruct (Nat.eqb_spec q (cc_projectId input)) as [-> | _]; [| apply Hcols].
      rewrite filter_none; [apply contiguous_nil |].
      intros x Hx. apply Nat.eqb_neq. intros E.
      specialize (Hfk x Hx). congruence.
    + rewrite filter_app, map_app, shifted_column_positions. simpl.
      rewrite Hcp, (Nat.eqb_sym (cc_projectId input) q).
      destruct (Nat.eqb_spec q (cc_projectId input)) as [-> | _]; simpl.
      * eapply contiguous_perm; [apply Permutation_cons_append |].
        rewrite Hcpos. apply contiguous_insert; [apply Hcols |].
        unfold column_positions in Hr. lia.
      * rewrite app_nil_r. apply Hcols.
  - now rewrite Ht.
  - rewrite Ht. eapply Forall_lt_mono; eauto.
  - rewrite Forall_forall. intros x Hx.
    rewrite (project_exists_frame s s') by auto.
    destruct Hc as [E | [[Hno E] | (Hyes & Hpos & col & E & Hcp & Hcpos)]];
      rewrite E in Hx.
    + auto.
    + unfold shifted_columns, updateWhere in Hx. apply in_map_iff in Hx.
      destruct Hx as [y [<- Hy]].
      match goal with |- context [if ?b then _ else _] => destruct b end; simpl; auto.
    + apply in_app_or in Hx. destruct Hx as [Hx | [<- | []]]; [| congruence].
      unfold shifted_columns, updateWhere in Hx. apply in_map_iff in Hx.
      destruct Hx as [y [<- Hy]].
      match goal with |- context [if ?b then _ else _] => destruct b end; simpl; auto.
Qed.

Lemma createTask_valid ctx input s :
  valid s -> valid (snd (createTask ctx input s)).
Proof.
  intros [[Hcols Htasks] Hkeys Hfresh Hfk].
  destruct (createTask ctx input s) as [r s'] eqn:Hrun. simpl.
  destruct (createTask_effect _ _ _ _ _ Hrun) as (Hc & Hp & Hn & Ht).
  constructor.
  - split; [intros q; unfold column_positions; rewrite Hc; apply Hcols |].
    intros c. unfold task_positions.
    destruct Ht as [-> | (t & -> & Hid & Hlt & Hcol & Hpos)]; [apply Htasks |].
    rewrite filter_app, map_app. simpl. rewrite Hcol.
    destruct (Nat.eqb_spec (ct_columnId input) c) as [<- | _]; simpl.
    + rewrite Hpos, last_position_contiguous by apply Htasks.
      apply contiguous_snoc, Htasks.
    + rewrite app_nil_r. apply Htasks.
  - destruct Ht as [-> | (t & -> & Hid & Hlt & Hcol & Hpos)]; auto.
    rewrite map_app. simpl. apply NoDup_app; auto.
    + repeat constructor. simpl. tauto.
    + intros i Hi [<- | []]. rewrite Forall_forall in Hfresh.
      specialize (Hfresh _ Hi). lia.
  - destruct Ht as [-> | (t & -> & Hid & Hlt & Hcol & Hpos)].
    + eapply Forall_lt_mono; eauto.
    + rewrite map_app. apply Forall_app. split.
      * apply Forall_lt_mono with (n := nextId s); [lia | auto].
      * repeat constructor. simpl. lia.
  - rewrite Hc. eapply Forall_impl; [| apply Hfk].
    intros x Hx. now rewrite (project_exists_frame s s').
Qed.

Lemma moveTask_valid ctx input s :
  valid s -> in_range s (ReqMoveTask input) = true ->
  valid (snd (moveTask ctx input s)).
Proof.
  intros [[Hcols Htasks] Hkeys Hfresh Hfk] Hr.
  destruct (moveTask ctx input s) as [r s'] eqn:Hrun. simpl.
  destruct (moveTask_effect _ _ _ _ _ Hrun) as (Hc & Hp & Hn & Ht).
  simpl in Hr. apply Z.leb_le in Hr. unfold task_positions in Hr.
  rewrite length_map in Hr.
  constructor.
  - split; [intros q; unfold column_positions; rewrite Hc; apply Hcols |].
    intros c. unfold task_positions.
    destruct Ht as [-> | (task & Hfind & Hpos & ->)]; [apply Htasks |].
    apply moved_rows_contiguous; auto; lia.
  - destruct Ht as [-> | (task & Hfind & Hpos & ->)]; auto.
    now rewrite moved_rows_keys.
  - destruct Ht as [-> | (task & Hfind & Hpos & ->)];
      [| rewrite moved_rows_keys by auto]; eapply Forall_lt_mono; eauto.
  - rewrite Hc. eapply Forall_impl; [| apply Hfk].
    intros x Hx. now rewrite (project_exists_frame s s').
Qed.

(** ** Sequences of ordered-collection operations *)

Lemma resolve_valid ctx req s :
  valid s -> ordered_op req = true -> in_range s req = true ->
  valid (snd (resolve ctx req s)).
Proof.
  intros Hv Hop Hr.
  destruct req; try discriminate Hop; simpl; rewrite snd_respond.
  - now apply createColumn_valid.
  - now apply createTask_valid.
  - now apply moveTask_valid.
Qed.

Lemma run_valid reqs :
  forall s, valid s -> all_in_range s reqs = true -> valid (run s reqs).
Proof.
  induction reqs as [| [ctx req] rest IH]; intros s Hv Hr; simpl in *; auto.
  apply andb_prop in Hr. destruct Hr as [Hr Hrest].
  apply andb_prop in Hr. destruct Hr as [Hop Hr].
  apply IH; auto. now apply resolve_valid.
Qed.

Ltac literal_contiguous :=
  split;
  [ repeat (constructor; [simpl; intuition discriminate |]); constructor
  | intros z; simpl; lia ].

Lemma board_valid : valid board.
Proof.
  constructor.
  - split.
    + intros q. cbv [column_positions board columns filter column_projectId].
      destruct (Nat.eqb_spec 10 q); destruct (Nat.eqb_spec 50 q);
        try (exfalso; lia); simpl; literal_contiguous.
    + intros c.
      cbv [task_positions board tasks filter task_columnId newTask].
      destruct (20 =? c)%nat; simpl; literal_contiguous.
  - simpl. repeat (constructor; [simpl; intuition discriminate |]). constructor.
  - simpl. repeat (constructor; [lia |]). constructor.
  - simpl. repeat (constructor; [reflexivity |]). constructor.
Qed.

(** C1, as amended. From a valid store, any sequence of [createColumn],
    [createTask] and [moveTask] requests, each run on the store the previous
    one left and whatever its outcome, keeps the column positions of every
    project and the task positions of every column equal to [1..count],
    provided each [createColumn] position is at most the project's column count
    plus one and each [moveTask] target position is at most the target column's
    task count plus one when the request is made. *)
Theorem ordered_ops_keep_positions s reqs :
  valid s -> all_in_range s reqs = true -> positions_ok (run s reqs).
Proof.
  intros Hv Hr. apply valid_positions. now apply run_valid.
Qed.

Lemma ordered_ops_keep_positions_witness :
  valid board /\ all_in_range board in_range_requests = true
  /\ positions_ok (run board in_range_requests).
Proof.
  split; [exact board_valid |].
  split; [vm_compute; reflexivity |].
  apply (ordered_ops_keep_positions board in_range_requests);
    [exact board_valid | vm_compute; reflexivity].
Defined.

(** C1 as stated fails: on the valid board with three columns, a successful
    [createColumn] at position 5 leaves the column positions 1, 2, 3, 5. *)
Lemma ordered_ops_gap_counterexample :
  valid board
  /\ forallb (fun cr => ordered_op (snd cr)) column_gap_requests = true
  /\ column_positions 10%nat (run board column_gap_requests) = [1; 2; 3; 5]
  /\ ~ positions_ok (run board column_gap_requests).
Proof.
  split; [exact board_valid |].
  split; [reflexivity |].
  assert (E : column_positions 10%nat (run board column_gap_requests) = [1; 2; 3; 5])
    by (vm_compute; reflexivity).
  split; [exact E |].
  intros [Hc _]. specialize (Hc 10%nat). rewrite E in Hc.
  destruct Hc as [_ Hin]. specialize (Hin 4). simpl in Hin. lia.
Qed.

(** ** Guards and resource resolution *)

Lemma existsb_find_none {A} (f : A -> bool) l :
  existsb f l = false -> find f l = None.
Proof.
  induction l as [| x l IH]; simpl; auto.
  destruct (f x); simpl; [discriminate | auto].
Qed.

Lemma existsb_find_some {A} (f : A -> bool) l :
  existsb f l = true -> exists x, find f l = Some x.
Proof.
  induction l as [| x l IH]; simpl; [discriminate |].
  destruct (f x); simpl; eauto.
Qed.

Lemma find_existsb {A} (f : A -> bool) l x :
  find f l = Some x -> existsb f l = true.
Proof.
  intros H. apply find_some in H. apply existsb_exists. eauto.
Qed.

Lemma requireProjectMember_run ctx projectId s :
  requireProjectMember ctx projectId s
  = (match ctx_user ctx with
     | None => Err UNAUTHENTICATED
     | Some u =>
         if Role_eqb (au_role u) ADMIN then Ok tt
         else if is_member s projectId (au_id u) then Ok tt else Err FORBIDDEN
     end, s).
Proof.
  unfold requireProjectMember, is_member. unfold_store.
  destruct (ctx_user ctx) as [u |]; auto.
  destruct (Role_eqb (au_role u) ADMIN); auto.
  destruct (existsb _ (members s)) eqn:E.
  - apply existsb_find_some in E. destruct E as [m ->]. reflexivity.
  - now rewrite (existsb_find_none _ _ E).
Qed.

Lemma getProjectIdByColumnId_run columnId s :
  getProjectIdByColumnId columnId s
  = (match project_of_column s columnId with
     | Some p => Ok p
     | None => Err NOT_FOUND
     end, s).
Proof.
  unfold getProjectIdByColumnId, project_of_column. unfold_store.
  now destruct (find _ (columns s)).
Qed.

Lemma getProjectIdByTaskId_run taskId s :
  getProjectIdByTaskId taskId s
  = (match find (fun t => (task_id t =? taskId)%nat) (tasks s) with
     | None => Err NOT_FOUND
     | Some t =>
         match project_of_column s (task_columnId t) with
         | Some p => Ok p
         | None => Err INTERNAL_SERVER_ERROR
         end
     end, s).
Proof.
  unfold getProjectIdByTaskId, project_of_column. unfold_store.
  destruct (find _ (tasks s)); auto.
  now destruct (find _ (columns s)).
Qed.

Lemma project_of_task_run taskId s p :
  project_of_task s taskId = Some p ->
  getProjectIdByTaskId taskId s = (Ok p, s).
Proof.
  intros H. rewrite getProjectIdByTaskId_run. unfold project_of_task in H.
  destruct (find _ (tasks s)); [| discriminate]. now rewrite H.
Qed.

Lemma project_of_column_run columnId s p :
  project_of_column s columnId = Some p ->
  getProjectIdByColumnId columnId s = (Ok p, s).
Proof.
  intros H. now rewrite getProjectIdByColumnId_run, H.
Qed.

(** Rewriting a resolver into the outcome of its first call. *)
Lemma bind_run {A B} (m : M A) (f : A -> M B) s a s' :
  m s = (Ok a, s') -> bind m f s = f a s'.
Proof. unfold bind. now intros ->. Qed.

Lemma bind_fail {A B} (m : M A) (f : A -> M B) s e s' :
  m s = (Err e, s') -> bind m f s = (Err e, s').
Proof. unfold bind. now intros ->. Qed.

(** C5. [moveTask] towards a column of another project fails with FORBIDDEN
    for every caller (authenticated or not, member or not) and leaves the whole
    store, hence the task and both columns' position sequences, unchanged. *)
Theorem moveTask_across_projects_forbidden ctx input s p q :
  project_of_task s (mt_taskId input) = Some p ->
  project_of_column s (mt_toColumnId input) = Some q ->
  p <> q ->
  moveTask ctx input s = (Err FORBIDDEN, s).
Proof.
  intros Hp Hq Hne. unfold moveTask.
  rewrite (bind_run _ _ _ _ _ (project_of_task_run _ _ _ Hp)).
  rewrite (bind_run _ _ _ _ _ (project_of_column_run _ _ _ Hq)).
  apply bind_fail. unfold when, forbidden, throw.
  destruct (Nat.eqb_spec p q); [contradiction | reflexivity].
Qed.

Lemma moveTask_across_projects_forbidden_witness :
  project_of_task board 30%nat = Some 10%nat
  /\ project_of_column board 60%nat = Some 50%nat
  /\ 10%nat <> 50%nat
  /\ moveTask as_bob move_a_to_other_project board = (Err FORBIDDEN, board).
Proof.
  split; [reflexivity |]. split; [reflexivity |]. split; [discriminate |].
  apply (moveTask_across_projects_forbidden as_bob move_a_to_other_project
           board 10%nat 50%nat); [reflexivity | reflexivity | discriminate].
Defined.

Lemma respond_fail {A} (wrap : A -> Response) (m : M A) s e s' :
  m s = (Err e, s') -> respond wrap m s = (Err e, s').
Proof. unfold respond. now intros ->. Qed.

Lemma requireAuth_run ctx u s :
  ctx_user ctx = Some u -> requireAuth ctx s = (Ok tt, s).
Proof. unfold requireAuth. now intros ->. Qed.

Lemma gate_closed ctx u projectId s :
  ctx_user ctx = Some u -> au_role u = USER ->
  is_member s projectId (au_id u) = false ->
  requireProjectMember ctx projectId s = (Err FORBIDDEN, s).
Proof.
  intros Hu Hr Hm. now rewrite requireProjectMember_run, Hu, Hr, Hm.
Qed.

Lemma gated_forbidden ctx u req projectId s :
  ctx_user ctx = Some u -> au_role u = USER ->
  gated_project s req = Some projectId ->
  is_member s projectId (au_id u) = false ->
  resolve ctx req s = (Err FORBIDDEN, s).
Proof.
  intros Hu Hr Hg Hm.
  pose proof (gate_closed ctx u projectId s Hu Hr Hm) as Hgate.
  destruct req; simpl in Hg; try discriminate Hg; simpl; apply respond_fail.
  - injection Hg as ->. now apply bind_fail.
  - injection Hg as ->. now apply bind_fail.
  - unfold Query_comments.
    rewrite (bind_run _ _ _ _ _ (project_of_task_run _ _ _ Hg)). now apply bind_fail.
  - injection Hg as ->. now apply bind_fail.
  - unfold createTask.
    rewrite (bind_run _ _ _ _ _ (project_of_column_run _ _ _ Hg)). now apply bind_fail.
  - unfold updateTask.
    rewrite (bind_run _ _ _ _ _ (project_of_task_run _ _ _ Hg)). now apply bind_fail.
  - destruct (project_of_task s (mt_taskId input)) as [p |] eqn:Hp; [| discriminate].
    destruct (project_of_column s (mt_toColumnId input)) as [q |] eqn:Hq; [| discriminate].
    destruct (Nat.eqb_spec p q) as [<- | _]; [| discriminate].
    injection Hg as ->. unfold moveTask.
    rewrite (bind_run _ _ _ _ _ (project_of_task_run _ _ _ Hp)).
    rewrite (bind_run _ _ _ _ _ (project_of_column_run _ _ _ Hq)).
    rewrite Nat.eqb_refl. simpl. unfold bind at 1. simpl. now apply bind_fail.
  - unfold assignTask.
    rewrite (bind_run _ _ _ _ _ (project_of_task_run _ _ _ Hg)). now apply bind_fail.
  - unfold commentTask.
    rewrite (bind_run _ _ _ _ _ (requireAuth_run _ _ _ Hu)).
    rewrite (bind_run _ _ _ _ _ (project_of_task_run _ _ _ Hg)). now apply bind_fail.
  - unfold addLabelToTask.
    rewrite (bind_run _ _ _ _ _ (project_of_task_run _ _ _ Hg)). now apply bind_fail.
  - unfold removeLabelFromTask.
    rewrite (bind_run _ _ _ _ _ (project_of_task_run _ _ _ Hg)). now apply bind_fail.
Qed.

(** C6. For an authenticated caller, [requireProjectMember] passes whenever
    the global role is ADMIN, whatever the membership table holds; for a plain
    USER it passes when a (project, user) membership row exists and fails with
    FORBIDDEN when none does, never touching the store.  Hence every operation
    that reaches this gate answers FORBIDDEN to a non-ADMIN non-member of the
    project its resource resolves to. *)
Theorem membership_gate ctx u projectId s :
  ctx_user ctx = Some u ->
  (au_role u = ADMIN -> requireProjectMember ctx projectId s = (Ok tt, s))
  /\ (au_role u = USER ->
      requireProjectMember ctx projectId s
      = (if is_member s projectId (au_id u) then Ok tt else Err FORBIDDEN, s)
      /\ (fst (requireProjectMember ctx projectId s) = Err FORBIDDEN
          <-> is_member s projectId (au_id u) = false)
      /\ forall req,
           gated_project s req = Some projectId ->
           is_member s projectId (au_id u) = false ->
           resolve ctx req s = (Err FORBIDDEN, s)).
Proof.
  intros Hu. split; intros Hr.
  - now rewrite requireProjectMember_run, Hu, Hr.
  - rewrite requireProjectMember_run, Hu, Hr. simpl.
    split; [reflexivity |]. split.
    + destruct (is_member s projectId (au_id u)); split; congruence.
    + intros req Hg Hm. eapply gated_forbidden; eauto.
Qed.

Lemma membership_gate_witness :
  requireProjectMember as_root 10%nat board = (Ok tt, board)
  /\ requireProjectMember as_bob 10%nat board = (Err FORBIDDEN, board)
  /\ resolve as_bob (ReqAssignTask 30%nat None) board = (Err FORBIDDEN, board).
Proof.
  split.
  - exact (proj1 (membership_gate as_root {| au_id := 2; au_role := ADMIN |} 10%nat board
                    eq_refl) eq_refl).
  - pose proof (proj2 (membership_gate as_bob {| au_id := 3; au_role := USER |} 10%nat board
                         eq_refl) eq_refl) as [Hrun [_ Hops]].
    split; [exact Hrun |].
    apply Hops; reflexivity.
Defined.

(** ** Unknown ids *)

Lemma task_unknown_run taskId s :
  task_exists s taskId = false -> getProjectIdByTaskId taskId s = (Err NOT_FOUND, s).
Proof.
  intros H. rewrite getProjectIdByTaskId_run.
  unfold task_exists in H. now rewrite (existsb_find_none _ _ H).
Qed.

Lemma column_unknown_run columnId s :
  column_exists s columnId = false -> getProjectIdByColumnId columnId s = (Err NOT_FOUND, s).
Proof.
  intros H. rewrite getProjectIdByColumnId_run. unfold project_of_column.
  unfold column_exists in H. now rewrite (existsb_find_none _ _ H).
Qed.

Lemma task_known_run taskId s :
  tasks_fk s -> task_exists s taskId = true ->
  exists p, getProjectIdByTaskId taskId s = (Ok p, s).
Proof.
  intros Hfk H. rewrite getProjectIdByTaskId_run.
  apply existsb_find_some in H. destruct H as [t Ht]. rewrite Ht.
  apply find_some in Ht. destruct Ht as [Hin _].
  unfold tasks_fk in Hfk. rewrite Forall_forall in Hfk. specialize (Hfk t Hin).
  apply existsb_find_some in Hfk. destruct Hfk as [c Hc].
  unfold project_of_column. rewrite Hc. simpl. eauto.
Qed.

Lemma unknown_not_found ctx req s :
  tasks_fk s -> unknown_id s req = true ->
  match req with ReqCommentTask _ => ctx_user ctx <> None | _ => True end ->
  resolve ctx req s = (Err NOT_FOUND, s).
Proof.
  intros Hfk Hun Hauth. unfold unknown_id in Hun.
  destruct req; simpl in Hun; try discriminate Hun; simpl; apply respond_fail;
    rewrite ?orb_false_r in Hun; simpl in Hun; try apply negb_true_iff in Hun.
  - apply bind_fail. now apply task_unknown_run.
  - apply bind_fail. now apply column_unknown_run.
  - apply bind_fail. now apply task_unknown_run.
  - unfold moveTask.
    destruct (task_exists s (mt_taskId input)) eqn:Ht; simpl in Hun.
    + apply negb_true_iff in Hun.
      destruct (task_known_run _ _ Hfk Ht) as [p Hp].
      rewrite (bind_run _ _ _ _ _ Hp). apply bind_fail. now apply column_unknown_run.
    + apply bind_fail. now apply task_unknown_run.
  - apply bind_fail. now apply task_unknown_run.
  - unfold commentTask. destruct (ctx_user ctx) as [u |] eqn:Hu; [| congruence].
    rewrite (bind_run _ _ _ _ _ (requireAuth_run _ _ _ Hu)).
    apply bind_fail. now apply task_unknown_run.
  - apply bind_fail. now apply task_unknown_run.
  - apply bind_fail. now apply task_unknown_run.
Qed.

(** C7, as amended. In a store whose tasks all sit in an existing column, a
    request that carries a [taskId] or [columnId] matching no row fails with
    NOT_FOUND, before the membership gate and leaving the store as it was:
    a non-member receives NOT_FOUND, not FORBIDDEN.  The lookup also precedes
    authentication in every such operation except [commentTask], which calls
    [requireAuth] first: there an unauthenticated caller receives
    UNAUTHENTICATED, whatever the id. *)
Theorem unknown_id_fails_first ctx req s :
  tasks_fk s ->
  (unknown_id s req = true ->
   match req with ReqCommentTask _ => ctx_user ctx <> None | _ => True end ->
   resolve ctx req s = (Err NOT_FOUND, s))
  /\ (forall input,
        ctx_user ctx = None ->
        resolve ctx (ReqCommentTask input) s = (Err UNAUTHENTICATED, s)).
Proof.
  intros Hfk. split.
  - now apply unknown_not_found.
  - intros input Hu. simpl. apply respond_fail. apply bind_fail.
    unfold requireAuth. now rewrite Hu.
Qed.

(** ** The audit trail *)

Ltac run_ok H :=
  unfold_store_in H;
  repeat (break_in H; try discriminate H);
  inversion H; subst; clear H;
  do 2 eexists; repeat split; try eassumption; reflexivity.

Lemma createProject_logged ctx name s r s' :
  createProject ctx name s = (Ok r, s') -> logged ctx "PROJECT_CREATED" s s'.
Proof. intros H. unfold createProject in H. run_ok H. Qed.

Lemma createColumn_logged ctx input s r s' :
  createColumn ctx input s = (Ok r, s') -> logged ctx "COLUMN_CREATED" s s'.
Proof. intros H. unfold createColumn in H. run_ok H. Qed.

Lemma createTask_logged ctx input s r s' :
  createTask ctx input s = (Ok r, s') -> logged ctx "TASK_CREATED" s s'.
Proof. intros H. unfold createTask in H. run_ok H. Qed.

Lemma updateTask_logged ctx taskId input s r s' :
  updateTask ctx taskId input s = (Ok r, s') -> logged ctx "TASK_UPDATED" s s'.
Proof. intros H. unfold updateTask in H. run_ok H. Qed.

Lemma moveTask_logged ctx input s r s' :
  moveTask ctx input s = (Ok r, s') -> logged ctx "TASK_MOVED" s s'.
Proof.
  intros H. apply moveTask_cases in H.
  destruct H as [[_ [e [He _]]]
                | (task & u & _ & Hu & _ & _ & _ & _ & _ & _ & _ & _ & _ & _ & Hlog)];
    [discriminate |].
  destruct Hlog as [(m & row & _ & _ & _ & _ & Ha & Htag & Hactor & _) | [He _]];
    [| discriminate].
  exists u, row. auto.
Qed.

Lemma assignTask_logged ctx taskId assigneeId s r s' :
  assignTask ctx taskId assigneeId s = (Ok r, s') -> logged ctx "TASK_ASSIGNED" s s'.
Proof. intros H. unfold assignTask in H. run_ok H. Qed.

Lemma commentTask_logged ctx input s r s' :
  commentTask ctx input s = (Ok r, s') -> logged ctx "COMMENT_ADDED" s s'.
Proof. intros H. unfold commentTask in H. run_ok H. Qed.

Lemma inviteMember_logged ctx input token s r s' :
  inviteMember ctx input token s = (Ok r, s') -> logged ctx "MEMBER_INVITED" s s'.
Proof. intros H. unfold inviteMember in H. run_ok H. Qed.

Lemma acceptInvite_logged ctx token s r s' :
  acceptInvite ctx token s = (Ok r, s') -> logged ctx "INVITE_ACCEPTED" s s'.
Proof. intros H. unfold acceptInvite in H. run_ok H. Qed.

Lemma createLabel_logged ctx input s r s' :
  createLabel ctx input s = (Ok r, s') -> logged ctx "LABEL_CREATED" s s'.
Proof. intros H. unfold createLabel in H. run_ok H. Qed.

Lemma addLabelToTask_logged ctx taskId labelId s r s' :
  addLabelToTask ctx taskId labelId s = (Ok r, s') -> logged ctx "LABEL_ADDED_TO_TASK" s s'.
Proof. intros H. unfold addLabelToTask in H. run_ok H. Qed.

Lemma removeLabelFromTask_logged ctx taskId labelId s r s' :
  removeLabelFromTask ctx taskId labelId s = (Ok r, s') ->
  logged ctx "LABEL_REMOVED_FROM_TASK" s s'.
Proof. intros H. unfold removeLabelFromTask in H. run_ok H. Qed.

Lemma respond_ok {A} (wrap : A -> Response) (m : M A) s r s' :
  respond wrap m s = (Ok r, s') -> exists a, m s = (Ok a, s').
Proof.
  unfold respond. destruct (m s) as [[a | e] s'']; intros H;
    inversion H; subst; eauto.
Qed.

(** C4, as amended. Every successful mutation that writes project, column or
    task state appends exactly one ActivityLog row, carrying the caller's id
    and the operation's action tag.  The row is appended whether or not the
    call changed anything else. *)
Theorem mutation_appends_one_log_row ctx req tag s r s' :
  action_tag req = Some tag ->
  resolve ctx req s = (Ok r, s') ->
  exists u row,
    ctx_user ctx = Some u
    /\ activity s' = activity s ++ [row]
    /\ log_actorId row = au_id u
    /\ log_action row = tag.
Proof.
  intros Htag H.
  destruct req; simpl in Htag; try discriminate Htag; injection Htag as <-;
    simpl in H; apply respond_ok in H; destruct H as [a H].
  - eapply createProject_logged; eauto.
  - eapply createColumn_logged; eauto.
  - eapply createTask_logged; eauto.
  - eapply updateTask_logged; eauto.
  - eapply moveTask_logged; eauto.
  - eapply assignTask_logged; eauto.
  - eapply commentTask_logged; eauto.
  - eapply inviteMember_logged; eauto.
  - eapply acceptInvite_logged; eauto.
  - eapply createLabel_logged; eauto.
  - eapply addLabelToTask_logged; eauto.
  - eapply removeLabelFromTask_logged; eauto.
Qed.

Lemma mutation_appends_one_log_row_witness :
  exists r s',
    resolve as_alice (ReqAddLabelToTask 30 40) board = (Ok r, s')
    /\ exists u row,
         ctx_user as_alice = Some u
         /\ activity s' = activity board ++ [row]
         /\ log_actorId row = au_id u
         /\ log_action row = "LABEL_ADDED_TO_TASK"%string.
Proof.
  do 2 eexists. split; [vm_compute; reflexivity |].
  eapply (mutation_appends_one_log_row as_alice (ReqAddLabelToTask 30 40));
    [reflexivity | vm_compute; reflexivity].
Defined.

(** C4 as stated fails in its converse: attaching a label that is already
    attached succeeds, changes no project, column, task or label data, and
    still appends an ActivityLog row. *)
Lemma unchanged_state_still_logged_counterexample :
  exists r s',
    resolve as_alice (ReqAddLabelToTask 30 40) labelled_board = (Ok r, s')
    /\ same_data labelled_board s'
    /\ List.length (activity s') = S (List.length (activity labelled_board)).
Proof.
  do 2 eexists. split; [vm_compute; reflexivity |].
  split; [repeat split |]; reflexivity.
Qed.

(** ** Position arguments *)

Lemma createColumn_cases ctx input s r s' :
  createColumn ctx input s = (r, s') ->
  (s' = s /\ exists e, r = Err e
      /\ (e = BAD_USER_INPUT ->
          (String.length (trim (cc_title input)) < 1)%nat \/ cc_position input < 1))
  \/ (1 <= cc_position input /\ r <> Err BAD_USER_INPUT).
Proof.
  intros H. unfold createColumn in H. unfold_store_in H.
  repeat break_in H; inversion H; subst; clear H;
    try (left; split; [reflexivity |]; eexists; split; [reflexivity |];
         try discriminate; intros _;
         first [ left; now apply Nat.ltb_lt | right; now apply Z.ltb_lt ]).
  all: right; split; [now apply Z.ltb_ge | discriminate].
Qed.

Lemma requireProjectOwnerOrAdmin_frame ctx p s :
  snd (requireProjectOwnerOrAdmin ctx p s) = s.
Proof.
  unfold requireProjectOwnerOrAdmin. unfold_store. repeat break_match; reflexivity.
Qed.

Lemma createColumn_below_one ctx input s :
  fst (requireProjectOwnerOrAdmin ctx (cc_projectId input) s) = Ok tt ->
  (1 <= String.length (trim (cc_title input)))%nat ->
  cc_position input < 1 ->
  createColumn ctx input s = (Err BAD_USER_INPUT, s).
Proof.
  intros Hg Ht Hp. unfold createColumn.
  assert (Hrun : requireProjectOwnerOrAdmin ctx (cc_projectId input) s = (Ok tt, s)).
  { pose proof (requireProjectOwnerOrAdmin_frame ctx (cc_projectId input) s) as Hs.
    destruct (requireProjectOwnerOrAdmin ctx (cc_projectId input) s) as [o s0].
    simpl in Hg, Hs. now subst o s0. }
  rewrite (bind_run _ _ _ _ _ Hrun).
  apply Nat.ltb_ge in Ht. rewrite Ht. simpl.
  erewrite bind_run by reflexivity.
  apply Z.ltb_lt in Hp. rewrite Hp. reflexivity.
Qed.

Lemma moveTask_below_one ctx input s p :
  project_of_task s (mt_taskId input) = Some p ->
  project_of_column s (mt_toColumnId input) = Some p ->
  fst (requireProjectMember ctx p s) = Ok tt ->
  mt_toPosition input < 1 ->
  moveTask ctx input s = (Err BAD_USER_INPUT, s).
Proof.
  intros Hp Hq Hg Hpos. unfold moveTask.
  rewrite (bind_run _ _ _ _ _ (project_of_task_run _ _ _ Hp)).
  rewrite (bind_run _ _ _ _ _ (project_of_column_run _ _ _ Hq)).
  rewrite Nat.eqb_refl. simpl. erewrite bind_run by reflexivity.
  assert (Hrun : requireProjectMember ctx p s = (Ok tt, s)).
  { rewrite requireProjectMember_run in *. simpl in Hg. now rewrite Hg. }
  rewrite (bind_run _ _ _ _ _ Hrun).
  apply Z.ltb_lt in Hpos. rewrite Hpos. reflexivity.
Qed.

Lemma createColumn_ok ctx input s col s' :
  createColumn ctx input s = (Ok col, s') ->
  col = {| column_id := nextId s; column_title := trim (cc_title input);
           column_position := cc_position input;
           column_projectId := cc_projectId input |}
  /\ (1 <= String.length (trim (cc_title input)))%nat
  /\ 1 <= cc_position input
  /\ columns s' = shifted_columns input (columns s) ++ [col]
  /\ tasks s' = tasks s.
Proof.
  intros H. unfold createColumn in H. unfold_store_in H.
  repeat (break_in H; try discriminate H).
  all: inversion H; subst; clear H.
  all: split; [reflexivity |].
  all: split;
    [match goal with Hl : (_ <? 1)%nat = false |- _ => now apply Nat.ltb_ge in Hl end |].
  all: split;
    [match goal with Hl : (_ <? 1) = false |- _ => now apply Z.ltb_ge in Hl end |].
  all: split; reflexivity.
Qed.

(** C3, as amended. For a caller who passes the owner gate and gives a
    non-blank title, [createColumn] rejects a position below 1 with
    BAD_USER_INPUT; for a caller who passes the membership gate of a
    same-project move, [moveTask] rejects a target position below 1 with
    BAD_USER_INPUT.  A call of either that ends in BAD_USER_INPUT leaves the
    store as it was.  No upper bound is checked: with a position of at least 1
    (and, for [createColumn], a non-blank title) neither resolver ever answers
    BAD_USER_INPUT.  When such a call succeeds, [createColumn] stores the new
    column with the position given, whatever the number of columns, and
    [moveTask] answers with the position given. *)
Theorem position_lower_bound_only ctx s :
  (forall input,
      fst (requireProjectOwnerOrAdmin ctx (cc_projectId input) s) = Ok tt ->
      (1 <= String.length (trim (cc_title input)))%nat ->
      cc_position input < 1 ->
      createColumn ctx input s = (Err BAD_USER_INPUT, s))
  /\ (forall input p,
        project_of_task s (mt_taskId input) = Some p ->
        project_of_column s (mt_toColumnId input) = Some p ->
        fst (requireProjectMember ctx p s) = Ok tt ->
        mt_toPosition input < 1 ->
        moveTask ctx input s = (Err BAD_USER_INPUT, s))
  /\ (forall input,
        fst (createColumn ctx input s) = Err BAD_USER_INPUT ->
        snd (createColumn ctx input s) = s)
  /\ (forall input,
        fst (moveTask ctx input s) = Err BAD_USER_INPUT ->
        snd (moveTask ctx input s) = s)
  /\ (forall input,
        (1 <= String.length (trim (cc_title input)))%nat ->
        1 <= cc_position input ->
        fst (createColumn ctx input s) <> Err BAD_USER_INPUT)
  /\ (forall input,
        1 <= mt_toPosition input ->
        fst (moveTask ctx input s) <> Err BAD_USER_INPUT)
  /\ (forall input col s',
        createColumn ctx input s = (Ok col, s') ->
        In col (columns s') /\ column_position col = cc_position input)
  /\ (forall input moved s',
        moveTask ctx input s = (Ok moved, s') ->
        task_position moved = mt_toPosition input).
Proof.
  split; [intros; now apply createColumn_below_one |].
  split; [intros; eapply moveTask_below_one; eauto |].
  split; [| split; [| split; [| split; [| split]]]].
  - intros input H. destruct (createColumn ctx input s) as [r s'] eqn:E.
    simpl in *. subst r. apply createColumn_cases in E.
    destruct E as [[-> _] | [_ Hne]]; [reflexivity | congruence].
  - intros input H. destruct (moveTask ctx input s) as [r s'] eqn:E.
    simpl in *. subst r. apply moveTask_cases in E.
    destruct E as [[-> _] | (t & u & _ & _ & _ & _ & _ & _ & _ & _ & _ & _ & _ & _ & Hl)];
      [reflexivity |].
    destruct Hl as [(m & row & Hm & _) | [Hm _]]; discriminate.
  - intros input Ht Hp H. destruct (createColumn ctx input s) as [r s'] eqn:E.
    simpl in *. subst r. apply createColumn_cases in E.
    destruct E as [[_ [e [He Hb]]] | [_ Hne]]; [| congruence].
    injection He as <-. destruct Hb; [reflexivity | lia | lia].
  - intros input Hp H. destruct (moveTask ctx input s) as [r s'] eqn:E.
    simpl in *. subst r. apply moveTask_cases in E.
    destruct E as [[_ [e [He Hb]]] | (t & u & _ & _ & _ & _ & _ & _ & _ & _ & _ & _ & _ & _ & Hl)].
    + injection He as <-. specialize (Hb eq_refl). lia.
    + destruct Hl as [(m & row & Hm & _) | [Hm _]]; discriminate.
  - intros input col s' H. apply createColumn_ok in H.
    destruct H as (-> & _ & _ & Hc & _). split; [| reflexivity].
    rewrite Hc. apply in_or_app. right. now left.
  - intros input moved s' H. apply moveTask_cases in H.
    destruct H as [[_ [e [He _]]] | (t & u & _ & _ & _ & _ & _ & _ & _ & _ & _ & _ & _ & _ & Hl)];
      [discriminate |].
    destruct Hl as [(m & row & Hm & _ & _ & Hpos & _) | [Hm _]]; [| discriminate].
    now injection Hm as <-.
Qed.

(** ** Invitations *)

Lemma acceptInvite_cases ctx token s r s' :
  acceptInvite ctx token s = (Ok r, s') ->
  exists u invite,
    ctx_user ctx = Some u
    /\ find (fun i => String.eqb (inv_token i) token) (invitations s) = Some invite
    /\ inv_status invite = PENDING
    /\ invitations s' = accepted token (invitations s)
    /\ users s' = users s /\ projects s' = projects s /\ columns s' = columns s
    /\ tasks s' = tasks s /\ comments s' = comments s /\ labels s' = labels s
    /\ taskLabels s' = taskLabels s
    /\ (exists row, activity s' = activity s ++ [row]
                    /\ log_action row = "INVITE_ACCEPTED"%string
                    /\ log_actorId row = au_id u)
    /\ ((find (is_member_row (inv_projectId invite) (au_id u)) (members s) = Some r
         /\ members s' = members s)
        \/ (find (is_member_row (inv_projectId invite) (au_id u)) (members s) = None
            /\ members s' = members s ++ [r]
            /\ member_key r = (inv_projectId invite, au_id u)
            /\ pm_projectRole r = MEMBER)).
Proof.
  intros H. unfold acceptInvite in H. unfold_store_in H.
  repeat (break_in H; try discriminate H).
  all: inversion H; subst; clear H.
  all: match goal with
       | Hs : negb (InvitationStatus_eqb (inv_status ?i) PENDING) = false |- _ =>
           assert (Hst : inv_status i = PENDING)
             by (destruct (inv_status i); simpl in Hs; congruence)
       end.
  all: do 2 eexists; repeat (split; [first [eassumption | reflexivity] |]).
  all: split; [eexists; repeat split; reflexivity |].
  all: first [ left; split; [eassumption | reflexivity]
             | right; repeat split; first [eassumption | reflexivity] ].
Qed.

Lemma acceptInvite_not_pending ctx u token s invite :
  ctx_user ctx = Some u ->
  find (fun i => String.eqb (inv_token i) token) (invitations s) = Some invite ->
  inv_status invite <> PENDING ->
  acceptInvite ctx token s = (Err BAD_USER_INPUT, s).
Proof.
  intros Hu Hf Hst. unfold acceptInvite.
  rewrite (bind_run _ _ _ _ _ (requireAuth_run _ _ _ Hu)).
  unfold invitation_findUnique. erewrite bind_run by reflexivity. rewrite Hf.
  apply bind_fail.
  destruct (inv_status invite); try reflexivity. congruence.
Qed.

Lemma find_accepted token rows invite :
  find (fun i => String.eqb (inv_token i) token) rows = Some invite ->
  find (fun i => String.eqb (inv_token i) token) (accepted token rows)
  = Some (set_status ACCEPTED invite).
Proof.
  unfold accepted, updateWhere.
  induction rows as [| x l IH]; simpl; [discriminate |].
  destruct (String.eqb (inv_token x) token) eqn:E; simpl.
  - rewrite E. now intros [= ->].
  - rewrite E. auto.
Qed.

Lemma count_of_find s p u m :
  members_unique s ->
  find (is_member_row p u) (members s) = Some m ->
  membership_count s p u = 1%nat.
Proof.
  unfold members_unique, membership_count.
  induction (members s) as [| x l IH]; simpl; [discriminate |].
  intros Hnd Hf. inversion Hnd as [| ? ? Hx Hl]; subst.
  destruct (is_member_row p u x) eqn:E; simpl.
  - f_equal. rewrite filter_none; auto.
    intros y Hy. destruct (is_member_row p u y) eqn:Ey; auto.
    exfalso. apply Hx. unfold is_member_row in E, Ey.
    apply andb_prop in E, Ey. destruct E as [E1 E2], Ey as [Ey1 Ey2].
    apply Nat.eqb_eq in E1, E2, Ey1, Ey2.
    replace (member_key x) with (member_key y)
      by (unfold member_key; congruence).
    now apply in_map.
  - auto.
Qed.

Lemma count_of_none s p u :
  find (is_member_row p u) (members s) = None ->
  filter (is_member_row p u) (members s) = [].
Proof.
  intros H. apply filter_none. intros x Hx.
  destruct (is_member_row p u x) eqn:E; auto.
  now rewrite (find_none _ _ H x Hx) in E.
Qed.

Lemma member_key_row p u m :
  member_key m = (p, u) -> is_member_row p u m = true.
Proof.
  unfold member_key, is_member_row. intros [= -> ->].
  now rewrite !Nat.eqb_refl.
Qed.

(** C8. For an authenticated caller and a membership table that respects its
    unique (project, user) index: after a successful [acceptInvite], exactly
    one membership row exists for the invitation's project and the caller, and
    any further [acceptInvite] of the same token fails with BAD_USER_INPUT and
    leaves the store as it was; and [acceptInvite] of an invitation whose
    status is ACCEPTED or REVOKED fails with BAD_USER_INPUT and leaves the
    store as it was. *)
Theorem acceptInvite_only_once ctx u token s :
  ctx_user ctx = Some u ->
  members_unique s ->
  (forall r s1,
      acceptInvite ctx token s = (Ok r, s1) ->
      exists invite,
        find (fun i => String.eqb (inv_token i) token) (invitations s) = Some invite
        /\ membership_count s1 (inv_projectId invite) (au_id u) = 1%nat
        /\ members_unique s1
        /\ forall ctx', ctx_user ctx' <> None ->
             acceptInvite ctx' token s1 = (Err BAD_USER_INPUT, s1))
  /\ (forall invite,
        find (fun i => String.eqb (inv_token i) token) (invitations s) = Some invite ->
        inv_status invite = ACCEPTED \/ inv_status invite = REVOKED ->
        acceptInvite ctx token s = (Err BAD_USER_INPUT, s)).
Proof.
  intros Hu Huniq. split.
  - intros r s1 H. apply acceptInvite_cases in H.
    destruct H as (u' & invite & Hu' & Hf & Hst & Hinv & _ & _ & _ & _ & _ & _ & _ & _ & Hm).
    rewrite Hu in Hu'. injection Hu' as <-.
    exists invite. split; [exact Hf |].
    assert (Hcount : membership_count s1 (inv_projectId invite) (au_id u) = 1%nat
                     /\ members_unique s1).
    { destruct Hm as [[Hfound Hsame] | (Hnone & Hadd & Hkey & _)].
      - unfold membership_count, members_unique. rewrite Hsame.
        split; [eapply count_of_find; eauto | exact Huniq].
      - unfold membership_count, members_unique. rewrite Hadd.
        rewrite filter_app, (count_of_none _ _ _ Hnone), map_app. simpl.
        rewrite (member_key_row _ _ _ Hkey). split; [reflexivity |].
        apply NoDup_app;
          [exact Huniq | apply NoDup_cons; [simpl; tauto | constructor] |].
        intros k Hk [<- | []]. apply in_map_iff in Hk.
        destruct Hk as [m [Em Hmem]].
        pose proof (find_none _ _ Hnone m Hmem) as Hrow.
        rewrite Hkey in Em. now rewrite (member_key_row _ _ _ Em) in Hrow. }
    destruct Hcount as [Hc Hu1]. split; [exact Hc |]. split; [exact Hu1 |].
    intros ctx' Hauth. destruct (ctx_user ctx') as [u' |] eqn:Hu'; [| congruence].
    apply acceptInvite_not_pending with (u := u') (invite := set_status ACCEPTED invite).
    + exact Hu'.
    + rewrite Hinv. now apply find_accepted.
    + discriminate.
  - intros invite Hf Hst. eapply acceptInvite_not_pending; eauto.
    destruct Hst as [-> | ->]; discriminate.
Qed.

(** C9. When the caller of a successful [acceptInvite] already has a
    membership row in the invitation's project, that row is returned and the
    membership table is left exactly as it was (the role of an OWNER stays
    OWNER); the invitation table differs only by the status ACCEPTED written
    on the token's row, one INVITE_ACCEPTED audit row is appended, and every
    other table is unchanged. *)
Theorem acceptInvite_keeps_existing_member ctx u token s r s1 invite m :
  ctx_user ctx = Some u ->
  acceptInvite ctx token s = (Ok r, s1) ->
  find (fun i => String.eqb (inv_token i) token) (invitations s) = Some invite ->
  find (is_member_row (inv_projectId invite) (au_id u)) (members s) = Some m ->
  r = m
  /\ members s1 = members s
  /\ invitations s1 = accepted token (invitations s)
  /\ (exists row, activity s1 = activity s ++ [row]
                  /\ log_action row = "INVITE_ACCEPTED"%string
                  /\ log_actorId row = au_id u)
  /\ users s1 = users s /\ projects s1 = projects s /\ columns s1 = columns s
  /\ tasks s1 = tasks s /\ comments s1 = comments s /\ labels s1 = labels s
  /\ taskLabels s1 = taskLabels s.
Proof.
  intros Hu H Hf Hm. apply acceptInvite_cases in H.
  destruct H as (u' & invite' & Hu' & Hf' & _ & Hinv & Hus & Hp & Hc & Ht & Hcm & Hl
                 & Htl & Hlog & Hmem).
  rewrite Hu in Hu'. injection Hu' as <-.
  rewrite Hf in Hf'. injection Hf' as <-.
  destruct Hmem as [[Hfound Hsame] | [Hnone _]]; [| congruence].
  rewrite Hm in Hfound. injection Hfound as ->.
  repeat split; auto.
Qed.

(** ** Labels *)

Lemma activityLog_create_run action actorId projectId taskId details s :
  user_exists s actorId = true -> project_exists s projectId = true ->
  opt_exists task_exists s taskId = true ->
  exists row,
    activityLog_create action actorId projectId taskId details s
    = (Ok row, set_activity (activity s ++ [row]) (set_nextId (S (nextId s)) s)).
Proof.
  intros Hu Hp Ht. unfold activityLog_create. unfold_store.
  rewrite Hu, Hp, Ht. simpl. eauto.
Qed.

Lemma taskLabel_upsert_run taskId labelId s :
  task_exists s taskId = true -> label_exists s labelId = true ->
  exists l s',
    taskLabel_upsert taskId labelId s = (Ok l, s')
    /\ users s' = users s /\ projects s' = projects s /\ members s' = members s
    /\ columns s' = columns s /\ tasks s' = tasks s /\ labels s' = labels s
    /\ linked s' taskId labelId = true
    /\ (linked s taskId labelId = true -> s' = s).
Proof.
  intros Ht Hl. unfold taskLabel_upsert, linked. unfold_store.
  destruct (find (is_link taskId labelId) (taskLabels s)) as [l |] eqn:E.
  - do 2 eexists. split; [reflexivity |]. repeat split; auto.
    eapply find_existsb; eauto.
  - rewrite Ht, Hl. simpl. do 2 eexists. split; [reflexivity |].
    repeat split; simpl; auto.
    + rewrite existsb_app. simpl. unfold is_link at 2. simpl.
      rewrite !Nat.eqb_refl. simpl. apply orb_true_r.
    + intros Hex. apply existsb_find_some in Hex. destruct Hex as [x Hx]. congruence.
Qed.

Lemma addLabelToTask_run ctx u p label taskId labelId s :
  can_label ctx u p label taskId labelId s ->
  exists task s',
    addLabelToTask ctx taskId labelId s = (Ok task, s')
    /\ task_id task = taskId
    /\ can_label ctx u p label taskId labelId s'
    /\ labels s' = labels s
    /\ linked s' taskId labelId = true
    /\ (linked s taskId labelId = true -> taskLabels s' = taskLabels s).
Proof.
  intros (Hu & Hacc & Hgate & Htask & Hproj & Hlabel & Hsame).
  assert (Hfind : exists task, find (fun t => (task_id t =? taskId)%nat) (tasks s) = Some task).
  { unfold project_of_task in Htask. destruct (find _ (tasks s)); [eauto | discriminate]. }
  destruct Hfind as [task Hfind].
  assert (Hgate' : requireProjectMember ctx p s = (Ok tt, s)).
  { rewrite requireProjectMember_run, Hu.
    destruct Hgate as [-> | ->]; [reflexivity |]. now destruct (Role_eqb _ _). }
  destruct (taskLabel_upsert_run taskId labelId s)
    as (l & s1 & Hup & Hus & Hps & Hms & Hcs & Hts & Hls & Hlinked & Hsame1).
  { eapply find_existsb; eauto. }
  { eapply find_existsb; eauto. }
  destruct (activityLog_create_run "LABEL_ADDED_TO_TASK" (au_id u) p (Some taskId)
              (JObject [("labelId"%string, JRef labelId)]) s1) as [row Hlog].
  { unfold user_exists. now rewrite Hus. }
  { unfold project_exists. now rewrite Hps. }
  { simpl. unfold task_exists. rewrite Hts. eapply find_existsb; eauto. }
  exists task. eexists. split.
  - unfold addLabelToTask.
    rewrite (bind_run _ _ _ _ _ (project_of_task_run _ _ _ Htask)).
    rewrite (bind_run _ _ _ _ _ Hgate').
    unfold label_findUnique. erewrite bind_run by reflexivity. rewrite Hlabel.
    rewrite Hsame, Nat.eqb_refl. simpl. erewrite bind_run by reflexivity.
    rewrite (bind_run _ _ _ _ _ Hup).
    unfold user_bang. rewrite Hu. erewrite bind_run by reflexivity.
    rewrite (bind_run _ _ _ _ _ Hlog).
    unfold task_findUnique. erewrite bind_run by reflexivity.
    simpl. rewrite Hts, Hfind. reflexivity.
  - apply find_some in Hfind as Hid. destruct Hid as [_ Hid]. apply Nat.eqb_eq in Hid.
    split; [exact Hid |]. split; [| split; [exact Hls | split; [exact Hlinked |]]].
    + unfold can_label. repeat split; auto.
      * unfold user_exists. simpl. now rewrite Hus.
      * destruct Hgate as [Hadm | Hmem]; [now left | right].
        unfold is_member. simpl. now rewrite Hms.
      * unfold project_of_task, project_of_column. simpl. now rewrite Hts, Hcs.
      * unfold project_exists. simpl. now rewrite Hps.
      * simpl. now rewrite Hls.
    + intros Hl. simpl. now rewrite (Hsame1 Hl).
Qed.

Lemma Task_labels_ext t t' s s' :
  task_id t = task_id t' -> taskLabels s = taskLabels s' -> labels s = labels s' ->
  fst (Task_labels t s) = fst (Task_labels t' s').
Proof.
  intros Ht Hl Hb. unfold Task_labels, bind, gets, ret. rewrite Ht, Hl.
  destruct (List.length _ =? 0)%nat; simpl; [reflexivity | now rewrite Hb].
Qed.

(** C10. For a caller allowed to label the task (authenticated, with an
    existing account, ADMIN or member of the task's project) and a label of
    the task's project, [addLabelToTask] succeeds twice in a row, and after
    the second call the link table, and so the labels [Task.labels] resolves
    for the task, are what they were after the first. *)
Theorem addLabelToTask_idempotent ctx u p label taskId labelId s :
  can_label ctx u p label taskId labelId s ->
  exists t1 s1 t2 s2,
    addLabelToTask ctx taskId labelId s = (Ok t1, s1)
    /\ addLabelToTask ctx taskId labelId s1 = (Ok t2, s2)
    /\ taskLabels s2 = taskLabels s1
    /\ fst (Task_labels t2 s2) = fst (Task_labels t1 s1)
    /\ linked s1 taskId labelId = true.
Proof.
  intros Hcan.
  destruct (addLabelToTask_run _ _ _ _ _ _ _ Hcan)
    as (t1 & s1 & Hrun1 & Hid1 & Hcan1 & _ & Hlinked & _).
  destruct (addLabelToTask_run _ _ _ _ _ _ _ Hcan1)
    as (t2 & s2 & Hrun2 & Hid2 & _ & Hlabels & _ & Hsame).
  exists t1, s1, t2, s2. repeat split; auto.
  apply Task_labels_ext; auto. congruence.
Qed.

Lemma addLabelToTask_idempotent_witness :
  can_label as_alice {| au_id := 1; au_role := USER |} 10 bug_label 30 40 board
  /\ exists t1 s1 t2 s2,
       addLabelToTask as_alice 30 40 board = (Ok t1, s1)
       /\ addLabelToTask as_alice 30 40 s1 = (Ok t2, s2)
       /\ taskLabels s2 = taskLabels s1
       /\ fst (Task_labels t2 s2) = fst (Task_labels t1 s1)
       /\ linked s1 30 40 = true.
Proof.
  assert (H : can_label as_alice {| au_id := 1; au_role := USER |} 10 bug_label 30 40 board).
  { unfold can_label. repeat split; try reflexivity. right. reflexivity. }
  split; [exact H |].
  exact (addLabelToTask_idempotent as_alice _ 10 bug_label 30 40 board H).
Defined.

(** ** Moving a task inside its column *)

Lemma below_perm p l l' : Permutation l l' -> below p l = below p l'.
Proof.
  unfold below. induction 1; simpl; auto.
  - destruct (task_position x <? p); simpl; auto.
  - destruct (task_position x <? p), (task_position y <? p); simpl; auto.
  - congruence.
Qed.

Lemma below_app p l l' : below p (l ++ l') = (below p l + below p l')%nat.
Proof. unfold below. now rewrite filter_app, length_app. Qed.

Lemma insertBy_sorted x l :
  StronglySorted (fun a b => task_position a <= task_position b) l ->
  StronglySorted (fun a b => task_position a <= task_position b)
    (insertBy position_asc x l).
Proof.
  induction 1 as [| y l Hl IH Hy]; simpl.
  - repeat constructor.
  - unfold position_asc at 1. destruct (Z.leb_spec (task_position x) (task_position y)).
    + constructor; [constructor; auto |].
      constructor; auto. eapply Forall_impl; [| exact Hy]. simpl. intros; lia.
    + constructor; auto.
      rewrite Forall_forall. intros z Hz.
      apply (Permutation_in _ (insertBy_perm _ _ _)) in Hz.
      destruct Hz as [<- | Hz]; [lia |].
      rewrite Forall_forall in Hy. auto.
Qed.

Lemma orderBy_sorted l :
  StronglySorted (fun a b => task_position a <= task_position b)
    (orderBy position_asc l).
Proof.
  induction l as [| x l IH]; simpl; [constructor | now apply insertBy_sorted].
Qed.

(** In a list sorted by position whose positions are pairwise distinct, the
    index of a row is the number of rows with a smaller position. *)
Lemma sorted_index l :
  StronglySorted (fun a b => task_position a <= task_position b) l ->
  NoDup (map task_position l) ->
  NoDup (map task_id l) ->
  forall x, In x l ->
    index_of (task_id x) (map task_id l) = Some (below (task_position x) l).
Proof.
  induction 1 as [| y l Hl IH Hy]; simpl; [tauto |].
  intros Hpos Hids x Hx.
  inversion Hpos as [| ? ? Hyp Hlp]; subst.
  inversion Hids as [| ? ? Hyi Hli]; subst.
  unfold below. simpl. fold (below (task_position x) l).
  destruct Hx as [-> | Hx].
  - rewrite Nat.eqb_refl, Z.ltb_irrefl. f_equal. unfold below.
    rewrite filter_none; [reflexivity |].
    intros z Hz. rewrite Forall_forall in Hy. specialize (Hy z Hz).
    apply Z.ltb_ge. lia.
  - destruct (Nat.eqb_spec (task_id y) (task_id x)) as [E | _].
    + exfalso. apply Hyi. rewrite E. now apply in_map.
    + rewrite (IH Hlp Hli x Hx). simpl.
      rewrite Forall_forall in Hy. specialize (Hy x Hx).
      assert (task_position y <> task_position x).
      { intros E. apply Hyp. rewrite E. now apply in_map. }
      destruct (Z.ltb_spec (task_position y) (task_position x)); [reflexivity | lia].
Qed.

(** The number of values below [p] in a contiguous list. *)
Lemma contiguous_below ps p :
  contiguous ps -> 1 <= p <= Z.of_nat (List.length ps) + 1 ->
  Z.of_nat (List.length (filter (fun z => z <? p) ps)) = p - 1.
Proof.
  intros [Hnd Hin] Hp.
  assert (Hperm : Permutation (filter (fun z => z <? p) ps)
                    (map (fun k => Z.of_nat k + 1) (seq 0 (Z.to_nat (p - 1))))).
  { apply NoDup_Permutation.
    - now apply NoDup_filter.
    - apply Injective_map_NoDup; [intros a b; lia | apply seq_NoDup].
    - intros z. rewrite filter_In, in_range_seq, Hin, Z.ltb_lt. lia. }
  rewrite (Permutation_length Hperm), length_map, length_seq. lia.
Qed.

Lemma find_map_key (g : Task -> Task) i rows :
  (forall r, task_id (g r) = task_id r) ->
  find (fun r => (task_id r =? i)%nat) (map g rows)
  = option_map g (find (fun r => (task_id r =? i)%nat) rows).
Proof.
  intros Hg. induction rows as [| x l IH]; simpl; auto.
  rewrite Hg. destruct (task_id x =? i)%nat; auto.
Qed.

Lemma NoDup_map_rows {A B} (f : A -> B) l : NoDup (map f l) -> NoDup l.
Proof.
  induction l as [| x l IH]; simpl; intros H; [constructor |].
  inversion H as [| ? ? Hx Hl]; subst. constructor; auto.
  intros Hin. apply Hx. now apply in_map.
Qed.

Lemma NoDup_filter_keys (p : Task -> bool) rows :
  NoDup (map task_id rows) -> NoDup (map task_id (filter p rows)).
Proof.
  induction rows as [| x l IH]; simpl; intros H; [constructor |].
  inversion H as [| ? ? Hx Hl]; subst.
  destruct (p x); simpl; auto. constructor; auto.
  rewrite in_map_iff. intros [y [E Hy]]. apply filter_In in Hy.
  apply Hx. rewrite <- E. apply in_map. tauto.
Qed.

Lemma count_without (q : Task -> bool) t l :
  NoDup (map task_id l) -> In t l ->
  (List.length (filter (fun r => negb (task_id r =? task_id t)%nat && q r) l)
   + (if q t then 1 else 0)
   = List.length (filter q l))%nat.
Proof.
  induction l as [| x l IH]; simpl; [tauto |].
  intros Hnd Hin. inversion Hnd as [| ? ? Hx Hl]; subst.
  destruct (Nat.eqb_spec (task_id x) (task_id t)) as [E | E]; simpl.
  - assert (x = t) as ->.
    { destruct Hin as [-> | Hin]; auto.
      exfalso. apply Hx. rewrite E. now apply in_map. }
    assert (Hrest : filter (fun r => negb (task_id r =? task_id t)%nat && q r) l
                    = filter q l).
    { apply filter_ext_in. intros r Hr.
      destruct (Nat.eqb_spec (task_id r) (task_id t)) as [Er | _]; auto.
      exfalso. apply Hx. rewrite <- Er. now apply in_map. }
    rewrite Hrest. destruct (q t); simpl; lia.
  - destruct Hin as [-> | Hin]; [congruence |].
    specialize (IH Hl Hin). destruct (q x); simpl; lia.
Qed.

Section SameColumn.

Variable input : MoveTaskInput.
Variable rows : list Task.
Variable task : Task.
Hypothesis rows_keys : NoDup (map task_id rows).
Hypothesis task_row : find (fun t => (task_id t =? mt_taskId input)%nat) rows = Some task.
Hypothesis same_column : task_columnId task = mt_toColumnId input.
Hypothesis column_ok :
  contiguous (map task_position (filter (in_column (mt_toColumnId input)) rows)).
Hypothesis in_bounds :
  1 <= mt_toPosition input
    <= Z.of_nat (List.length (filter (in_column (mt_toColumnId input)) rows)) + 1.

Lemma same_column_placed :
  filter (in_column (mt_toColumnId input)) (placed input rows)
  = map (place input) (filter (in_column (mt_toColumnId input)) rows).
Proof.
  unfold placed. apply filter_map_commute. intros r Hr.
  destruct (Nat.eq_dec (task_id r) (mt_taskId input)) as [E | E].
  - unfold in_column. rewrite (proj1 (place_moved input r E)), Nat.eqb_refl.
    rewrite (the_task input rows task rows_keys task_row r Hr E), same_column.
    now rewrite Nat.eqb_refl.
  - unfold in_column. now rewrite (proj1 (place_other input r E)).
Qed.

Lemma placed_position r :
  in_column (mt_toColumnId input) r = true ->
  task_position (place input r)
  = if (task_id r =? mt_taskId input)%nat then mt_toPosition input
    else shift_from (mt_toPosition input) (task_position r).
Proof.
  intros Hc. destruct (Nat.eqb_spec (task_id r) (mt_taskId input)) as [E | E].
  - apply (place_moved input r E).
  - rewrite (proj2 (place_other input r E)). now rewrite Hc.
Qed.

Lemma same_column_distinct :
  NoDup (map task_position
           (filter (in_column (mt_toColumnId input)) (placed input rows))).
Proof.
  rewrite same_column_placed, map_map.
  apply Injective_map_NoDup_in.
  - intros a b Ha Hb. apply filter_In in Ha, Hb.
    destruct Ha as [Ha Hca], Hb as [Hb Hcb].
    rewrite !placed_position by auto.
    destruct (Nat.eqb_spec (task_id a) (mt_taskId input)) as [Ea | Ea],
             (Nat.eqb_spec (task_id b) (mt_taskId input)) as [Eb | Eb].
    + intros _. apply (NoDup_map_inj task_id rows); auto. congruence.
    + unfold shift_from. destruct (Z.leb_spec (mt_toPosition input) (task_position b)); lia.
    + unfold shift_from. destruct (Z.leb_spec (mt_toPosition input) (task_position a)); lia.
    + intros E.
      assert (task_position a = task_position b).
      { unfold shift_from in E.
        destruct (Z.leb_spec (mt_toPosition input) (task_position a)),
                 (Z.leb_spec (mt_toPosition input) (task_position b)); lia. }
      apply (NoDup_map_inj task_position
               (filter (in_column (mt_toColumnId input)) rows)); auto.
      * apply column_ok.
      * apply filter_In; auto.
      * apply filter_In; auto.
  - eapply NoDup_map_rows, NoDup_filter_keys, rows_keys.
Qed.

(** Rows of the column that sit below the target position once placed. *)
Lemma same_column_below :
  Z.of_nat (below (mt_toPosition input)
              (filter (in_column (mt_toColumnId input)) (placed input rows)))
  = if task_position task <? mt_toPosition input
    then mt_toPosition input - 2 else mt_toPosition input - 1.
Proof.
  destruct (task_in_rows input rows task task_row) as [Hin Hid].
  assert (Hcol : In task (filter (in_column (mt_toColumnId input)) rows)).
  { apply filter_In. split; auto. unfold in_column. now rewrite same_column, Nat.eqb_refl. }
  unfold below. rewrite same_column_placed.
  rewrite (filter_map_commute (place input)
             (fun r => task_position r <? mt_toPosition input)
             (fun r => negb (task_id r =? task_id task)%nat
                       && (task_position r <? mt_toPosition input))%bool).
  2:{ intros r Hr. apply filter_In in Hr. destruct Hr as [_ Hc].
      rewrite (placed_position r Hc), Hid.
      destruct (Nat.eqb_spec (task_id r) (mt_taskId input)); simpl.
      - apply Z.ltb_irrefl.
      - unfold shift_from.
        destruct (Z.leb_spec (mt_toPosition input) (task_position r));
          destruct (Z.ltb_spec (task_position r + 1) (mt_toPosition input));
          destruct (Z.ltb_spec (task_position r) (mt_toPosition input)); try lia; reflexivity. }
  rewrite length_map.
  pose proof (count_without (fun r => task_position r <? mt_toPosition input) task
                (filter (in_column (mt_toColumnId input)) rows)
                (NoDup_filter_keys _ _ rows_keys) Hcol) as Hcount.
  pose proof (contiguous_below _ (mt_toPosition input) column_ok) as Hbelow.
  rewrite length_map in Hbelow. specialize (Hbelow in_bounds).
  assert (Hfm : List.length
                  (filter (fun z => z <? mt_toPosition input)
                     (map task_position (filter (in_column (mt_toColumnId input)) rows)))
                = List.length
                    (filter (fun r => task_position r <? mt_toPosition input)
                       (filter (in_column (mt_toColumnId input)) rows))).
  { rewrite (filter_map_commute task_position (fun z => z <? mt_toPosition input)
               (fun r => task_position r <? mt_toPosition input)) by reflexivity.
    apply length_map. }
  rewrite Hfm in Hbelow.
  destruct (task_position task <? mt_toPosition input); lia.
Qed.

(** The stored position of the moved task after the three writes. *)
Lemma same_column_final :
  exists stored,
    find (fun t => (task_id t =? mt_taskId input)%nat)
      (moved_rows input (task_columnId task) rows) = Some stored
    /\ task_position stored
       = if task_position task <? mt_toPosition input
         then mt_toPosition input - 1 else mt_toPosition input.
Proof.
  destruct (task_in_rows input rows task task_row) as [Hin Hid].
  assert (Hk : NoDup (map task_id (placed input rows)))
    by now rewrite placed_keys.
  rewrite (moved_rows_placed input rows task), same_column.
  rewrite (renumber_rows_spec _ (source_ids_NoDup _ _ Hk)).
  rewrite find_map_key.
  2:{ intros r. unfold renumber_row.
      destruct (index_of (task_id r) _); reflexivity. }
  unfold placed at 2. rewrite find_map_key by apply place_key.
  rewrite task_row. simpl. eexists. split; [reflexivity |].
  unfold renumber_row. rewrite place_key.
  assert (Hplaced : In (place input task)
                      (orderBy position_asc
                         (filter (in_column (mt_toColumnId input)) (placed input rows)))).
  { apply (Permutation_in _ (Permutation_sym (orderBy_perm _ _))).
    apply filter_In. split.
    - unfold placed. now apply in_map.
    - unfold in_column. now rewrite (proj1 (place_moved input task Hid)), Nat.eqb_refl. }
  pose proof (sorted_index
                (orderBy position_asc
                   (filter (in_column (mt_toColumnId input)) (placed input rows)))
                (orderBy_sorted _)) as Hidx.
  specialize (Hidx (Permutation_NoDup
                      (Permutation_map _ (Permutation_sym (orderBy_perm _ _)))
                      same_column_distinct)).
  specialize (Hidx (source_ids_NoDup _ _ Hk) _ Hplaced).
  rewrite place_key in Hidx. unfold source_ids. rewrite Hidx. simpl.
  rewrite (below_perm _ _ _ (orderBy_perm _ _)).
  rewrite (proj2 (place_moved input task Hid)).
  pose proof same_column_below as Hb.
  destruct (task_position task <? mt_toPosition input); lia.
Qed.

End SameColumn.

(** Inside one column the stored position of the moved task is the target
    position when the task moves backwards or stays, and one less than the
    target when it moves forwards; the returned task always carries the
    target position. *)
Lemma moveTask_same_column_position ctx input s moved s' task :
  NoDup (map task_id (tasks s)) ->
  contiguous (task_positions (mt_toColumnId input) s) ->
  find (fun t => (task_id t =? mt_taskId input)%nat) (tasks s) = Some task ->
  task_columnId task = mt_toColumnId input ->
  mt_toPosition input
    <= Z.of_nat (List.length (task_positions (mt_toColumnId input) s)) + 1 ->
  moveTask ctx input s = (Ok moved, s') ->
  task_position moved = mt_toPosition input
  /\ exists stored,
       find (fun t => (task_id t =? mt_taskId input)%nat) (tasks s') = Some stored
       /\ task_position stored
          = if task_position task <? mt_toPosition input
            then mt_toPosition input - 1 else mt_toPosition input.
Proof.
  intros Hkeys Hcol Hfind Hsame Hmax Hrun.
  apply moveTask_cases in Hrun.
  destruct Hrun as [[_ [e [He _]]]
                   | (task' & u & Hf & _ & Hmin & Ht & _ & _ & _ & _ & _ & _ & _ & _ & Hlog)];
    [discriminate |].
  rewrite Hfind in Hf. injection Hf as <-.
  destruct Hlog as [(m & row & Hm & _ & _ & Hpos & _) | [He _]]; [| discriminate].
  injection Hm as <-. split; [exact Hpos |].
  rewrite Ht. apply same_column_final; auto.
  unfold task_positions in Hmax. rewrite length_map in Hmax.
  split; [exact Hmin | exact Hmax].
Qed.

(** C2 at a failing input. Column 20 of the board holds a, b, c at positions
    1, 2, 3.  Moving a to position 3 of the same column succeeds and returns
    the task with position 3, but the stored order is b, a, c: a ends at
    position 2.  Moving c to position 1 does place it at 1. *)
Theorem moveTask_forward_lands_one_short :
  positions_by_id board = [(30%nat, 1); (31%nat, 2); (32%nat, 3)]
  /\ (exists moved s',
        moveTask as_alice move_a_last board = (Ok moved, s')
        /\ task_position moved = 3
        /\ positions_by_id s' = [(30%nat, 2); (31%nat, 1); (32%nat, 3)])
  /\ (exists moved s',
        moveTask as_alice move_c_first board = (Ok moved, s')
        /\ task_position moved = 1
        /\ positions_by_id s' = [(30%nat, 2); (31%nat, 3); (32%nat, 1)]).
Proof.
  split; [reflexivity |].
  split; do 2 eexists; (split; [vm_compute; reflexivity |]); split; reflexivity.
Qed.

(** ** Runs on the concrete board *)

Lemma position_lower_bound_only_witness :
  createColumn as_alice column_at_zero board = (Err BAD_USER_INPUT, board)
  /\ moveTask as_alice move_a_to_zero board = (Err BAD_USER_INPUT, board)
  /\ fst (createColumn as_alice column_at_five board) <> Err BAD_USER_INPUT
  /\ fst (moveTask as_alice move_a_to_nine board) <> Err BAD_USER_INPUT
  /\ (exists col s',
        createColumn as_alice column_at_five board = (Ok col, s')
        /\ column_position col = 5)
  /\ (exists moved s',
        moveTask as_alice move_a_to_nine board = (Ok moved, s')
        /\ task_position moved = 9).
Proof.
  destruct (position_lower_bound_only as_alice board)
    as (Hcol & Hmove & _ & _ & Hcol_up & Hmove_up & Hstored & Hanswer).
  split; [apply Hcol; [reflexivity | vm_compute; lia | reflexivity] |].
  split; [apply (Hmove move_a_to_zero 10%nat); reflexivity |].
  split; [apply Hcol_up; [vm_compute; lia | vm_compute; discriminate] |].
  split; [apply Hmove_up; vm_compute; discriminate |].
  split.
  - do 2 eexists. split; [vm_compute; reflexivity |].
    edestruct (Hstored column_at_five) as [_ Hp]; [vm_compute; reflexivity |].
    exact Hp.
  - do 2 eexists. split; [vm_compute; reflexivity |].
    apply (Hanswer move_a_to_nine _ _ eq_refl).
Defined.

(** [trim] strips white space beyond ASCII: a title made of a no-break space
    is blank. *)
Example blank_titles_are_refused :
  trim nbsp = ""%string
  /\ createColumn as_alice untitled_column board = (Err BAD_USER_INPUT, board)
  /\ createTask as_alice untitled_task_for_bob board = (Err BAD_USER_INPUT, board).
Proof. repeat split; vm_compute; reflexivity. Qed.

(** C3 as stated fails: on the board, whose project 10 has three columns and
    whose column 21 has no task, [createColumn] at position 5 and [moveTask]
    to position 9 both succeed and write the position as given. *)
Lemma out_of_range_accepted_counterexample :
  List.length (column_positions 10 board) = 3%nat
  /\ succeeded (fst (createColumn as_alice column_at_five board)) = true
  /\ column_positions 10 (snd (createColumn as_alice column_at_five board)) = [1; 2; 3; 5]
  /\ List.length (task_positions 21 board) = 0%nat
  /\ succeeded (fst (moveTask as_alice move_a_to_nine board)) = true
  /\ task_positions 21 (snd (moveTask as_alice move_a_to_nine board)) = [9].
Proof.
  repeat split; vm_compute; reflexivity.
Qed.

Lemma board_tasks_fk : tasks_fk board.
Proof.
  unfold tasks_fk. repeat (constructor; [reflexivity |]). constructor.
Qed.

Lemma unknown_id_fails_first_witness :
  tasks_fk board
  /\ resolve anonymous (ReqAssignTask 999 None) board = (Err NOT_FOUND, board)
  /\ resolve as_bob comment_on_unknown board = (Err NOT_FOUND, board)
  /\ resolve anonymous comment_on_unknown board = (Err UNAUTHENTICATED, board).
Proof.
  split; [exact board_tasks_fk |].
  split; [| split].
  - apply (proj1 (unknown_id_fails_first anonymous (ReqAssignTask 999 None) board
                    board_tasks_fk)); [reflexivity | exact I].
  - apply (proj1 (unknown_id_fails_first as_bob comment_on_unknown board board_tasks_fk));
      [reflexivity | discriminate].
  - apply (proj2 (unknown_id_fails_first anonymous comment_on_unknown board board_tasks_fk)).
    reflexivity.
Defined.

(** C7 as stated fails for [commentTask]: with a task id that matches no row,
    an unauthenticated caller receives UNAUTHENTICATED, not NOT_FOUND. *)
Lemma commentTask_unknown_id_counterexample :
  unknown_id board comment_on_unknown = true
  /\ ctx_user anonymous = None
  /\ fst (resolve anonymous comment_on_unknown board) = Err UNAUTHENTICATED
  /\ fst (resolve anonymous comment_on_unknown board) <> Err NOT_FOUND.
Proof.
  repeat split; try reflexivity. vm_compute. discriminate.
Qed.

Lemma board_members_unique : members_unique board.
Proof.
  unfold members_unique. simpl.
  repeat (constructor; [simpl; intuition discriminate |]). constructor.
Qed.

Lemma acceptInvite_only_once_witness :
  members_unique board
  /\ succeeded (fst (acceptInvite as_carol "tok-carol" board)) = true
  /\ membership_count carol_joined 10 4 = 1%nat
  /\ acceptInvite as_carol "tok-carol" carol_joined = (Err BAD_USER_INPUT, carol_joined)
  /\ acceptInvite as_bob "tok-revoked" board = (Err BAD_USER_INPUT, board).
Proof.
  split; [exact board_members_unique |].
  split; [reflexivity |].
  destruct (acceptInvite_only_once as_carol {| au_id := 4; au_role := USER |}
              "tok-carol" board eq_refl board_members_unique) as [Hfirst _].
  destruct (acceptInvite_only_once as_bob {| au_id := 3; au_role := USER |}
              "tok-revoked" board eq_refl board_members_unique) as [_ Hrevoked].
  destruct (Hfirst {| pm_id := 100; pm_projectId := 10; pm_userId := 4;
                      pm_projectRole := MEMBER |} carol_joined)
    as (invite & Hfind & Hcount & _ & Hagain); [vm_compute; reflexivity |].
  vm_compute in Hfind. injection Hfind as <-.
  split; [exact Hcount |].
  split; [apply Hagain; discriminate |].
  eapply Hrevoked; [vm_compute; reflexivity | right; reflexivity].
Defined.

Lemma acceptInvite_keeps_existing_member_witness :
  exists r s1,
    acceptInvite as_alice "tok-alice" board = (Ok r, s1)
    /\ r = alice_owner_row
    /\ pm_projectRole r = OWNER
    /\ members s1 = members board
    /\ invitations s1 = accepted "tok-alice" (invitations board).
Proof.
  do 2 eexists. split; [vm_compute; reflexivity |].
  destruct (acceptInvite_keeps_existing_member as_alice {| au_id := 1; au_role := USER |}
              "tok-alice" board alice_owner_row
              (snd (acceptInvite as_alice "tok-alice" board))
              alice_invitation alice_owner_row)
    as (Hr & Hm & Hi & _); try (vm_compute; reflexivity).
  split; [reflexivity |]. split; [reflexivity |]. split; [exact Hm | exact Hi].
Defined.

(** * Further properties of the resolvers *)

(** ** Rejections write nothing *)

Ltac rejected H Hrej :=
  unfold_store_in H;
  repeat break_in H;
  inversion H; subst; clear H;
  first [ reflexivity | discriminate Hrej | (exfalso; simpl in *; congruence) ].

Lemma respond_err {A} (wrap : A -> Response) (m : M A) s e s' :
  respond wrap m s = (Err e, s') -> m s = (Err e, s').
Proof.
  unfold respond. destruct (m s) as [[a | e'] s'']; intros H; inversion H; subst; auto.
Qed.

Lemma rejected_unchanged ctx req s e s' :
  resolve ctx req s = (Err e, s') -> is_rejection e = true -> s' = s.
Proof.
  intros H Hrej. destruct req; simpl in H; apply respond_err in H.
  - unfold Query_project in H. rejected H Hrej.
  - unfold Query_tasks in H. rejected H Hrej.
  - unfold Query_comments in H. rejected H Hrej.
  - unfold Query_activityLog in H. rejected H Hrej.
  - unfold createProject in H. rejected H Hrej.
  - unfold createColumn in H. rejected H Hrej.
  - unfold createTask in H. rejected H Hrej.
  - unfold updateTask in H. rejected H Hrej.
  - apply moveTask_cases in H.
    destruct H as [[-> _] | (t & u & _ & _ & _ & _ & _ & _ & _ & _ & _ & _ & _ & _ & Hl)];
      [reflexivity |].
    destruct Hl as [(m & row & Hm & _) | [Hm _]]; [discriminate |].
    injection Hm as ->. discriminate.
  - unfold assignTask in H. rejected H Hrej.
  - unfold commentTask in H. rejected H Hrej.
  - unfold inviteMember in H. rejected H Hrej.
  - unfold acceptInvite in H. rejected H Hrej.
  - unfold createLabel in H. rejected H Hrej.
  - unfold addLabelToTask in H. rejected H Hrej.
  - unfold removeLabelFromTask in H. rejected H Hrej.
Qed.

Ltac read_only :=
  unfold_store; repeat break_match; reflexivity.

(** X1. A request of the request type, that is one of the queries [project],
    [tasks], [comments], [activityLog] and of the mutations [createProject],
    [createColumn], [createTask], [updateTask], [moveTask], [assignTask],
    [commentTask], [inviteMember], [acceptInvite], [createLabel],
    [addLabelToTask], [removeLabelFromTask], when refused with one of the
    four error codes of [src/errors.ts], leaves the store exactly as it was:
    in each of these resolvers the guards and validations come before the
    first write.  The query [projects] never writes, whatever its outcome.
    The statement does not speak of [me], [register] and [login], which are
    not modelled. *)
Theorem rejected_request_changes_nothing ctx s :
  (forall req e s',
      resolve ctx req s = (Err e, s') -> is_rejection e = true -> s' = s)
  /\ (forall offset limit search, snd (Query_projects ctx offset limit search s) = s).
Proof.
  split; [intros req e s'; apply rejected_unchanged |].
  intros offset limit search. unfold Query_projects, name_contains_insensitive.
  destruct search; cbn [option_map]; read_only.
Qed.

Lemma rejected_request_changes_nothing_witness :
  resolve as_bob (ReqCreateColumn column_at_two) board = (Err FORBIDDEN, board)
  /\ is_rejection FORBIDDEN = true
  /\ snd (resolve as_bob (ReqCreateColumn column_at_two) board) = board.
Proof.
  split; [vm_compute; reflexivity |]. split; [reflexivity |].
  apply (proj1 (rejected_request_changes_nothing as_bob board)
           (ReqCreateColumn column_at_two) FORBIDDEN);
    [vm_compute; reflexivity | reflexivity].
Defined.

(** ** Queries *)

(** X2. The four queries never write: whatever the caller, the arguments and
    the outcome, the store after the call is the store before it. *)
Theorem queries_are_read_only ctx s :
  (forall p, snd (Query_project ctx p s) = s)
  /\ (forall p o l st a, snd (Query_tasks ctx p o l st a s) = s)
  /\ (forall t o l, snd (Query_comments ctx t o l s) = s)
  /\ (forall p o l, snd (Query_activityLog ctx p o l s) = s).
Proof.
  repeat split; intros.
  - unfold Query_project. read_only.
  - unfold Query_tasks. read_only.
  - unfold Query_comments. read_only.
  - unfold Query_activityLog. read_only.
Qed.

Lemma paginate_ok {A} (rows : list A) offset limit :
  0 <= offset -> 1 <= limit <= 50 ->
  page_ok offset limit (paginate rows offset limit).
Proof.
  intros Ho Hl. unfold page_ok, paginate. simpl.
  repeat split; try lia.
  rewrite length_firstn, length_skipn. lia.
Qed.

Ltac paged H :=
  unfold_store_in H;
  repeat (break_in H; try discriminate H);
  inversion H; subst; clear H;
  repeat match goal with
         | Hb : (_ && _)%bool = true |- _ => apply andb_prop in Hb; destruct Hb
         | Hb : (_ <=? _) = true |- _ => apply Z.leb_le in Hb
         end.

(** X3. A page returned by [tasks], [comments] or [activityLog] echoes the
    requested offset and limit, which satisfy [0 <= offset] and
    [1 <= limit <= 50], and holds exactly [min limit (max 0 (total - offset))]
    items: never more than 50. *)
Theorem pages_are_bounded ctx s :
  (forall p o l st a page s',
      Query_tasks ctx p o l st a s = (Ok page, s') -> page_ok o l page)
  /\ (forall t o l page s',
        Query_comments ctx t o l s = (Ok page, s') -> page_ok o l page)
  /\ (forall p o l page s',
        Query_activityLog ctx p o l s = (Ok page, s') -> page_ok o l page).
Proof.
  split; [| split]; intros until s'; intros H.
  - unfold Query_tasks in H. paged H; apply paginate_ok; lia.
  - unfold Query_comments in H. paged H; apply paginate_ok; lia.
  - unfold Query_activityLog in H. paged H; apply paginate_ok; lia.
Qed.

Lemma in_paginate {A} (rows : list A) offset limit x :
  In x (items (paginate rows offset limit)) -> In x rows.
Proof.
  unfold paginate. simpl. intros H.
  rewrite <- (firstn_skipn (Z.to_nat offset) rows). apply in_or_app. right.
  rewrite <- (firstn_skipn (Z.to_nat limit) (skipn (Z.to_nat offset) rows)).
  apply in_or_app. now left.
Qed.

Lemma in_orderBy {A} (le : A -> A -> bool) (l : list A) x :
  In x (orderBy le l) -> In x l.
Proof. apply Permutation_in, orderBy_perm. Qed.

(** X4. What the paged queries return is inside the requested scope: every
    item of [comments] is a comment of the task, every item of [activityLog] is
    an audit row of the project, and every item of [tasks] sits in a column of
    the project and matches the status and assignee filters that were given. *)
Theorem pages_stay_in_scope ctx s :
  (forall p o l st a page s' t,
      Query_tasks ctx p o l st a s = (Ok page, s') -> In t (items page) ->
      In t (tasks s)
      /\ project_of_column s (task_columnId t) = Some p
      /\ (forall wanted, st = Some wanted -> task_status t = wanted)
      /\ (forall wanted, a = Some wanted -> task_assigneeId t = Some wanted))
  /\ (forall t o l page s' c,
        Query_comments ctx t o l s = (Ok page, s') -> In c (items page) ->
        In c (comments s) /\ comment_taskId c = t)
  /\ (forall p o l page s' row,
        Query_activityLog ctx p o l s = (Ok page, s') -> In row (items page) ->
        In row (activity s) /\ log_projectId row = p).
Proof.
  split; [| split].
  - intros p o l st a page s' t H Hin. unfold Query_tasks in H. paged H.
    all: apply in_paginate, in_orderBy, in_rev, filter_In in Hin.
    all: destruct Hin as [Hin Hw]; split; [exact Hin |].
    all: repeat match goal with
                | Hb : (_ && _)%bool = true |- _ => apply andb_prop in Hb; destruct Hb
                end.
    all: split; [| split; intros wanted E; try discriminate E; injection E as <-].
    all: try (unfold project_of_column;
              match goal with
              | Hc : match find ?f ?cs with _ => _ end = true |- _ =>
                  destruct (find f cs) as [c |]; [| discriminate]
              end;
              simpl; f_equal; now apply Nat.eqb_eq).
    all: try match goal with
             | Hs : TaskStatus_eqb (task_status ?x) ?w = true |- task_status _ = _ =>
                 destruct (task_status x), w; simpl in Hs; congruence
             end.
    all: match goal with
         | |- task_assigneeId ?x = _ => destruct (task_assigneeId x); [| discriminate]
         end.
    all: match goal with
         | Ha : (_ =? _)%nat = true |- _ => apply Nat.eqb_eq in Ha; congruence
         end.
  - intros t o l page s' c H Hin. unfold Query_comments in H. paged H.
    all: apply in_paginate, in_rev, filter_In in Hin.
    all: destruct Hin as [Hin Ht]; apply Nat.eqb_eq in Ht; auto.
  - intros p o l page s' row H Hin. unfold Query_activityLog in H. paged H.
    all: apply in_paginate, in_rev, filter_In in Hin.
    all: destruct Hin as [Hin Ht]; apply Nat.eqb_eq in Ht; auto.
Qed.

Lemma pages_are_bounded_witness :
  exists page,
    Query_tasks as_alice 10 1 2 None None board = (Ok page, board)
    /\ page_ok 1 2 page
    /\ List.length (items page) = 2%nat.
Proof.
  eexists. split; [vm_compute; reflexivity |].
  split; [| reflexivity].
  eapply (proj1 (pages_are_bounded as_alice board) 10%nat 1 2 None None).
  vm_compute. reflexivity.
Defined.

Lemma pages_stay_in_scope_witness :
  exists page,
    Query_tasks as_alice 10 0 50 (Some TODO) None board = (Ok page, board)
    /\ In (newTask 31 "b" 2 20 1) (items page)
    /\ project_of_column board 20 = Some 10%nat.
Proof.
  eexists. split; [vm_compute; reflexivity |].
  split; [right; left; reflexivity |].
  exact (proj1 (proj2 (proj1 (pages_stay_in_scope as_alice board) 10%nat 0 50 (Some TODO) None
                 _ board (newTask 31 "b" 2 20 1) eq_refl
                 (or_intror (or_introl eq_refl))))).
Defined.

(** ** Callers without a user *)

Ltac refused H Hu :=
  unfold_store_in H; rewrite ?Hu in H;
  repeat break_in H;
  inversion H; subst; clear H;
  first [ split; [reflexivity | eexists; reflexivity] | congruence ].

Lemma respond_cases {A} (wrap : A -> Response) (m : M A) s r s' :
  respond wrap m s = (r, s') ->
  (exists a, m s = (Ok a, s') /\ r = Ok (wrap a))
  \/ (exists e, m s = (Err e, s') /\ r = Err e).
Proof.
  unfold respond. destruct (m s) as [[a | e] s'']; intros H; inversion H; subst; eauto.
Qed.

Lemma anonymous_refused ctx req s r s' :
  ctx_user ctx = None ->
  resolve ctx req s = (r, s') ->
  s' = s /\ exists e, r = Err e.
Proof.
  intros Hu H.
  assert (Hm : forall A (m : M A) (wrap : A -> Response),
             respond wrap m s = (r, s') ->
             (forall a s1, m s = (a, s1) -> s1 = s /\ exists e, a = Err e) ->
             s' = s /\ exists e, r = Err e).
  { intros A m wrap Hr Hc. apply respond_cases in Hr.
    destruct Hr as [(a & Hr & ->) | (e & Hr & ->)]; apply Hc in Hr;
      destruct Hr as [-> [e' He]]; [discriminate | eauto]. }
  destruct req; simpl in H; eapply Hm; try exact H; clear H; intros a s1 H.
  - unfold Query_project in H. refused H Hu.
  - unfold Query_tasks in H. refused H Hu.
  - unfold Query_comments in H. refused H Hu.
  - unfold Query_activityLog in H. refused H Hu.
  - unfold createProject in H. refused H Hu.
  - unfold createColumn in H. refused H Hu.
  - unfold createTask in H. refused H Hu.
  - unfold updateTask in H. refused H Hu.
  - apply moveTask_cases in H.
    destruct H as [[-> [e [-> _]]] | (t & u & _ & Hu' & _)]; [eauto | congruence].
  - unfold assignTask in H. refused H Hu.
  - unfold commentTask in H. refused H Hu.
  - unfold inviteMember in H. refused H Hu.
  - unfold acceptInvite in H. refused H Hu.
  - unfold createLabel in H. refused H Hu.
  - unfold addLabelToTask in H. refused H Hu.
  - unfold removeLabelFromTask in H. refused H Hu.
Qed.

(** X5. A caller without a user (an absent or invalid token) gets no answer
    from, and writes nothing through, the queries [project], [tasks],
    [comments], [activityLog], [projects] and the mutations [createProject],
    [createColumn], [createTask], [updateTask], [moveTask], [assignTask],
    [commentTask], [inviteMember], [acceptInvite], [createLabel],
    [addLabelToTask], [removeLabelFromTask]: each such request ends in an
    error and leaves the store as it was, and [projects] ends in
    UNAUTHENTICATED.  The statement does not speak of [register] and [login],
    which serve callers without a user, nor of [me]; they are not modelled. *)
Theorem no_user_no_service ctx s :
  ctx_user ctx = None ->
  (forall req,
      snd (resolve ctx req s) = s /\ succeeded (fst (resolve ctx req s)) = false)
  /\ (forall offset limit search,
        Query_projects ctx offset limit search s = (Err UNAUTHENTICATED, s)).
Proof.
  intros Hu. split.
  - intros req. destruct (resolve ctx req s) as [r s'] eqn:H.
    destruct (anonymous_refused ctx req s r s' Hu H) as [-> [e ->]]. auto.
  - intros offset limit search. unfold Query_projects, requireAuth.
    unfold_store. now rewrite Hu.
Qed.

Lemma no_user_no_service_witness :
  ctx_user anonymous = None
  /\ snd (resolve anonymous (ReqProject 10) board) = board
  /\ succeeded (fst (resolve anonymous (ReqProject 10) board)) = false
  /\ Query_projects anonymous 0 10 None board = (Err UNAUTHENTICATED, board).
Proof.
  split; [reflexivity |].
  destruct (no_user_no_service anonymous board eq_refl) as [Hreq Hlist].
  destruct (Hreq (ReqProject 10)) as [Hs Hr].
  split; [exact Hs |]. split; [exact Hr |]. apply Hlist.
Defined.

(** ** The owner gate *)

Lemma requireProjectOwnerOrAdmin_run ctx projectId s :
  requireProjectOwnerOrAdmin ctx projectId s
  = (match ctx_user ctx with
     | None => Err UNAUTHENTICATED
     | Some u =>
         if Role_eqb (au_role u) ADMIN then Ok tt
         else if is_owner s projectId (au_id u) then Ok tt else Err FORBIDDEN
     end, s).
Proof.
  unfold requireProjectOwnerOrAdmin, is_owner. unfold_store.
  destruct (ctx_user ctx) as [u |]; auto.
  destruct (Role_eqb (au_role u) ADMIN); auto.
  destruct (find _ (members s)) as [m |]; auto.
  now destruct (ProjectRole_eqb (pm_projectRole m) OWNER).
Qed.

(** X6. For an authenticated caller, [requireProjectOwnerOrAdmin] passes for
    a global ADMIN whatever the membership table holds, and for a plain USER
    exactly when the caller's membership row in the project has the role
    OWNER.  [createColumn], [inviteMember] and [createLabel] call it first:
    a plain member who is not the owner gets FORBIDDEN from all three, and the
    store stays as it was. *)
Theorem owner_gate ctx u projectId s :
  ctx_user ctx = Some u ->
  (au_role u = ADMIN -> requireProjectOwnerOrAdmin ctx projectId s = (Ok tt, s))
  /\ (au_role u = USER ->
      requireProjectOwnerOrAdmin ctx projectId s
      = (if is_owner s projectId (au_id u) then Ok tt else Err FORBIDDEN, s)
      /\ forall req,
           owner_gated_project req = Some projectId ->
           is_owner s projectId (au_id u) = false ->
           resolve ctx req s = (Err FORBIDDEN, s)).
Proof.
  intros Hu. split; intros Hr.
  - now rewrite requireProjectOwnerOrAdmin_run, Hu, Hr.
  - rewrite requireProjectOwnerOrAdmin_run, Hu, Hr. simpl.
    split; [reflexivity |]. intros req Hg Ho.
    assert (Hgate : requireProjectOwnerOrAdmin ctx projectId s = (Err FORBIDDEN, s))
      by now rewrite requireProjectOwnerOrAdmin_run, Hu, Hr, Ho.
    destruct req; simpl in Hg; try discriminate Hg; injection Hg as <-;
      simpl; apply respond_fail; now apply bind_fail.
Qed.

Lemma owner_gate_witness :
  is_member carol_joined 10 4 = true
  /\ requireProjectOwnerOrAdmin as_alice 10 carol_joined = (Ok tt, carol_joined)
  /\ requireProjectOwnerOrAdmin as_root 10 carol_joined = (Ok tt, carol_joined)
  /\ resolve as_carol (ReqCreateColumn column_at_two) carol_joined
     = (Err FORBIDDEN, carol_joined).
Proof.
  split; [reflexivity |].
  destruct (owner_gate as_alice {| au_id := 1; au_role := USER |} 10 carol_joined eq_refl)
    as [_ Halice].
  destruct (owner_gate as_root {| au_id := 2; au_role := ADMIN |} 10 carol_joined eq_refl)
    as [Hroot _].
  destruct (owner_gate as_carol {| au_id := 4; au_role := USER |} 10 carol_joined eq_refl)
    as [_ Hcarol].
  split; [exact (proj1 (Halice eq_refl)) |].
  split; [exact (Hroot eq_refl) |].
  apply (proj2 (Hcarol eq_refl)); reflexivity.
Defined.

(** ** The position invariant over the whole API *)

Lemma createProject_cases ctx name s r s' :
  createProject ctx name s = (r, s') ->
  (s' = s /\ exists e, r = Err e)
  \/ (exists u p,
        r = Ok p /\ ctx_user ctx = Some u
        /\ p = {| project_id := nextId s; project_name := trim name;
                  project_ownerId := au_id u |}
        /\ (1 <= String.length (trim name))%nat
        /\ user_exists s (au_id u) = true
        /\ projects s' = projects s ++ [p]
        /\ members s'
           = members s ++ [{| pm_id := S (nextId s); pm_projectId := nextId s;
                              pm_userId := au_id u; pm_projectRole := OWNER |}]
        /\ columns s' = columns s ++ default_columns (nextId s) (S (S (nextId s)))
        /\ tasks s' = tasks s /\ users s' = users s
        /\ (exists row, activity s' = activity s ++ [row])
        /\ nextId s' = (nextId s + 6)%nat).
Proof.
  intros H. unfold createProject in H. unfold_store_in H.
  repeat break_in H; inversion H; subst; clear H;
    try (left; split; [reflexivity | eexists; reflexivity]).
  right. do 2 eexists. repeat (split; [first [eassumption | reflexivity] |]).
  split; [now apply Nat.ltb_ge |].
  repeat (split; [first [eassumption | reflexivity] |]).
  split; [eexists; reflexivity |]. simpl. lia.
Qed.

Lemma shape_update p d rows :
  upd_columnId d = None -> upd_position d = None ->
  map task_shape (updateWhere p (applyUpdate d) rows) = map task_shape rows.
Proof.
  intros Hc Hp. unfold updateWhere. rewrite map_map. apply map_ext.
  intros r. destruct (p r); auto.
  unfold task_shape, applyUpdate. simpl. now rewrite Hc, Hp.
Qed.

Ltac framed H :=
  unfold_store_in H;
  repeat break_in H;
  inversion H; subst; clear H; cbn;
  repeat split; auto; try lia;
  try (apply shape_update; reflexivity).

Lemma other_requests_frame ctx req s r s' :
  ordered_op req = false ->
  (forall n, req <> ReqCreateProject n) ->
  resolve ctx req s = (r, s') ->
  columns s' = columns s /\ projects s' = projects s /\ (nextId s <= nextId s')%nat
  /\ map task_shape (tasks s') = map task_shape (tasks s)
  /\ (members s' = members s
      \/ exists m, members s' = members s ++ [m]
                   /\ project_exists s (pm_projectId m) = true).
Proof.
  intros Hop Hcp H.
  assert (Hm : forall A (m : M A) (wrap : A -> Response),
             respond wrap m s = (r, s') -> exists a, m s = (a, s')).
  { intros A m wrap Hr. apply respond_cases in Hr.
    destruct Hr as [(a & Hr & _) | (e & Hr & _)]; eauto. }
  destruct req; try discriminate Hop; simpl in H; apply Hm in H; destruct H as [a H].
  - unfold Query_project in H. framed H.
  - unfold Query_tasks in H. framed H.
  - unfold Query_comments in H. framed H.
  - unfold Query_activityLog in H. framed H.
  - exfalso. eapply Hcp. reflexivity.
  - unfold updateTask in H. framed H.
  - unfold assignTask in H. framed H.
  - unfold commentTask in H. framed H.
  - unfold inviteMember in H. framed H.
  - unfold acceptInvite in H. framed H.
    all: right; eexists; split; [reflexivity |]; simpl.
    all: match goal with
         | Hb : (_ && _)%bool = true |- _ => apply andb_prop in Hb; destruct Hb; assumption
         end.
  - unfold createLabel in H. framed H.
  - unfold addLabelToTask in H. framed H.
  - unfold removeLabelFromTask in H. framed H.
Qed.

Lemma positions_of_shape c rows rows' :
  map task_shape rows' = map task_shape rows ->
  map task_position (filter (fun t => (task_columnId t =? c)%nat) rows')
  = map task_position (filter (fun t => (task_columnId t =? c)%nat) rows).
Proof.
  revert rows. induction rows' as [| x l IH]; intros [| y m] H; try discriminate; auto.
  simpl in H. unfold task_shape at 1 3 in H. injection H as Hi Hc Hp Hl.
  simpl. rewrite Hc. destruct (task_columnId y =? c)%nat; simpl; rewrite (IH m Hl); congruence.
Qed.

Lemma keys_of_shape rows rows' :
  map task_shape rows' = map task_shape rows -> map task_id rows' = map task_id rows.
Proof.
  intros H. apply (f_equal (map (fun x => fst (fst x)))) in H.
  now rewrite !map_map in H.
Qed.

Lemma project_exists_app s s' p extra :
  projects s' = projects s ++ extra ->
  project_exists s p = true -> project_exists s' p = true.
Proof.
  unfold project_exists. intros -> H. rewrite existsb_app, H. reflexivity.
Qed.

Lemma fresh_project_unused s c :
  sound s -> In c (columns s) -> column_projectId c <> nextId s.
Proof.
  intros [[_ _ _ Hfk] Hp _] Hc E.
  rewrite Forall_forall in Hfk, Hp. specialize (Hfk c Hc).
  apply existsb_exists in Hfk. destruct Hfk as [p [Hin Hid]].
  apply Nat.eqb_eq in Hid. specialize (Hp p Hin). lia.
Qed.

Lemma fresh_project_no_member s m :
  sound s -> In m (members s) -> pm_projectId m <> nextId s.
Proof.
  intros [_ Hp Hm] Hin E.
  rewrite Forall_forall in Hm, Hp. specialize (Hm m Hin).
  apply existsb_exists in Hm. destruct Hm as [p [Hpin Hid]].
  apply Nat.eqb_eq in Hid. specialize (Hp p Hpin). lia.
Qed.

Lemma createProject_columns ctx name s p s' :
  sound s -> createProject ctx name s = (Ok p, s') ->
  forall q,
    column_positions q s'
    = if (q =? project_id p)%nat then [1; 2; 3] else column_positions q s.
Proof.
  intros Hs H q. apply createProject_cases in H.
  destruct H as [[_ [e He]] | (u & p' & Hr & _ & Hp & _ & _ & _ & _ & Hc & _)];
    [discriminate |].
  injection Hr as <-. subst p. simpl.
  unfold column_positions. rewrite Hc, filter_app, map_app. simpl.
  rewrite (Nat.eqb_sym (nextId s) q).
  destruct (Nat.eqb_spec q (nextId s)) as [-> | _]; simpl.
  - rewrite filter_none; [reflexivity |].
    intros c Hin. apply Nat.eqb_neq. now apply fresh_project_unused.
  - apply app_nil_r.
Qed.

Lemma createProject_sound ctx name s :
  sound s -> sound (snd (createProject ctx name s)).
Proof.
  intros Hs. destruct (createProject ctx name s) as [r s'] eqn:H. simpl.
  pose proof H as Hcases. apply createProject_cases in Hcases.
  destruct Hcases
    as [[-> _] | (u & p & -> & Hu & Hp & Hn & Hux & Hps & Hms & Hcs & Hts & _ & _ & Hk)];
    [exact Hs |].
  pose proof (createProject_columns ctx name s p s' Hs H) as Hcols.
  destruct Hs as [[[Hcp Htp] Hkeys Hfresh Hfk] Hproj Hmem] eqn:Hsound.
  assert (Hnew : project_exists s' (nextId s) = true).
  { unfold project_exists. rewrite Hps, existsb_app. subst p. simpl.
    rewrite Nat.eqb_refl. apply orb_true_r. }
  constructor; [constructor |..].
  - split.
    + intros q. rewrite Hcols. destruct (q =? project_id p)%nat; [| apply Hcp].
      split; [| intros z; simpl; lia].
      repeat (constructor; [simpl; intuition discriminate |]). constructor.
    + intros c. unfold task_positions. rewrite Hts. apply Htp.
  - now rewrite Hts.
  - rewrite Hts, Hk. eapply Forall_lt_mono; [| exact Hfresh]. lia.
  - rewrite Hcs. apply Forall_app. split.
    + eapply Forall_impl; [| exact Hfk]. intros c Hc.
      eapply project_exists_app; eauto.
    + unfold default_columns. repeat (constructor; [exact Hnew |]). constructor.
  - rewrite Hps, Hk. apply Forall_app. split.
    + eapply Forall_impl; [| exact Hproj]. simpl. intros; lia.
    + subst p. repeat constructor. simpl. lia.
  - rewrite Hms. apply Forall_app. split.
    + eapply Forall_impl; [| exact Hmem]. intros m Hm.
      eapply project_exists_app; eauto.
    + repeat constructor. exact Hnew.
Qed.

Lemma find_app_none {A} (f : A -> bool) l l' :
  find f l = None -> find f (l ++ l') = find f l'.
Proof.
  induction l as [| x l IH]; simpl; auto.
  destruct (f x); [discriminate | auto].
Qed.

Lemma find_app_some {A} (f : A -> bool) l l' x :
  find f l = Some x -> find f (l ++ l') = Some x.
Proof.
  induction l as [| y l IH]; simpl; [discriminate |].
  destruct (f y); auto.
Qed.

(** X7. In a sound store a successful [createProject] gives the new project
    exactly the columns at positions 1, 2, 3 and leaves the columns of every
    other project alone; the project is named by the trimmed argument, which is
    not blank; and the caller is its owner at once: the owner gate of the new
    project lets the caller through even with the plain USER role. *)
Theorem createProject_sets_up_board ctx name s p s' :
  sound s ->
  createProject ctx name s = (Ok p, s') ->
  column_positions (project_id p) s' = [1; 2; 3]
  /\ (forall q, q <> project_id p -> column_positions q s' = column_positions q s)
  /\ project_name p = trim name
  /\ (1 <= String.length (project_name p))%nat
  /\ requireProjectOwnerOrAdmin ctx (project_id p) s' = (Ok tt, s')
  /\ exists u, ctx_user ctx = Some u /\ project_ownerId p = au_id u
               /\ is_owner s' (project_id p) (au_id u) = true.
Proof.
  intros Hs H.
  pose proof (createProject_columns ctx name s p s' Hs H) as Hcols.
  apply createProject_cases in H.
  destruct H as [[_ [e He]] | (u & p' & Hr & Hu & Hp & Hn & _ & _ & Hms & _)];
    [discriminate |].
  injection Hr as <-.
  assert (Hown : is_owner s' (project_id p) (au_id u) = true).
  { unfold is_owner. rewrite Hms. subst p. simpl.
    rewrite find_app_none.
    - simpl. unfold is_member_row. simpl. now rewrite !Nat.eqb_refl.
    - apply existsb_find_none. destruct (existsb _ (members s)) eqn:E; auto.
      apply existsb_exists in E. destruct E as [m [Hin Hrow]].
      unfold is_member_row in Hrow. apply andb_prop in Hrow. destruct Hrow as [Hp _].
      apply Nat.eqb_eq in Hp. exfalso. eapply fresh_project_no_member; eauto. }
  split; [rewrite Hcols; now rewrite Nat.eqb_refl |].
  split.
  { intros q Hq. rewrite Hcols. destruct (Nat.eqb_spec q (project_id p)); tauto. }
  split; [subst p; reflexivity |].
  split; [subst p; exact Hn |].
  split.
  - rewrite requireProjectOwnerOrAdmin_run, Hu, Hown.
    now destruct (Role_eqb (au_role u) ADMIN).
  - exists u. subst p. auto.
Qed.

Lemma board_sound : sound board.
Proof.
  constructor.
  - exact board_valid.
  - unfold board; cbn [projects nextId].
    repeat (apply Forall_cons; [cbn [project_id]; lia |]). apply Forall_nil.
  - unfold board; cbn [members].
    repeat (apply Forall_cons; [reflexivity |]). apply Forall_nil.
Qed.

Lemma createProject_sets_up_board_witness :
  sound board
  /\ exists p s',
       createProject as_carol "  Roadmap " board = (Ok p, s')
       /\ project_name p = "Roadmap"%string
       /\ column_positions (project_id p) s' = [1; 2; 3]
       /\ requireProjectOwnerOrAdmin as_carol (project_id p) s' = (Ok tt, s').
Proof.
  split; [exact board_sound |].
  do 2 eexists. split; [vm_compute; reflexivity |].
  split; [reflexivity |].
  destruct (createProject_sets_up_board as_carol "  Roadmap " board _ _ board_sound eq_refl)
    as (Hc & _ & _ & _ & Hg & _).
  split; [exact Hc | exact Hg].
Defined.

Lemma request_sound ctx req s :
  sound s -> in_range s req = true -> sound (snd (resolve ctx req s)).
Proof.
  intros Hs Hr.
  destruct (ordered_op req) eqn:Hop.
  - destruct Hs as [Hv Hp Hm].
    pose proof (resolve_valid ctx req s Hv Hop Hr) as Hv'.
    assert (Hframe : projects (snd (resolve ctx req s)) = projects s
                     /\ members (snd (resolve ctx req s)) = members s
                     /\ (nextId s <= nextId (snd (resolve ctx req s)))%nat).
    { destruct req; try discriminate Hop; simpl; rewrite snd_respond.
      - destruct (createColumn ctx input s) as [r s'] eqn:E. simpl.
        split; [apply (createColumn_effect _ _ _ _ _ E) |].
        split; [| apply (createColumn_effect _ _ _ _ _ E)].
        unfold createColumn in E. unfold_store_in E.
        repeat break_in E; inversion E; subst; reflexivity.
      - destruct (createTask ctx input s) as [r s'] eqn:E. simpl.
        split; [apply (createTask_effect _ _ _ _ _ E) |].
        split; [| apply (createTask_effect _ _ _ _ _ E)].
        unfold createTask in E. unfold_store_in E.
        repeat break_in E; inversion E; subst; reflexivity.
      - destruct (moveTask ctx input s) as [r s'] eqn:E. simpl.
        pose proof (moveTask_effect _ _ _ _ _ E) as (_ & Hpr & Hn & _).
        split; [exact Hpr |]. split; [| exact Hn].
        apply moveTask_cases in E.
        destruct E as [[-> _] | (t & u & _ & _ & _ & _ & _ & _ & Hmm & _)]; auto. }
    destruct Hframe as (Hps & Hms & Hn).
    constructor; auto.
    + rewrite Hps. eapply Forall_impl; [| exact Hp]. simpl. intros; lia.
    + rewrite Hms. eapply Forall_impl; [| exact Hm]. intros m Hx.
      now rewrite (project_exists_frame s _) by exact Hps.
  - destruct req; try discriminate Hop;
      try (match goal with
           | |- sound (snd (resolve _ (ReqCreateProject _) _)) =>
               simpl; rewrite snd_respond; now apply createProject_sound
           end).
    all: destruct (resolve ctx _ s) as [r s'] eqn:H; simpl.
    all: apply other_requests_frame in H; [| reflexivity | discriminate].
    all: destruct H as (Hc & Hps & Hn & Hshape & Hmem).
    all: destruct Hs as [[[Hcp Htp] Hkeys Hfresh Hfk] Hproj Hm].
    all: constructor; [constructor |..].
    all: try (split;
              [ intros q; unfold column_positions; rewrite Hc; apply Hcp
              | intros c; unfold task_positions;
                rewrite (positions_of_shape c _ _ Hshape); apply Htp ]).
    all: try (rewrite (keys_of_shape _ _ Hshape);
              first [exact Hkeys | eapply Forall_lt_mono; eauto]).
    all: try (rewrite Hc; eapply Forall_impl; [| exact Hfk];
              intros x Hx; now rewrite (project_exists_frame s s') by exact Hps).
    all: try (rewrite Hps; eapply Forall_impl; [| exact Hproj]; simpl; intros; lia).
    all: destruct Hmem as [-> | (m & -> & Hex)];
      [| apply Forall_app; split; [| repeat constructor;
                                     now rewrite (project_exists_frame s s') by exact Hps]];
      (eapply Forall_impl; [| exact Hm]; intros x Hx;
       now rewrite (project_exists_frame s s') by exact Hps).
Qed.

Lemma run_sound reqs :
  forall s, sound s -> all_within s reqs = true -> sound (run s reqs).
Proof.
  induction reqs as [| [ctx req] rest IH]; intros s Hs Hr; simpl in *; auto.
  apply andb_prop in Hr. destruct Hr as [Hr Hrest].
  apply IH; auto. now apply request_sound.
Qed.

(** X8. No operation of the API disturbs the ordering.  From a sound store,
    any sequence of requests of any kind (queries, [createProject],
    [updateTask], [assignTask], comments, invitations, labels, next to the three
    ordered-collection operations), each run on the store the previous one
    left and whatever its outcome, keeps every project's column positions and
    every column's task positions equal to [1..count], provided the
    [createColumn] and [moveTask] positions are at most count plus one. *)
Theorem whole_api_keeps_positions s reqs :
  sound s -> all_within s reqs = true -> positions_ok (run s reqs).
Proof.
  intros Hs Hr. apply valid_positions, sound_valid. now apply run_sound.
Qed.

Lemma whole_api_keeps_positions_witness :
  sound board /\ all_within board mixed_requests = true
  /\ positions_ok (run board mixed_requests).
Proof.
  split; [exact board_sound |].
  split; [vm_compute; reflexivity |].
  apply (whole_api_keeps_positions board mixed_requests);
    [exact board_sound | vm_compute; reflexivity].
Defined.

(** ** Assigning and editing tasks *)

Lemma find_updated i j d rows :
  find (fun r => (task_id r =? i)%nat)
    (updateWhere (fun r => (task_id r =? j)%nat) (applyUpdate d) rows)
  = if (i =? j)%nat
    then option_map (applyUpdate d) (find (fun r => (task_id r =? i)%nat) rows)
    else find (fun r => (task_id r =? i)%nat) rows.
Proof.
  unfold updateWhere. induction rows as [| x l IH]; simpl.
  - now destruct (i =? j)%nat.
  - destruct (Nat.eqb_spec (task_id x) j) as [Ej | Ej]; simpl.
    + destruct (Nat.eqb_spec (task_id x) i) as [Ei | Ei].
      * assert (i = j) as -> by congruence. now rewrite Nat.eqb_refl.
      * rewrite IH. destruct (Nat.eqb_spec i j); auto.
    + destruct (Nat.eqb_spec (task_id x) i) as [Ei | Ei].
      * destruct (Nat.eqb_spec i j); [congruence | reflexivity].
      * apply IH.
Qed.

Lemma assignTask_ok ctx taskId a s r s' :
  assignTask ctx taskId a s = (Ok r, s') ->
  exists u old col,
    ctx_user ctx = Some u
    /\ find (fun t => (task_id t =? taskId)%nat) (tasks s) = Some old
    /\ find (fun c => (column_id c =? task_columnId old)%nat) (columns s) = Some col
    /\ r = applyUpdate (setAssignee a) old
    /\ tasks s' = updateWhere (fun t => (task_id t =? taskId)%nat)
                    (applyUpdate (setAssignee a)) (tasks s)
    /\ opt_exists user_exists s a = true
    /\ (forall x, a = Some x ->
          au_role u = ADMIN \/ is_member s (column_projectId col) x = true).
Proof.
  intros H. unfold assignTask in H. unfold_store_in H.
  repeat (break_in H; try discriminate H).
  all: inversion H; subst; clear H.
  all: repeat match goal with
              | Hs : Some _ = Some _ |- _ => injection Hs as <-
              end.
  all: do 3 eexists.
  all: repeat (split;
    [ first [ eassumption | reflexivity
            | match goal with
              | Hb : update_accepted _ _ = true |- _ =>
                  unfold update_accepted in Hb; simpl in Hb; exact Hb
              end ] |]).
  all: intros x E; try discriminate E; injection E as <-.
  all: first
    [ left; match goal with
            | Hr : Role_eqb (au_role ?u) ADMIN = true |- _ =>
                destruct (au_role u); [reflexivity | discriminate]
            | Hr : negb (Role_eqb (au_role ?u) ADMIN) = false |- _ =>
                destruct (au_role u); [reflexivity | discriminate]
            end
    | right; unfold is_member;
      match goal with
      | Hm : isNone (find ?f ?l) = false |- _ =>
          destruct (find f l) eqn:E; [| discriminate]
      end; apply existsb_exists; apply find_some in E; destruct E;
      eexists; split; eassumption ].
Qed.

Lemma project_of_task_find s taskId old col :
  find (fun t => (task_id t =? taskId)%nat) (tasks s) = Some old ->
  find (fun c => (column_id c =? task_columnId old)%nat) (columns s) = Some col ->
  project_of_task s taskId = Some (column_projectId col).
Proof.
  intros Ht Hc. unfold project_of_task, project_of_column. rewrite Ht.
  now rewrite Hc.
Qed.

(** X9. A successful [assignTask] stores the requested assignee on the task
    and changes nothing else of it: title, description, due date, status,
    column, position and creator are kept, and no other task row is touched.
    The row returned is the row stored.  An assignee, if given, is an existing
    user who is a member of the task's project unless the caller is an ADMIN. *)
Theorem assignTask_sets_assignee_only ctx taskId a s r s' :
  assignTask ctx taskId a s = (Ok r, s') ->
  exists old p,
    find (fun t => (task_id t =? taskId)%nat) (tasks s) = Some old
    /\ project_of_task s taskId = Some p
    /\ find (fun t => (task_id t =? taskId)%nat) (tasks s') = Some r
    /\ task_assigneeId r = a
    /\ task_shape r = task_shape old
    /\ task_title r = task_title old
    /\ task_description r = task_description old
    /\ task_dueDate r = task_dueDate old
    /\ task_status r = task_status old
    /\ task_creatorId r = task_creatorId old
    /\ (forall i, i <> taskId ->
          find (fun t => (task_id t =? i)%nat) (tasks s')
          = find (fun t => (task_id t =? i)%nat) (tasks s))
    /\ (forall x u, a = Some x -> ctx_user ctx = Some u ->
          user_exists s x = true
          /\ (au_role u = ADMIN \/ is_member s p x = true)).
Proof.
  intros H. apply assignTask_ok in H.
  destruct H as (u & old & col & Hu & Hold & Hcol & -> & Ht & Hex & Hrule).
  exists old, (column_projectId col).
  split; [exact Hold |].
  split; [exact (project_of_task_find _ _ _ _ Hold Hcol) |].
  split; [rewrite Ht, find_updated, Nat.eqb_refl, Hold; reflexivity |].
  do 7 (split; [reflexivity |]).
  split.
  - intros i Hi. rewrite Ht, find_updated.
    destruct (Nat.eqb_spec i taskId); [contradiction | reflexivity].
  - intros x u' -> Hu'. rewrite Hu in Hu'. injection Hu' as <-.
    split; [exact Hex | now apply Hrule].
Qed.

Lemma assignTask_sets_assignee_only_witness :
  exists r s',
    assignTask as_alice 31 (Some 1%nat) board = (Ok r, s')
    /\ task_assigneeId r = Some 1%nat
    /\ find (fun t => (task_id t =? 30)%nat) (tasks s')
       = find (fun t => (task_id t =? 30)%nat) (tasks board).
Proof.
  do 2 eexists. split; [vm_compute; reflexivity |].
  edestruct (assignTask_sets_assignee_only as_alice 31 (Some 1%nat) board)
    as (old & p & _ & _ & _ & Ha & _ & _ & _ & _ & _ & _ & Hother & _);
    [vm_compute; reflexivity |].
  split; [exact Ha | apply Hother; discriminate].
Defined.

(** X10. A non-ADMIN member cannot hand a task to somebody outside the
    project, that is to an assignee without a membership row in the project,
    whether or not such a user exists at all.  [assignTask] fails with
    FORBIDDEN and writes nothing.  [createTask] with such an assignee writes
    nothing either: it fails with FORBIDDEN when the trimmed title is not
    empty, and with BAD_USER_INPUT when it is, the title being checked before
    the assignee. *)
Theorem outsider_assignee_forbidden ctx u p x s :
  ctx_user ctx = Some u -> au_role u = USER ->
  is_member s p (au_id u) = true ->
  is_member s p x = false ->
  (forall taskId, project_of_task s taskId = Some p ->
     assignTask ctx taskId (Some x) s = (Err FORBIDDEN, s))
  /\ (forall input, project_of_column s (ct_columnId input) = Some p ->
        ct_assigneeId input = Some x ->
        createTask ctx input s
        = (Err (if (String.length (trim (ct_title input)) <? 1)%nat
                then BAD_USER_INPUT else FORBIDDEN), s)).
Proof.
  intros Hu Hr Hm Hx.
  assert (Hgate : requireProjectMember ctx p s = (Ok tt, s))
    by now rewrite requireProjectMember_run, Hu, Hr, Hm.
  assert (Hcheck : checkAssignee ctx p (Some x) s = (Err FORBIDDEN, s)).
  { unfold checkAssignee. unfold_store. unfold is_member in Hx.
    rewrite (existsb_find_none _ _ Hx). simpl. now rewrite Hu, Hr. }
  split.
  - intros taskId Hp. unfold assignTask.
    rewrite (bind_run _ _ _ _ _ (project_of_task_run _ _ _ Hp)).
    rewrite (bind_run _ _ _ _ _ Hgate).
    now rewrite (bind_fail _ _ _ _ _ Hcheck).
  - intros input Hp Ha. unfold createTask.
    rewrite (bind_run _ _ _ _ _ (project_of_column_run _ _ _ Hp)).
    rewrite (bind_run _ _ _ _ _ Hgate).
    destruct (String.length (trim (ct_title input)) <? 1)%nat; simpl when.
    + now rewrite (bind_fail _ _ s BAD_USER_INPUT s) by reflexivity.
    + rewrite (bind_run _ _ s tt s) by reflexivity.
      rewrite Ha. now rewrite (bind_fail _ _ _ _ _ Hcheck).
Qed.

Lemma outsider_assignee_forbidden_witness :
  assignTask as_alice 30 (Some 3%nat) board = (Err FORBIDDEN, board)
  /\ createTask as_alice task_for_bob board = (Err FORBIDDEN, board)
  /\ createTask as_alice untitled_task_for_bob board = (Err BAD_USER_INPUT, board).
Proof.
  destruct (outsider_assignee_forbidden as_alice
              {| au_id := 1; au_role := USER |} 10%nat 3%nat board
              eq_refl eq_refl) as [Hassign Hcreate];
    [vm_compute; reflexivity | vm_compute; reflexivity |].
  split; [apply Hassign; vm_compute; reflexivity |].
  split.
  - apply (Hcreate task_for_bob); vm_compute; reflexivity.
  - apply (Hcreate untitled_task_for_bob); vm_compute; reflexivity.
Defined.

Lemma updateTask_ok ctx taskId input s r s' :
  updateTask ctx taskId input s = (Ok r, s') ->
  exists old d,
    find (fun t => (task_id t =? taskId)%nat) (tasks s) = Some old
    /\ r = applyUpdate d old
    /\ tasks s' = updateWhere (fun t => (task_id t =? taskId)%nat) (applyUpdate d) (tasks s)
    /\ upd_columnId d = None /\ upd_position d = None /\ upd_assigneeId d = None
    /\ match ut_title input with
       | Undefined => upd_title d = None
       | Null => False
       | Val t => upd_title d = Some (trim t) /\ (1 <= String.length (trim t))%nat
       end
    /\ upd_description d
       = match ut_description input with
         | Undefined => None
         | Null => Some None
         | Val x => Some (trimOrNull (Some x))
         end
    /\ upd_dueDate d = nullable (ut_dueDate input)
    /\ match ut_status input with
       | Undefined => upd_status d = None
       | Null => False
       | Val st => upd_status d = Some (Some st)
       end.
Proof.
  intros H. unfold updateTask in H. unfold_store_in H.
  destruct input as [ti de du st]. cbn [ut_title ut_description ut_dueDate ut_status] in *.
  repeat (break_in H; try discriminate H).
  all: inversion H; subst; clear H.
  all: repeat match goal with
              | Hs : Some _ = Some _ |- _ => injection Hs as <-
              end.
  all: try match goal with
           | Hb : update_accepted _ _ = true |- _ =>
               unfold update_accepted in Hb; simpl in Hb; try discriminate Hb
           end.
  all: do 2 eexists; split; [first [eassumption | reflexivity] |].
  all: split; [reflexivity |]; split; [reflexivity |].
  all: cbn [upd_columnId upd_position upd_assigneeId upd_title upd_description
              upd_dueDate upd_status].
  all: repeat split; try reflexivity.
  all: try match goal with
       | Hl : (_ <? 1)%nat = false |- _ => now apply Nat.ltb_ge in Hl
       end.
  all: destruct st; simpl in *; solve [reflexivity | discriminate].
Qed.

(** X11. A successful [updateTask] writes exactly the fields the input names:
    a field left out keeps its stored value, a title is stored trimmed and is
    never blank, a description is stored trimmed (blank becomes null), [null]
    clears description and due date, and [null] for title or status never
    succeeds.  Column, position, creator and assignee are not touched, nor is
    any other task; the row returned is the row stored. *)
Theorem updateTask_changes_named_fields ctx taskId input s r s' :
  updateTask ctx taskId input s = (Ok r, s') ->
  exists old,
    find (fun t => (task_id t =? taskId)%nat) (tasks s) = Some old
    /\ find (fun t => (task_id t =? taskId)%nat) (tasks s') = Some r
    /\ match ut_title input with
       | Undefined => task_title r = task_title old
       | Null => False
       | Val t => task_title r = trim t /\ (1 <= String.length (task_title r))%nat
       end
    /\ task_description r
       = match ut_description input with
         | Undefined => task_description old
         | Null => None
         | Val d => trimOrNull (Some d)
         end
    /\ task_dueDate r
       = match ut_dueDate input with
         | Undefined => task_dueDate old
         | Null => None
         | Val d => Some d
         end
    /\ match ut_status input with
       | Undefined => task_status r = task_status old
       | Null => False
       | Val st => task_status r = st
       end
    /\ task_shape r = task_shape old
    /\ task_creatorId r = task_creatorId old
    /\ task_assigneeId r = task_assigneeId old
    /\ (forall i, i <> taskId ->
          find (fun t => (task_id t =? i)%nat) (tasks s')
          = find (fun t => (task_id t =? i)%nat) (tasks s)).
Proof.
  intros H. apply updateTask_ok in H.
  destruct H as (old & d & Hold & -> & Ht & Hc & Hp & Ha & Hti & Hde & Hdu & Hst).
  exists old. split; [exact Hold |].
  split; [rewrite Ht, find_updated, Nat.eqb_refl, Hold; reflexivity |].
  unfold task_shape, applyUpdate; cbn.
  rewrite Hc, Hp, Ha, Hde, Hdu. cbn.
  split.
  { destruct (ut_title input); [now rewrite Hti | exact Hti |].
    destruct Hti as [-> Hl]. cbn. auto. }
  split; [now destruct (ut_description input) |].
  split; [now destruct (ut_dueDate input) |].
  split.
  { destruct (ut_status input); [now rewrite Hst | exact Hst | now rewrite Hst]. }
  do 3 (split; [reflexivity |]).
  intros i Hi. rewrite Ht, find_updated.
  destruct (Nat.eqb_spec i taskId); [contradiction | reflexivity].
Qed.

Lemma updateTask_changes_named_fields_witness :
  exists r s',
    updateTask as_alice 31 retitle_b board = (Ok r, s')
    /\ task_title r = "b, revised"%string /\ task_status r = DONE
    /\ task_shape r = (31%nat, 20%nat, 2).
Proof.
  do 2 eexists. split; [vm_compute; reflexivity |].
  edestruct (updateTask_changes_named_fields as_alice 31 retitle_b board)
    as (old & Hold & _ & Hti & _ & _ & Hst & Hsh & _);
    [vm_compute; reflexivity |].
  vm_compute in Hold. injection Hold as <-.
  split; [exact (proj1 Hti) |]. split; [exact Hst | exact Hsh].
Defined.

(** ** Comments *)

Lemma gate_moves ctx p s s' :
  members s' = members s ->
  requireProjectMember ctx p s = (Ok tt, s) ->
  requireProjectMember ctx p s' = (Ok tt, s').
Proof.
  intros Hm H. rewrite requireProjectMember_run in *. unfold is_member in *.
  rewrite Hm. destruct (ctx_user ctx) as [u |]; [| discriminate H].
  destruct (Role_eqb (au_role u) ADMIN); [reflexivity |].
  destruct (existsb _ (members s)); [reflexivity | discriminate H].
Qed.

Lemma project_of_task_moves s s' taskId :
  tasks s' = tasks s -> columns s' = columns s ->
  project_of_task s' taskId = project_of_task s taskId.
Proof.
  intros Ht Hc. unfold project_of_task, project_of_column. now rewrite Ht, Hc.
Qed.

Lemma commentTask_ok ctx input s c s' :
  commentTask ctx input s = (Ok c, s') ->
  exists u p,
    ctx_user ctx = Some u
    /\ project_of_task s (cm_taskId input) = Some p
    /\ requireProjectMember ctx p s = (Ok tt, s)
    /\ c = {| comment_id := nextId s; comment_content := trim (cm_content input);
              comment_taskId := cm_taskId input; comment_authorId := au_id u |}
    /\ (1 <= String.length (trim (cm_content input)))%nat
    /\ comments s' = comments s ++ [c]
    /\ tasks s' = tasks s /\ columns s' = columns s /\ members s' = members s.
Proof.
  intros H. unfold commentTask in H. unfold_store_in H.
  repeat (break_in H; try discriminate H).
  all: inversion H; subst; clear H.
  all: repeat match goal with
              | Hs : Some _ = Some _ |- _ => injection Hs as <-
              end.
  all: do 2 eexists; split; [reflexivity |].
  all: split; [eapply project_of_task_find; eassumption |].
  all: split;
    [ rewrite requireProjectMember_run;
      match goal with Hu : ctx_user _ = Some _ |- _ => rewrite Hu end;
      first [ match goal with Hr : Role_eqb _ ADMIN = true |- _ => now rewrite Hr end
            | match goal with
              | Hr : Role_eqb _ ADMIN = false, Hm : find _ _ = Some _ |- _ =>
                  rewrite Hr; unfold is_member; now rewrite (find_existsb _ _ _ Hm)
              end ] |].
  all: split; [reflexivity |].
  all: split;
    [ match goal with Hl : (_ <? 1)%nat = false |- _ => now apply Nat.ltb_ge in Hl end |].
  all: repeat split; reflexivity.
Qed.

(** X12. A comment that [commentTask] accepts is stored with its text trimmed
    (and not blank), under the caller's id and the task's id, and
    [Query.comments] counts it from then on: the total of the task's comments
    has grown by one, and a first page large enough to hold them all
    contains the new comment. *)
Theorem new_comment_is_listed ctx input limit s c s' :
  commentTask ctx input s = (Ok c, s') ->
  1 <= limit <= 50 ->
  comment_content c = trim (cm_content input)
  /\ (1 <= String.length (comment_content c))%nat
  /\ comment_taskId c = cm_taskId input
  /\ (exists u, ctx_user ctx = Some u /\ comment_authorId c = au_id u)
  /\ exists before after,
       Query_comments ctx (cm_taskId input) 0 limit s = (Ok before, s)
       /\ Query_comments ctx (cm_taskId input) 0 limit s' = (Ok after, s')
       /\ total after = total before + 1
       /\ (total after <= limit -> In c (items after)).
Proof.
  intros H Hl. apply commentTask_ok in H.
  destruct H as (u & p & Hu & Hp & Hg & -> & Hlen & Hc & Ht & Hcol & Hm).
  cbn [comment_content comment_taskId comment_authorId].
  split; [reflexivity |]. split; [exact Hlen |]. split; [reflexivity |].
  split; [eauto |].
  assert (Hparse : forall z, parsePagination 0 limit z = (Ok (0, limit), z)).
  { intros z. unfold parsePagination.
    destruct (Z.leb_spec 1 limit); [| lia].
    destruct (Z.leb_spec limit 50); [| lia]. reflexivity. }
  assert (Hp' : project_of_task s' (cm_taskId input) = Some p)
    by (rewrite (project_of_task_moves s s'); auto).
  do 2 eexists.
  split.
  { unfold Query_comments.
    rewrite (bind_run _ _ _ _ _ (project_of_task_run _ _ _ Hp)).
    rewrite (bind_run _ _ _ _ _ Hg).
    rewrite (bind_run _ _ _ _ _ (Hparse s)). reflexivity. }
  split.
  { unfold Query_comments.
    rewrite (bind_run _ _ _ _ _ (project_of_task_run _ _ _ Hp')).
    rewrite (bind_run _ _ _ _ _ (gate_moves _ _ _ _ Hm Hg)).
    rewrite (bind_run _ _ _ _ _ (Hparse s')). reflexivity. }
  unfold paginate; cbn [total items fst snd]. rewrite Hc, filter_app. cbn [filter].
  cbn [comment_taskId]. rewrite Nat.eqb_refl, rev_app_distr. cbn [rev app].
  split.
  - cbn [List.length]. rewrite !length_rev. lia.
  - intros Hall. cbn [List.length] in Hall. change (Z.to_nat 0) with 0%nat.
    cbn [skipn]. rewrite firstn_all2; [now left |].
    cbn [List.length]. lia.
Qed.

Lemma new_comment_is_listed_witness :
  exists c s',
    commentTask as_alice {| cm_taskId := 30; cm_content := " first! "%string |} board
    = (Ok c, s')
    /\ comment_content c = "first!"%string
    /\ exists after,
         Query_comments as_alice 30 0 10 s' = (Ok after, s')
         /\ total after = 1 /\ In c (items after).
Proof.
  do 2 eexists. split; [vm_compute; reflexivity |].
  edestruct (new_comment_is_listed as_alice
               {| cm_taskId := 30; cm_content := " first! "%string |} 10 board)
    as (Hc & _ & _ & _ & before & after & Hb & Hq & Ht & Hin);
    [vm_compute; reflexivity | lia |].
  vm_compute in Hb. injection Hb as <-.
  split; [exact Hc |]. exists after. split; [exact Hq |].
  split; [exact Ht |]. apply Hin. rewrite Ht. vm_compute. discriminate.
Defined.

(** ** Labels on tasks *)

Section Sorting.

Context {A : Type} (le : A -> A -> bool).

Hypothesis le_total : forall a b, le a b = true \/ le b a = true.

Lemma insertBy_hd x y l :
  le y x = true -> HdRel (fun a b => le a b = true) y l ->
  HdRel (fun a b => le a b = true) y (insertBy le x l).
Proof.
  intros Hyx H. destruct l as [| z l]; simpl.
  - now constructor.
  - destruct (le x z); constructor; auto. now inversion H.
Qed.

Lemma insertBy_total x l :
  Sorted (fun a b => le a b = true) l ->
  Sorted (fun a b => le a b = true) (insertBy le x l).
Proof.
  induction l as [| y l IH]; simpl; intros H.
  - repeat constructor.
  - destruct (le x y) eqn:E.
    + constructor; auto.
    + inversion H as [| ? ? Hs Hh]; subst. constructor; auto.
      apply insertBy_hd; auto.
      destruct (le_total x y) as [Hxy | Hyx]; congruence.
Qed.

Lemma orderBy_is_sorted l : Sorted (fun a b => le a b = true) (orderBy le l).
Proof.
  induction l as [| x l IH]; simpl; [constructor | now apply insertBy_total].
Qed.

End Sorting.

Lemma linked_filter s t l :
  linked s t l
  = existsb (fun k => (tl_labelId k =? l)%nat)
      (filter (fun k => (tl_taskId k =? t)%nat) (taskLabels s)).
Proof.
  unfold linked. induction (taskLabels s) as [| k ks IH]; simpl; auto.
  unfold is_link at 1. destruct (tl_taskId k =? t)%nat; simpl; now rewrite IH.
Qed.

Lemma Task_labels_run t s :
  exists ls,
    Task_labels t s = (Ok ls, s)
    /\ Permutation ls
         (filter (fun l => linked s (task_id t) (label_id l)) (labels s))
    /\ (ls = []
        \/ ls = orderBy name_asc
                  (filter (fun l => linked s (task_id t) (label_id l)) (labels s))).
Proof.
  unfold Task_labels. unfold_store.
  set (links := filter (fun l => (tl_taskId l =? task_id t)%nat) (taskLabels s)).
  assert (Hf : forall l, linked s (task_id t) (label_id l)
                         = existsb (fun k => (tl_labelId k =? label_id l)%nat) links).
  { intros l. apply linked_filter. }
  destruct (Nat.eqb_spec (List.length links) 0) as [E | E].
  - exists []. split; [reflexivity |]. split; [| now left].
    apply length_zero_iff_nil in E.
    rewrite (filter_ext _ (fun _ => false)).
    + induction (labels s); simpl; auto.
    + intros l. now rewrite Hf, E.
  - eexists. split; [reflexivity |]. rewrite (filter_ext _ _ Hf). split.
    + apply orderBy_perm.
    + now right.
Qed.

(** X13. [Task.labels] returns exactly the labels attached to the task, each
    as often as the label table holds it and none other, ordered by name; it
    reads the store without writing. *)
Theorem Task_labels_lists_attached t s :
  exists ls,
    Task_labels t s = (Ok ls, s)
    /\ Permutation ls
         (filter (fun l => linked s (task_id t) (label_id l)) (labels s))
    /\ Sorted (fun a b => name_asc a b = true) ls.
Proof.
  destruct (Task_labels_run t s) as (ls & Hrun & Hperm & Hls).
  exists ls. split; [exact Hrun |]. split; [exact Hperm |].
  destruct Hls as [-> | ->]; [constructor |].
  apply orderBy_is_sorted. intros a b. apply String.leb_total.
Qed.

Ltac label_facts :=
  repeat match goal with
         | Hs : Some _ = Some _ |- _ => injection Hs as <-
         | H1 : ?x = Some ?a, H2 : ?x = Some ?b |- _ =>
             rewrite H1 in H2; injection H2 as <-
         end;
  do 2 eexists;
  split; [eapply project_of_task_find; eassumption |];
  split; [first [eassumption | reflexivity] |];
  split; [match goal with
          | Hn : negb (_ =? _)%nat = false |- _ =>
              apply negb_false_iff, Nat.eqb_eq in Hn; exact Hn
          end |];
  split; [first [eassumption | reflexivity] |];
  split; [reflexivity |]; split; [reflexivity |].

Lemma removeLabelFromTask_ok ctx taskId labelId s t s' :
  removeLabelFromTask ctx taskId labelId s = (Ok t, s') ->
  exists p label,
    project_of_task s taskId = Some p
    /\ find (fun l => (label_id l =? labelId)%nat) (labels s) = Some label
    /\ label_projectId label = p
    /\ find (fun r => (task_id r =? taskId)%nat) (tasks s) = Some t
    /\ tasks s' = tasks s /\ labels s' = labels s
    /\ taskLabels s'
       = filter (fun l => negb (is_link taskId labelId l)) (taskLabels s).
Proof.
  intros H. unfold removeLabelFromTask in H. unfold_store_in H.
  repeat (break_in H; try discriminate H).
  all: inversion H; subst; clear H.
  all: cbn [tasks set_activity set_nextId set_taskLabels] in *.
  all: label_facts; reflexivity.
Qed.

Lemma addLabelToTask_ok ctx taskId labelId s t s' :
  addLabelToTask ctx taskId labelId s = (Ok t, s') ->
  exists p label,
    project_of_task s taskId = Some p
    /\ find (fun l => (label_id l =? labelId)%nat) (labels s) = Some label
    /\ label_projectId label = p
    /\ find (fun r => (task_id r =? taskId)%nat) (tasks s) = Some t
    /\ tasks s' = tasks s /\ labels s' = labels s
    /\ ((linked s taskId labelId = true /\ taskLabels s' = taskLabels s)
        \/ (linked s taskId labelId = false
            /\ taskLabels s'
               = taskLabels s
                 ++ [{| tl_id := nextId s; tl_taskId := taskId; tl_labelId := labelId |}])).
Proof.
  intros H. unfold addLabelToTask in H. unfold_store_in H.
  repeat (break_in H; try discriminate H).
  all: inversion H; subst; clear H.
  all: cbn [tasks set_activity set_nextId set_taskLabels] in *.
  all: label_facts.
  all: first
    [ left; split; [unfold linked; eapply find_existsb; eassumption | reflexivity]
    | right; split; [| reflexivity]; unfold linked;
      match goal with
      | Hn : find (is_link _ _) _ = None |- _ =>
          destruct (existsb (is_link taskId labelId) (taskLabels s)) eqn:E; auto;
          apply existsb_find_some in E; destruct E as [k Hk]; congruence
      end ].
Qed.

Lemma is_link_other t l t' l' k :
  t' <> t \/ l' <> l -> is_link t l k = true -> is_link t' l' k = false.
Proof.
  unfold is_link. intros Hne H. apply andb_true_iff in H. destruct H as [Ht Hl].
  apply Nat.eqb_eq in Ht, Hl. apply andb_false_iff.
  destruct Hne as [Hne | Hne]; [left | right]; apply Nat.eqb_neq; congruence.
Qed.

Lemma linked_after_delete s t l t' l' :
  existsb (is_link t' l') (filter (fun k => negb (is_link t l k)) (taskLabels s))
  = if ((t' =? t)%nat && (l' =? l)%nat)%bool then false else linked s t' l'.
Proof.
  unfold linked. induction (taskLabels s) as [| k ks IH]; simpl.
  - now destruct ((t' =? t)%nat && (l' =? l)%nat)%bool.
  - destruct (is_link t l k) eqn:E; simpl; rewrite IH.
    + destruct (Nat.eqb_spec t' t) as [-> | Ht]; simpl.
      * destruct (Nat.eqb_spec l' l) as [-> | Hl]; simpl; auto.
        rewrite (is_link_other t l t l' k); auto.
      * rewrite (is_link_other t l t' l' k); auto.
    + destruct ((t' =? t)%nat && (l' =? l)%nat)%bool eqn:F; auto.
      apply andb_true_iff in F. destruct F as [Ft Fl].
      apply Nat.eqb_eq in Ft, Fl. subst. now rewrite E.
Qed.

Lemma found_task_id rows i t :
  find (fun r => (task_id r =? i)%nat) rows = Some t -> task_id t = i.
Proof. intros H. apply find_some in H. now apply Nat.eqb_eq. Qed.

(** X14. After a successful [addLabelToTask] the label is among the task's
    [Task.labels]; it is a label of the task's own project; the task row comes
    back as stored; and no other (task, label) pair gains or loses a link. *)
Theorem added_label_is_listed ctx taskId labelId s t s' :
  addLabelToTask ctx taskId labelId s = (Ok t, s') ->
  exists label ls,
    find (fun l => (label_id l =? labelId)%nat) (labels s) = Some label
    /\ project_of_task s taskId = Some (label_projectId label)
    /\ find (fun r => (task_id r =? taskId)%nat) (tasks s') = Some t
    /\ Task_labels t s' = (Ok ls, s')
    /\ In label ls
    /\ (forall t' l', t' <> taskId \/ l' <> labelId ->
          linked s' t' l' = linked s t' l').
Proof.
  intros H. apply addLabelToTask_ok in H.
  destruct H as (p & label & Hp & Hl & <- & Ht & Hts & Hls & Hlinks).
  destruct (Task_labels_run t s') as (ls & Hrun & Hperm & _).
  exists label, ls.
  split; [exact Hl |]. split; [exact Hp |].
  split; [now rewrite Hts |]. split; [exact Hrun |].
  assert (Hon : linked s' taskId labelId = true).
  { destruct Hlinks as [[Hon E] | [_ E]]; unfold linked in *; rewrite E; auto.
    rewrite existsb_app. simpl. unfold is_link. simpl.
    rewrite !Nat.eqb_refl. simpl. now rewrite orb_true_r. }
  split.
  - apply (Permutation_in _ (Permutation_sym Hperm)).
    apply filter_In. rewrite Hls. pose proof (find_some _ _ Hl) as [Hin Hid].
    split; [exact Hin |]. apply Nat.eqb_eq in Hid.
    rewrite (found_task_id _ _ _ Ht), Hid. exact Hon.
  - intros t' l' Hne. destruct Hlinks as [[_ E] | [_ E]]; unfold linked; rewrite E; auto.
    rewrite existsb_app. simpl.
    rewrite (is_link_other taskId labelId t' l'); auto.
    + now rewrite orb_false_r.
    + unfold is_link. simpl. now rewrite !Nat.eqb_refl.
Qed.

Lemma added_label_is_listed_witness :
  exists t s',
    addLabelToTask as_alice 30 40 board = (Ok t, s')
    /\ exists ls, Task_labels t s' = (Ok ls, s') /\ In bug_label ls.
Proof.
  do 2 eexists. split; [vm_compute; reflexivity |].
  edestruct (added_label_is_listed as_alice 30 40 board)
    as (label & ls & Hl & _ & _ & Hrun & Hin & _); [vm_compute; reflexivity |].
  vm_compute in Hl. injection Hl as <-.
  exists ls. split; [exact Hrun | exact Hin].
Defined.

Lemma removeLabelFromTask_effect ctx taskId labelId s t s' :
  removeLabelFromTask ctx taskId labelId s = (Ok t, s') ->
  linked s' taskId labelId = false
  /\ (forall t' l', t' <> taskId \/ l' <> labelId ->
        linked s' t' l' = linked s t' l')
  /\ (exists ls, Task_labels t s' = (Ok ls, s')
                 /\ forall l, In l ls -> label_id l <> labelId)
  /\ (linked s taskId labelId = false -> taskLabels s' = taskLabels s)
  /\ (forall ctx0 s0 t0,
        addLabelToTask ctx0 taskId labelId s0 = (Ok t0, s) ->
        linked s0 taskId labelId = false ->
        taskLabels s' = taskLabels s0).
Proof.
  intros H. apply removeLabelFromTask_ok in H.
  destruct H as (p & label & Hp & Hl & <- & Ht & Hts & Hls & Hlinks).
  assert (Hoff : linked s' taskId labelId = false).
  { unfold linked at 1. rewrite Hlinks, linked_after_delete.
    now rewrite !Nat.eqb_refl. }
  assert (Hkeep : forall rows,
             existsb (is_link taskId labelId) rows = false ->
             filter (fun k => negb (is_link taskId labelId k)) rows = rows).
  { induction rows as [| k ks IH]; simpl; auto.
    intros E. apply orb_false_iff in E. destruct E as [E1 E2].
    rewrite E1. simpl. now rewrite IH. }
  split; [exact Hoff |].
  split.
  { intros t' l' Hne. unfold linked at 1. rewrite Hlinks, linked_after_delete.
    destruct (Nat.eqb_spec t' taskId) as [-> | Hn]; simpl; auto.
    destruct (Nat.eqb_spec l' labelId) as [-> | Hn]; simpl; auto.
    destruct Hne; contradiction. }
  split.
  { destruct (Task_labels_run t s') as (ls & Hrun & Hperm & _).
    exists ls. split; [exact Hrun |].
    intros l Hin Hid. apply (Permutation_in _ Hperm) in Hin.
    apply filter_In in Hin. destruct Hin as [_ Hon].
    rewrite (found_task_id _ _ _ Ht), Hid in Hon. congruence. }
  split.
  { intros Hnot. rewrite Hlinks. now apply Hkeep. }
  intros ctx0 s0 t0 Hadd Hnot. apply addLabelToTask_ok in Hadd.
  destruct Hadd as (_ & _ & _ & _ & _ & _ & _ & _ & [[Hon _] | [_ E]]); [congruence |].
  rewrite Hlinks, E, filter_app. simpl. unfold is_link at 2. simpl.
  rewrite !Nat.eqb_refl. simpl. rewrite app_nil_r. now apply Hkeep.
Qed.

Lemma removeLabelFromTask_run ctx u p label taskId labelId s :
  can_label ctx u p label taskId labelId s ->
  exists task s', removeLabelFromTask ctx taskId labelId s = (Ok task, s').
Proof.
  intros (Hu & Hacc & Hgate & Htask & Hproj & Hlabel & Hsame).
  assert (Hfind : exists task,
             find (fun t => (task_id t =? taskId)%nat) (tasks s) = Some task).
  { unfold project_of_task in Htask. destruct (find _ (tasks s)); [eauto | discriminate]. }
  destruct Hfind as [task Hfind].
  assert (Hgate' : requireProjectMember ctx p s = (Ok tt, s)).
  { rewrite requireProjectMember_run, Hu.
    destruct Hgate as [-> | ->]; [reflexivity |]. now destruct (Role_eqb _ _). }
  set (s1 := set_taskLabels
               (filter (fun l => negb (is_link taskId labelId l)) (taskLabels s)) s).
  destruct (activityLog_create_run "LABEL_REMOVED_FROM_TASK" (au_id u) p (Some taskId)
              (JObject [("labelId"%string, JRef labelId)]) s1) as [row Hlog].
  { exact Hacc. }
  { exact Hproj. }
  { simpl. unfold task_exists. eapply find_existsb; eauto. }
  exists task. eexists.
  unfold removeLabelFromTask.
  rewrite (bind_run _ _ _ _ _ (project_of_task_run _ _ _ Htask)).
  rewrite (bind_run _ _ _ _ _ Hgate').
  unfold label_findUnique. erewrite bind_run by reflexivity. rewrite Hlabel.
  rewrite Hsame, Nat.eqb_refl. simpl. erewrite bind_run by reflexivity.
  unfold taskLabel_deleteMany. erewrite bind_run by reflexivity.
  unfold user_bang. rewrite Hu. erewrite bind_run by reflexivity.
  fold s1. rewrite (bind_run _ _ _ _ _ Hlog).
  unfold task_findUnique. erewrite bind_run by reflexivity.
  simpl. rewrite Hfind. reflexivity.
Qed.

(** X15. [removeLabelFromTask] succeeds for every caller who may label the
    task (an authenticated caller whose account exists, ADMIN or member of
    the task's project, with a label of that project), whether or not the
    label is attached.  Afterwards the label is not among the task's
    [Task.labels] and no other (task, label) pair has gained or lost a link.
    If the label was not attached the link table is as it was; if
    [addLabelToTask] had just attached it, the link table is the one from
    before the two calls. *)
Theorem removed_label_is_unlisted ctx u p label taskId labelId s :
  can_label ctx u p label taskId labelId s ->
  exists t s',
    removeLabelFromTask ctx taskId labelId s = (Ok t, s')
    /\ linked s' taskId labelId = false
    /\ (forall t' l', t' <> taskId \/ l' <> labelId ->
          linked s' t' l' = linked s t' l')
    /\ (exists ls, Task_labels t s' = (Ok ls, s')
                   /\ forall l, In l ls -> label_id l <> labelId)
    /\ (linked s taskId labelId = false -> taskLabels s' = taskLabels s)
    /\ (forall ctx0 s0 t0,
          addLabelToTask ctx0 taskId labelId s0 = (Ok t0, s) ->
          linked s0 taskId labelId = false ->
          taskLabels s' = taskLabels s0).
Proof.
  intros Hcan. destruct (removeLabelFromTask_run _ _ _ _ _ _ _ Hcan) as (t & s' & Hrun).
  exists t, s'. split; [exact Hrun |].
  now apply (removeLabelFromTask_effect ctx).
Qed.

Lemma removed_label_is_unlisted_witness :
  linked board 30 40 = false
  /\ (exists t s',
        removeLabelFromTask as_alice 30 40 board = (Ok t, s')
        /\ taskLabels s' = taskLabels board)
  /\ linked labelled_board 30 40 = true
  /\ (exists t s',
        removeLabelFromTask as_alice 30 40 labelled_board = (Ok t, s')
        /\ linked s' 30 40 = false
        /\ taskLabels s' = taskLabels board).
Proof.
  split; [reflexivity |].
  split.
  - destruct (removed_label_is_unlisted as_alice {| au_id := 1; au_role := USER |}
                10%nat bug_label 30%nat 40%nat board)
      as (t & s' & Hrun & _ & _ & _ & Hsame & _).
    { repeat split; try reflexivity. right. reflexivity. }
    exists t, s'. split; [exact Hrun | now apply Hsame].
  - split; [reflexivity |].
    destruct (removed_label_is_unlisted as_alice {| au_id := 1; au_role := USER |}
                10%nat bug_label 30%nat 40%nat labelled_board)
      as (t & s' & Hrun & Hoff & _ & _ & _ & Hback).
    { repeat split; try reflexivity. right. reflexivity. }
    exists t, s'. split; [exact Hrun |]. split; [exact Hoff |].
    eapply (Hback as_alice board); vm_compute; reflexivity.
Defined.

(** ** Invitations, from issue to acceptance *)








(** X17. With both addresses in ASCII, a pending invitation cannot be
    redeemed by a non-ADMIN account whose e-mail differs from the invited
    address (letter case apart): [acceptInvite] fails with FORBIDDEN and the
    store stays as it was, so the caller gains no membership and the
    invitation stays pending. *)
Theorem foreign_invitation_forbidden ctx u usr inv token s :
  ctx_user ctx = Some u -> au_role u = USER ->
  find (fun i => String.eqb (inv_token i) token) (invitations s) = Some inv ->
  inv_status inv = PENDING ->
  find (fun x => (user_id x =? au_id u)%nat) (users s) = Some usr ->
  ascii_text (user_email usr) = true ->
  ascii_text (inv_email inv) = true ->
  toLowerCase (user_email usr) <> toLowerCase (inv_email inv) ->
  acceptInvite ctx token s = (Err FORBIDDEN, s).
Proof.
  intros Hu Hr Hi Hst Husr _ _ Hmail.
  unfold acceptInvite. unfold_store. rewrite Hu, Hi, Hst. cbn.
  rewrite Husr, Hr. apply String.eqb_neq in Hmail. now rewrite Hmail.
Qed.

Lemma foreign_invitation_forbidden_witness :
  acceptInvite as_bob "tok-carol" board = (Err FORBIDDEN, board).
Proof.
  eapply (foreign_invitation_forbidden as_bob {| au_id := 3; au_role := USER |});
    [reflexivity | reflexivity | vm_compute; reflexivity | reflexivity
    | vm_compute; reflexivity | reflexivity | reflexivity | vm_compute; discriminate].
Defined.

(** ** What [moveTask] does to the other tasks *)

Lemma below_lt x p q l :
  In x l -> p <= task_position x -> task_position x < q -> p <= q ->
  (below p l < below q l)%nat.
Proof.
  unfold below. induction l as [| y l IH]; simpl; [tauto |].
  intros Hin Hp Hq Hpq.
  assert (Hle : (below p l <= below q l)%nat).
  { unfold below. clear IH Hin. induction l as [| z l IH]; simpl; auto.
    destruct (Z.ltb_spec (task_position z) p), (Z.ltb_spec (task_position z) q);
      simpl; lia. }
  unfold below in Hle.
  destruct Hin as [-> | Hin].
  - destruct (Z.ltb_spec (task_position x) p), (Z.ltb_spec (task_position x) q);
      simpl; lia.
  - specialize (IH Hin Hp Hq Hpq).
    destruct (Z.ltb_spec (task_position y) p), (Z.ltb_spec (task_position y) q);
      simpl; lia.
Qed.

Section MovedOrder.

Variable input : MoveTaskInput.

Variable rows : list Task.

Variable task : Task.

Hypothesis rows_keys : NoDup (map task_id rows).

Hypothesis task_row : find (fun t => (task_id t =? mt_taskId input)%nat) rows = Some task.

Hypothesis columns_distinct :
  forall c, NoDup (map task_position (filter (in_column c) rows)).

Lemma placed_column r :
  task_columnId (place input r)
  = if (task_id r =? mt_taskId input)%nat then mt_toColumnId input else task_columnId r.
Proof.
  destruct (Nat.eqb_spec (task_id r) (mt_taskId input)) as [E | E].
  - apply (place_moved input r E).
  - apply (place_other input r E).
Qed.

Lemma placed_spot r :
  task_position (place input r)
  = if (task_id r =? mt_taskId input)%nat then mt_toPosition input
    else if in_column (mt_toColumnId input) r
         then shift_from (mt_toPosition input) (task_position r)
         else task_position r.
Proof.
  destruct (Nat.eqb_spec (task_id r) (mt_taskId input)) as [E | E].
  - apply (place_moved input r E).
  - apply (place_other input r E).
Qed.

Lemma shift_from_lt p a b : a < b -> shift_from p a < shift_from p b.
Proof.
  unfold shift_from. destruct (Z.leb_spec p a), (Z.leb_spec p b); lia.
Qed.

Lemma shift_from_inj p a b : shift_from p a = shift_from p b -> a = b.
Proof.
  unfold shift_from. destruct (Z.leb_spec p a), (Z.leb_spec p b); lia.
Qed.

Lemma shift_from_not p a : shift_from p a <> p.
Proof. unfold shift_from. destruct (Z.leb_spec p a); lia. Qed.

Lemma placed_distinct c :
  NoDup (map task_position (filter (in_column c) (placed input rows))).
Proof.
  unfold placed.
  rewrite (filter_map_commute (place input) (in_column c)
             (fun r => in_column c (place input r))) by reflexivity.
  rewrite map_map. apply Injective_map_NoDup_in.
  - intros a b Ha Hb. apply filter_In in Ha, Hb.
    destruct Ha as [Ha Hca], Hb as [Hb Hcb].
    unfold in_column in Hca, Hcb. rewrite placed_column in Hca, Hcb.
    rewrite !placed_spot. unfold in_column.
    destruct (Nat.eqb_spec (task_id a) (mt_taskId input)) as [Ea | Ea],
             (Nat.eqb_spec (task_id b) (mt_taskId input)) as [Eb | Eb].
    + intros _. apply (NoDup_map_inj task_id rows); auto. congruence.
    + apply Nat.eqb_eq in Hca, Hcb. rewrite Hcb, Hca, Nat.eqb_refl.
      intros E. symmetry in E. now apply shift_from_not in E.
    + apply Nat.eqb_eq in Hca, Hcb. rewrite Hcb, Hca, Nat.eqb_refl.
      intros E. now apply shift_from_not in E.
    + intros E. apply Nat.eqb_eq in Hca, Hcb.
      assert (Hpos : task_position a = task_position b).
      { rewrite Hca, Hcb in E.
        destruct (c =? mt_toColumnId input)%nat; auto. now apply shift_from_inj in E. }
      apply (NoDup_map_inj task_position (filter (in_column c) rows)); auto.
      * apply filter_In. split; auto. unfold in_column. now apply Nat.eqb_eq.
      * apply filter_In. split; auto. unfold in_column. now apply Nat.eqb_eq.
  - eapply NoDup_map_rows, NoDup_filter_keys, rows_keys.
Qed.

Lemma final_rows :
  moved_rows input (task_columnId task) rows
  = map (fun r => renumber_row (source_ids (task_columnId task) (placed input rows)) 0
                    (place input r)) rows.
Proof.
  rewrite (moved_rows_placed input rows task).
  rewrite renumber_rows_spec.
  - unfold placed at 2. now rewrite map_map.
  - apply source_ids_NoDup. now rewrite placed_keys.
Qed.

Lemma final_column ids r :
  task_columnId (renumber_row ids 0 (place input r)) = task_columnId (place input r).
Proof.
  unfold renumber_row. destruct (index_of _ ids); reflexivity.
Qed.

Lemma final_key ids r : task_id (renumber_row ids 0 (place input r)) = task_id r.
Proof.
  unfold renumber_row. destruct (index_of _ ids); cbn; apply place_key.
Qed.

Lemma final_elsewhere r :
  In r rows -> task_columnId (place input r) <> task_columnId task ->
  renumber_row (source_ids (task_columnId task) (placed input rows)) 0 (place input r)
  = place input r.
Proof.
  intros Hr Hc. unfold renumber_row. rewrite index_of_notin; auto.
  intros Hi. apply source_ids_column in Hi.
  - unfold in_column in Hi. apply Nat.eqb_eq in Hi. contradiction.
  - now rewrite placed_keys.
  - unfold placed. now apply in_map.
Qed.

Lemma final_in_source r :
  In r rows -> task_columnId (place input r) = task_columnId task ->
  task_position
    (renumber_row (source_ids (task_columnId task) (placed input rows)) 0 (place input r))
  = Z.of_nat (below (task_position (place input r))
                (filter (in_column (task_columnId task)) (placed input rows))) + 1.
Proof.
  intros Hr Hc.
  assert (Hk : NoDup (map task_id (placed input rows))) by now rewrite placed_keys.
  assert (Hin : In (place input r)
                  (orderBy position_asc
                     (filter (in_column (task_columnId task)) (placed input rows)))).
  { apply (Permutation_in _ (Permutation_sym (orderBy_perm _ _))).
    apply filter_In. split.
    - unfold placed. now apply in_map.
    - unfold in_column. now apply Nat.eqb_eq. }
  pose proof (sorted_index _ (orderBy_sorted
                                (filter (in_column (task_columnId task))
                                   (placed input rows)))) as Hidx.
  specialize (Hidx (Permutation_NoDup
                      (Permutation_map _ (Permutation_sym (orderBy_perm _ _)))
                      (placed_distinct _))).
  specialize (Hidx (source_ids_NoDup _ _ Hk) _ Hin).
  unfold renumber_row, source_ids. rewrite Hidx. cbn.
  now rewrite (below_perm _ _ _ (orderBy_perm _ _)).
Qed.

Lemma found_in_rows i r :
  find (fun t => (task_id t =? i)%nat) rows = Some r -> In r rows /\ task_id r = i.
Proof. intros H. apply find_some in H. now rewrite Nat.eqb_eq in H. Qed.

Lemma find_final i :
  find (fun t => (task_id t =? i)%nat) (moved_rows input (task_columnId task) rows)
  = option_map
      (fun r => renumber_row (source_ids (task_columnId task) (placed input rows)) 0
                  (place input r))
      (find (fun t => (task_id t =? i)%nat) rows).
Proof.
  rewrite final_rows. apply find_map_key. intros r. apply final_key.
Qed.

Lemma moved_rows_order i j a b :
  i <> mt_taskId input -> j <> mt_taskId input ->
  find (fun t => (task_id t =? i)%nat) rows = Some a ->
  find (fun t => (task_id t =? j)%nat) rows = Some b ->
  task_columnId a = task_columnId b ->
  task_position a < task_position b ->
  exists a' b',
    find (fun t => (task_id t =? i)%nat) (moved_rows input (task_columnId task) rows)
    = Some a'
    /\ find (fun t => (task_id t =? j)%nat) (moved_rows input (task_columnId task) rows)
       = Some b'
    /\ task_columnId a' = task_columnId a
    /\ task_columnId b' = task_columnId b
    /\ task_position a' < task_position b'.
Proof.
  intros Hi Hj Ha Hb Hcol Hlt.
  destruct (found_in_rows _ _ Ha) as [Hina Hida].
  destruct (found_in_rows _ _ Hb) as [Hinb Hidb].
  rewrite !find_final, Ha, Hb. cbn. do 2 eexists.
  split; [reflexivity |]. split; [reflexivity |].
  rewrite !final_column, !placed_column.
  destruct (Nat.eqb_spec (task_id a) (mt_taskId input)) as [E | _]; [congruence |].
  destruct (Nat.eqb_spec (task_id b) (mt_taskId input)) as [E | _]; [congruence |].
  split; [reflexivity |]. split; [reflexivity |].
  assert (Hca : task_columnId (place input a) = task_columnId a).
  { rewrite placed_column. destruct (Nat.eqb_spec (task_id a) (mt_taskId input));
      [congruence | reflexivity]. }
  assert (Hcb : task_columnId (place input b) = task_columnId b).
  { rewrite placed_column. destruct (Nat.eqb_spec (task_id b) (mt_taskId input));
      [congruence | reflexivity]. }
  assert (Hplaced : task_position (place input a) < task_position (place input b)).
  { rewrite !placed_spot.
    destruct (Nat.eqb_spec (task_id a) (mt_taskId input)); [congruence |].
    destruct (Nat.eqb_spec (task_id b) (mt_taskId input)); [congruence |].
    unfold in_column. rewrite Hcol.
    destruct (task_columnId b =? mt_toColumnId input)%nat; auto.
    now apply shift_from_lt. }
  destruct (Nat.eq_dec (task_columnId a) (task_columnId task)) as [Hsrc | Hsrc].
  - rewrite !final_in_source; auto; try congruence.
    assert (Hl : (below (task_position (place input a))
                    (filter (in_column (task_columnId task)) (placed input rows))
                  < below (task_position (place input b))
                      (filter (in_column (task_columnId task)) (placed input rows)))%nat).
    { apply (below_lt (place input a)); try lia.
      apply filter_In. split.
      - unfold placed. now apply in_map.
      - unfold in_column. apply Nat.eqb_eq. congruence. }
    lia.
  - rewrite !final_elsewhere; auto; congruence.
Qed.

End MovedOrder.

(** X18. [moveTask] never reorders the tasks it does not move: two other
    tasks of one column stay in their column and keep their relative order,
    whatever the target position and whatever the outcome of the call.  It
    needs unique task keys and pairwise distinct positions inside each column;
    the positions need not be contiguous. *)
Theorem moveTask_keeps_order_of_others ctx input s r s' i j a b :
  NoDup (map task_id (tasks s)) ->
  (forall c, NoDup (task_positions c s)) ->
  moveTask ctx input s = (r, s') ->
  i <> mt_taskId input -> j <> mt_taskId input ->
  find (fun t => (task_id t =? i)%nat) (tasks s) = Some a ->
  find (fun t => (task_id t =? j)%nat) (tasks s) = Some b ->
  task_columnId a = task_columnId b ->
  task_position a < task_position b ->
  exists a' b',
    find (fun t => (task_id t =? i)%nat) (tasks s') = Some a'
    /\ find (fun t => (task_id t =? j)%nat) (tasks s') = Some b'
    /\ task_columnId a' = task_columnId a
    /\ task_columnId b' = task_columnId b
    /\ task_position a' < task_position b'.
Proof.
  intros Hk Hd Hrun Hi Hj Ha Hb Hc Hlt.
  apply moveTask_effect in Hrun.
  destruct Hrun as (_ & _ & _ & [E | (task & Hf & _ & E)]); rewrite E.
  - exists a, b. auto.
  - apply moved_rows_order; auto.
Qed.

Lemma moveTask_keeps_order_of_others_witness :
  exists r s',
    moveTask as_alice move_a_last board = (r, s')
    /\ exists b' c',
         find (fun t => (task_id t =? 31)%nat) (tasks s') = Some b'
         /\ find (fun t => (task_id t =? 32)%nat) (tasks s') = Some c'
         /\ task_position b' < task_position c'.
Proof.
  do 2 eexists. split; [vm_compute; reflexivity |].
  edestruct (moveTask_keeps_order_of_others as_alice move_a_last board)
    with (i := 31%nat) (j := 32%nat)
    as (b' & c' & Hb & Hc & _ & _ & Hlt);
    [ exact (valid_task_ids _ board_valid)
    | intros c; exact (proj1 (proj2 (valid_positions _ board_valid) c))
    | vm_compute; reflexivity | discriminate | discriminate
    | vm_compute; reflexivity | vm_compute; reflexivity | reflexivity | reflexivity |].
  exists b', c'. auto.
Defined.

Lemma filter_filter {A} (f g : A -> bool) l :
  filter f (filter g l) = filter (fun x => (g x && f x)%bool) l.
Proof.
  induction l as [| x l IH]; simpl; auto.
  destruct (g x); simpl; [destruct (f x) |]; now rewrite IH.
Qed.

Section AcrossColumns.

Variable input : MoveTaskInput.

Variable rows : list Task.

Variable task : Task.

Hypothesis rows_keys : NoDup (map task_id rows).

Hypothesis task_row : find (fun t => (task_id t =? mt_taskId input)%nat) rows = Some task.

Hypothesis across : task_columnId task <> mt_toColumnId input.

Hypothesis columns_ok :
  forall c, contiguous (map task_position (filter (in_column c) rows)).

Lemma source_without_task :
  filter (in_column (task_columnId task)) (placed input rows)
  = filter (fun r => (negb (task_id r =? task_id task)%nat
                      && in_column (task_columnId task) r)%bool) rows.
Proof.
  destruct (task_in_rows input rows task task_row) as [_ Hid].
  unfold placed.
  rewrite (filter_map_commute (place input) (in_column (task_columnId task))
             (fun r => (negb (task_id r =? task_id task)%nat
                        && in_column (task_columnId task) r)%bool)).
  - rewrite <- (map_id (filter _ rows)) at 2. apply map_ext_in.
    intros r Hr. apply filter_In in Hr. destruct Hr as [_ Hq].
    apply andb_true_iff in Hq. destruct Hq as [Hn Hc].
    apply negb_true_iff, Nat.eqb_neq in Hn. rewrite Hid in Hn.
    apply place_fixed; auto. unfold in_column in *.
    apply Nat.eqb_eq in Hc. apply Nat.eqb_neq. congruence.
  - intros r _. unfold in_column. rewrite placed_column, Hid.
    destruct (Nat.eqb_spec (task_id r) (mt_taskId input)); simpl; auto.
    apply Nat.eqb_neq. congruence.
Qed.

Lemma source_below r :
  In r rows -> in_column (task_columnId task) r = true ->
  Z.of_nat (below (task_position r)
              (filter (in_column (task_columnId task)) (placed input rows)))
  = task_position r - 1 - (if task_position task <? task_position r then 1 else 0).
Proof.
  intros Hr Hc.
  destruct (task_in_rows input rows task task_row) as [Hin _].
  unfold below. rewrite source_without_task, filter_filter.
  pose proof (count_without
                (fun x => (in_column (task_columnId task) x
                           && (task_position x <? task_position r))%bool)
                task rows rows_keys Hin) as Hcount.
  unfold in_column at 2 in Hcount. rewrite Nat.eqb_refl in Hcount. simpl in Hcount.
  assert (Hpos : In (task_position r)
                   (map task_position (filter (in_column (task_columnId task)) rows))).
  { apply in_map, filter_In. auto. }
  pose proof (contiguous_below _ (task_position r) (columns_ok (task_columnId task)))
    as Hbelow.
  apply (proj2 (columns_ok (task_columnId task))) in Hpos. specialize (Hbelow ltac:(lia)).
  rewrite (filter_map_commute task_position (fun z => z <? task_position r)
             (fun x => task_position x <? task_position r)) in Hbelow by reflexivity.
  rewrite length_map, filter_filter in Hbelow.
  erewrite (filter_ext _ (fun x => (negb (task_id x =? task_id task)%nat
                                    && (in_column (task_columnId task) x
                                        && (task_position x <? task_position r)))%bool)).
  2:{ intros x. now rewrite andb_assoc. }
  destruct (task_position task <? task_position r); lia.
Qed.

Lemma across_columns_rows :
  (exists stored,
     find (fun t => (task_id t =? mt_taskId input)%nat)
       (moved_rows input (task_columnId task) rows) = Some stored
     /\ task_columnId stored = mt_toColumnId input
     /\ task_position stored = mt_toPosition input)
  /\ forall i r,
       i <> mt_taskId input ->
       find (fun t => (task_id t =? i)%nat) rows = Some r ->
       exists r',
         find (fun t => (task_id t =? i)%nat)
           (moved_rows input (task_columnId task) rows) = Some r'
         /\ task_columnId r' = task_columnId r
         /\ task_position r'
            = if in_column (mt_toColumnId input) r
              then shift_from (mt_toPosition input) (task_position r)
              else if (in_column (task_columnId task) r
                       && (task_position task <? task_position r))%bool
                   then task_position r - 1
                   else task_position r.
Proof.
  destruct (task_in_rows input rows task task_row) as [Hin Hid].
  split.
  - rewrite (find_final input rows task rows_keys), task_row. cbn.
    eexists. split; [reflexivity |].
    assert (Hc : task_columnId (place input task) = mt_toColumnId input)
      by apply (place_moved input task Hid).
    rewrite final_elsewhere by (first [assumption | congruence]).
    split; [exact Hc | apply (place_moved input task Hid)].
  - intros i r Hi Hf. destruct (found_in_rows rows i r Hf) as [Hr Hir].
    rewrite (find_final input rows task rows_keys), Hf. cbn.
    eexists. split; [reflexivity |].
    assert (Hne : task_id r <> mt_taskId input) by congruence.
    destruct (place_other input r Hne) as [Hc Hp].
    rewrite final_column. split; [exact Hc |].
    destruct (in_column (mt_toColumnId input) r) eqn:Hto.
    + unfold in_column in Hto. apply Nat.eqb_eq in Hto.
      rewrite final_elsewhere by (first [assumption | congruence]).
      exact Hp.
    + destruct (in_column (task_columnId task) r) eqn:Hfrom; simpl.
      * assert (Hfix : place input r = r) by now apply place_fixed.
        unfold in_column in Hfrom. apply Nat.eqb_eq in Hfrom.
        rewrite final_in_source; auto; [| | congruence].
        -- rewrite Hfix, source_below; auto.
           ++ destruct (task_position task <? task_position r); lia.
           ++ unfold in_column. now apply Nat.eqb_eq.
        -- intros c. apply (columns_ok c).
      * unfold in_column in Hfrom. apply Nat.eqb_neq in Hfrom.
        rewrite final_elsewhere by (first [assumption | congruence]).
        exact Hp.
Qed.

End AcrossColumns.

(** X19. A successful [moveTask] into another column stores the task in the
    target column at exactly the requested position, as the response says.  In
    the target column the tasks at or after that position move one place
    down; in the source column the tasks after the moved one move one place
    up; every other task keeps its column and position. *)
Theorem moveTask_across_columns ctx input s moved s' task :
  NoDup (map task_id (tasks s)) ->
  (forall c, contiguous (task_positions c s)) ->
  find (fun t => (task_id t =? mt_taskId input)%nat) (tasks s) = Some task ->
  task_columnId task <> mt_toColumnId input ->
  moveTask ctx input s = (Ok moved, s') ->
  task_shape moved = (mt_taskId input, mt_toColumnId input, mt_toPosition input)
  /\ (exists stored,
        find (fun t => (task_id t =? mt_taskId input)%nat) (tasks s') = Some stored
        /\ task_shape stored = task_shape moved)
  /\ forall i r,
       i <> mt_taskId input ->
       find (fun t => (task_id t =? i)%nat) (tasks s) = Some r ->
       exists r',
         find (fun t => (task_id t =? i)%nat) (tasks s') = Some r'
         /\ task_columnId r' = task_columnId r
         /\ task_position r'
            = if in_column (mt_toColumnId input) r
              then shift_from (mt_toPosition input) (task_position r)
              else if (in_column (task_columnId task) r
                       && (task_position task <? task_position r))%bool
                   then task_position r - 1
                   else task_position r.
Proof.
  intros Hk Hok Hf Hne Hrun. apply moveTask_cases in Hrun.
  destruct Hrun as [[_ [e [He _]]]
                   | (task' & u & Hf' & _ & _ & Ht & _ & _ & _ & _ & _ & _ & _ & _ & Hlog)];
    [discriminate |].
  rewrite Hf in Hf'. injection Hf' as <-.
  destruct Hlog as [(m & row & Hm & Hid & Hcol & Hpos & _) | [He _]]; [| discriminate].
  injection Hm as <-.
  assert (Hshape : task_shape moved
                   = (mt_taskId input, mt_toColumnId input, mt_toPosition input))
    by (unfold task_shape; now rewrite Hid, Hcol, Hpos).
  destruct (across_columns_rows input (tasks s) task Hk Hf Hne Hok)
    as [(stored & Hs & Hsc & Hsp) Hothers].
  rewrite Ht. split; [exact Hshape |]. split; [| exact Hothers].
  exists stored. split; [exact Hs |]. rewrite Hshape. unfold task_shape.
  now rewrite (found_task_id _ _ _ Hs), Hsc, Hsp.
Qed.

Lemma moveTask_across_columns_witness :
  exists moved s',
    moveTask as_alice move_a_across board = (Ok moved, s')
    /\ task_shape moved = (mt_taskId move_a_across, mt_toColumnId move_a_across,
                           mt_toPosition move_a_across)
    /\ exists b', find (fun t => (task_id t =? 31)%nat) (tasks s') = Some b'
                  /\ task_position b' = 1.
Proof.
  do 2 eexists. split; [vm_compute; reflexivity |].
  edestruct (moveTask_across_columns as_alice move_a_across board)
    as (Hshape & _ & Hothers);
    [ exact (valid_task_ids _ board_valid)
    | intros c; exact (proj2 (valid_positions _ board_valid) c)
    | vm_compute; reflexivity | vm_compute; discriminate
    | vm_compute; reflexivity |].
  split; [exact Hshape |].
  destruct (Hothers 31%nat (newTask 31 "b" 2 20 1)) as (b' & Hb & _ & Hp);
    [discriminate | vm_compute; reflexivity |].
  exists b'. split; [exact Hb | exact Hp].
Defined.

(** ** Creating tasks and columns *)

Lemma createTask_ok ctx input s t s' :
  createTask ctx input s = (Ok t, s') ->
  exists u,
    ctx_user ctx = Some u
    /\ t = {| task_id := nextId s; task_title := trim (ct_title input);
              task_description := trimOrNull (ct_description input);
              task_dueDate := ct_dueDate input;
              task_position := last_position (ct_columnId input) s + 1;
              task_status := TODO; task_columnId := ct_columnId input;
              task_creatorId := au_id u; task_assigneeId := ct_assigneeId input |}
    /\ (1 <= String.length (trim (ct_title input)))%nat
    /\ tasks s' = tasks s ++ [t].
Proof.
  intros H. unfold createTask in H. unfold_store_in H.
  repeat (break_in H; try discriminate H).
  all: inversion H; subst; clear H.
  all: repeat match goal with
              | Hs : Some _ = Some _ |- _ => injection Hs as <-
              end.
  all: eexists; split; [reflexivity |].
  all: unfold last_position;
    match goal with Hh : hd_error _ = _ |- _ => rewrite Hh end.
  all: split; [reflexivity |].
  all: split; [| reflexivity].
  all: match goal with Hl : (_ <? 1)%nat = false |- _ => now apply Nat.ltb_ge in Hl end.
Qed.

Lemma last_position_max c s r :
  In r (tasks s) -> task_columnId r = c -> task_position r <= last_position c s.
Proof.
  intros Hr Hc. unfold last_position.
  pose proof (orderBy_desc_hd (filter (fun t => (task_columnId t =? c)%nat) (tasks s)))
    as Hhd.
  assert (Hin : In r (filter (fun t => (task_columnId t =? c)%nat) (tasks s))).
  { apply filter_In. split; auto. now apply Nat.eqb_eq. }
  destruct (hd_error _) as [t |].
  - now apply Hhd.
  - rewrite Hhd in Hin. destruct Hin.
Qed.

(** X20. A task accepted by [createTask] is appended to the task table under
    the value of the key counter, with status TODO, the caller as creator, the
    trimmed (non-blank) title, and a position after every task already in the
    column; if the column's positions were 1..n the new task gets n+1.  In a
    store whose task keys are unique and below the key counter, the key is
    one no stored task has, and task keys stay unique. *)
Theorem createTask_appends_last ctx input s t s' :
  createTask ctx input s = (Ok t, s') ->
  tasks s' = tasks s ++ [t]
  /\ task_id t = nextId s
  /\ task_columnId t = ct_columnId input
  /\ task_status t = TODO
  /\ task_title t = trim (ct_title input)
  /\ (1 <= String.length (task_title t))%nat
  /\ task_assigneeId t = ct_assigneeId input
  /\ (exists u, ctx_user ctx = Some u /\ task_creatorId t = au_id u)
  /\ (forall r, In r (tasks s) -> task_columnId r = ct_columnId input ->
        task_position r < task_position t)
  /\ (contiguous (task_positions (ct_columnId input) s) ->
      task_position t
      = Z.of_nat (List.length (task_positions (ct_columnId input) s)) + 1)
  /\ (keyed s ->
      ~ In (task_id t) (map task_id (tasks s))
      /\ NoDup (map task_id (tasks s'))).
Proof.
  intros H. apply createTask_ok in H. destruct H as (u & Hu & -> & Hl & Ht).
  cbn [task_id task_columnId task_status task_title task_assigneeId task_creatorId
         task_position].
  split; [exact Ht |]. do 4 (split; [reflexivity |]). split; [exact Hl |].
  split; [reflexivity |]. split; [eauto |]. split; [| split].
  - intros r Hr Hc. pose proof (last_position_max _ s r Hr Hc). lia.
  - intros Hok. now rewrite last_position_contiguous.
  - intros [Hnd Hlt].
    assert (Hnew : ~ In (nextId s) (map task_id (tasks s))).
    { intros Hin. rewrite Forall_forall in Hlt. specialize (Hlt _ Hin). lia. }
    split; [exact Hnew |].
    rewrite Ht, map_app. cbn [map task_id].
    apply NoDup_app; [exact Hnd | repeat constructor; intros [] |].
    intros k Hk [<- | []]. now apply Hnew.
Qed.

Lemma createTask_appends_last_witness :
  exists t s',
    createTask as_alice task_d board = (Ok t, s')
    /\ task_position t = 1 /\ task_status t = TODO
    /\ ~ In (task_id t) (map task_id (tasks board)).
Proof.
  do 2 eexists. split; [vm_compute; reflexivity |].
  edestruct (createTask_appends_last as_alice task_d board)
    as (_ & _ & _ & Hst & _ & _ & _ & _ & _ & Hpos & Hkey); [vm_compute; reflexivity |].
  split; [| split; [exact Hst |]].
  - rewrite Hpos; [reflexivity |].
    exact (proj2 (valid_positions _ board_valid) _).
  - apply Hkey. split.
    + repeat constructor; simpl; intuition discriminate.
    + repeat constructor; simpl; lia.
Defined.

(** X21. A successful [createColumn] appends a column under the value of the
    key counter, which no stored column has as key when every stored column
    key is below the counter, with the trimmed (non-blank) title and exactly
    the requested position, which is at least 1.  Every existing column keeps
    its key, title and project; the
    columns of the same project at or after the requested position move one
    place down, so existing columns keep their relative order; columns of
    other projects and all tasks are untouched. *)
Theorem createColumn_inserts_in_place ctx input s col s' :
  createColumn ctx input s = (Ok col, s') ->
  column_id col = nextId s
  /\ column_projectId col = cc_projectId input
  /\ column_position col = cc_position input
  /\ 1 <= column_position col
  /\ column_title col = trim (cc_title input)
  /\ (1 <= String.length (column_title col))%nat
  /\ tasks s' = tasks s
  /\ (Forall (fun c => (column_id c < nextId s)%nat) (columns s) ->
      ~ In (column_id col) (map column_id (columns s)))
  /\ exists old,
       columns s' = old ++ [col]
       /\ Forall2
            (fun c c' =>
               column_id c' = column_id c
               /\ column_title c' = column_title c
               /\ column_projectId c' = column_projectId c
               /\ column_position c'
                  = if (column_projectId c =? cc_projectId input)%nat
                    then shift_from (cc_position input) (column_position c)
                    else column_position c)
            (columns s) old.
Proof.
  intros H. apply createColumn_ok in H. destruct H as (-> & Hl & Hp & Hc & Ht).
  cbn [column_id column_projectId column_position column_title].
  do 3 (split; [reflexivity |]). split; [exact Hp |].
  split; [reflexivity |]. split; [exact Hl |]. split; [exact Ht |].
  split.
  { intros Hlt Hin. apply in_map_iff in Hin. destruct Hin as (c & Hk & Hin).
    rewrite Forall_forall in Hlt. specialize (Hlt _ Hin). lia. }
  eexists. split; [exact Hc |]. clear Hc.
  unfold shifted_columns, updateWhere, shift_from.
  induction (columns s) as [| c l IH]; simpl; constructor; auto.
  destruct (column_projectId c =? cc_projectId input)%nat; simpl; auto.
  destruct (cc_position input <=? column_position c); simpl; auto.
Qed.

Lemma createColumn_inserts_in_place_witness :
  exists col s',
    createColumn as_alice column_at_two board = (Ok col, s')
    /\ column_position col = 2
    /\ column_positions 10 s' = [1; 3; 4; 2]
    /\ ~ In (column_id col) (map column_id (columns board)).
Proof.
  do 2 eexists. split; [vm_compute; reflexivity |].
  edestruct (createColumn_inserts_in_place as_alice column_at_two board)
    as (_ & _ & Hpos & _ & _ & _ & _ & Hkey & _); [vm_compute; reflexivity |].
  split; [exact Hpos |]. split; [reflexivity |].
  apply Hkey. repeat constructor; simpl; lia.
Defined.

(** ** Reading one project *)

(** X22. [Query.project] returns the stored project with the requested key to
    an ADMIN and to every member of it, and returns nothing else.  A key that
    names no project gives NOT_FOUND to an ADMIN but FORBIDDEN to everybody
    else, exactly as an existing project of which the caller is no member. *)
Theorem Query_project_outcomes ctx u projectId s :
  sound s -> ctx_user ctx = Some u ->
  (forall p s', Query_project ctx projectId s = (Ok p, s') ->
     s' = s /\ project_id p = projectId /\ In p (projects s)
     /\ (au_role u = ADMIN \/ is_member s projectId (au_id u) = true))
  /\ (project_exists s projectId = true ->
      au_role u = ADMIN \/ is_member s projectId (au_id u) = true ->
      exists p, Query_project ctx projectId s = (Ok p, s))
  /\ (project_exists s projectId = false ->
      Query_project ctx projectId s
      = (Err (if Role_eqb (au_role u) ADMIN then NOT_FOUND else FORBIDDEN), s)).
Proof.
  intros Hs Hu.
  assert (Hrun : Query_project ctx projectId s
                 = if (Role_eqb (au_role u) ADMIN || is_member s projectId (au_id u))%bool
                   then match find (fun p => (project_id p =? projectId)%nat) (projects s) with
                        | Some p => (Ok p, s)
                        | None => (Err NOT_FOUND, s)
                        end
                   else (Err FORBIDDEN, s)).
  { unfold Query_project.
    destruct (Role_eqb (au_role u) ADMIN || is_member s projectId (au_id u))%bool eqn:E.
    - rewrite (bind_run _ _ s tt s).
      + unfold_store. now destruct (find _ (projects s)).
      + rewrite requireProjectMember_run, Hu.
        destruct (Role_eqb (au_role u) ADMIN); [reflexivity |].
        simpl in E. now rewrite E.
    - apply orb_false_iff in E. destruct E as [E1 E2].
      apply bind_fail. now rewrite requireProjectMember_run, Hu, E1, E2. }
  split; [| split].
  - intros p s' H. rewrite Hrun in H.
    destruct (Role_eqb (au_role u) ADMIN || is_member s projectId (au_id u))%bool eqn:E;
      [| discriminate].
    destruct (find _ (projects s)) as [q |] eqn:F; [| discriminate].
    inversion H; subst. apply find_some in F. destruct F as [Hin Hid].
    apply Nat.eqb_eq in Hid. repeat split; auto.
    apply orb_true_iff in E. destruct E as [E | E]; [left | now right].
    now destruct (au_role u).
  - intros Hex Hmay. rewrite Hrun.
    assert (E : (Role_eqb (au_role u) ADMIN || is_member s projectId (au_id u))%bool = true).
    { destruct Hmay as [-> | ->]; [reflexivity | apply orb_true_r]. }
    rewrite E. apply existsb_find_some in Hex. destruct Hex as [p ->]. eauto.
  - intros Hno. rewrite Hrun.
    assert (Hm : is_member s projectId (au_id u) = false).
    { destruct (is_member s projectId (au_id u)) eqn:E; auto.
      apply existsb_exists in E. destruct E as [m [Hin Hrow]].
      unfold is_member_row in Hrow. apply andb_prop in Hrow. destruct Hrow as [Hp _].
      apply Nat.eqb_eq in Hp.
      pose proof (sound_members _ Hs) as Hfk. rewrite Forall_forall in Hfk.
      specialize (Hfk m Hin). congruence. }
    rewrite Hm, orb_false_r. unfold project_exists in Hno.
    rewrite (existsb_find_none _ _ Hno). now destruct (Role_eqb (au_role u) ADMIN).
Qed.

Lemma Query_project_outcomes_witness :
  Query_project as_alice 77 board = (Err FORBIDDEN, board)
  /\ Query_project as_root 77 board = (Err NOT_FOUND, board)
  /\ exists p, Query_project as_alice 10 board = (Ok p, board).
Proof.
  destruct (Query_project_outcomes as_alice {| au_id := 1; au_role := USER |} 77%nat board
              board_sound eq_refl) as (_ & _ & Hmissing).
  destruct (Query_project_outcomes as_root {| au_id := 2; au_role := ADMIN |} 77%nat board
              board_sound eq_refl) as (_ & _ & Hadmin).
  destruct (Query_project_outcomes as_alice {| au_id := 1; au_role := USER |} 10%nat board
              board_sound eq_refl) as (_ & Hmember & _).
  split; [apply Hmissing; reflexivity |].
  split; [apply Hadmin; reflexivity |].
  apply Hmember; [reflexivity | right; reflexivity].
Defined.

(** ** Labels never leave their project *)

Ltac links_done :=
  let Hf := fresh "Hf" in
  let Hk := fresh "Hk" in
  split;
  [ intros ? ? Hf; cbn; first [exact Hf | apply find_app_some; exact Hf]
  | intros ? Hk; cbn in Hk;
    first
      [ left; exact Hk
      | left; apply filter_In in Hk; tauto
      | apply in_app_or in Hk; destruct Hk as [Hk | [<- | []]];
        [ left; exact Hk
        | right; do 2 eexists; cbn;
          split; [eapply project_of_task_find; eassumption |];
          split; [eassumption |];
          match goal with
          | Hn : negb (_ =? _)%nat = false |- _ =>
              apply negb_false_iff, Nat.eqb_eq in Hn; exact Hn
          end ] ] ].

Ltac links_frame H :=
  unfold_store_in H; repeat break_in H; inversion H; subst; clear H;
  cbn [tasks columns set_activity set_nextId set_taskLabels] in *;
  repeat match goal with
         | Hs : Some _ = Some _ |- _ => injection Hs as <-
         | H1 : ?x = Some ?a, H2 : ?x = Some ?b |- _ =>
             rewrite H1 in H2; injection H2 as <-
         end;
  links_done.

Lemma links_frame_of ctx req s r s' :
  resolve ctx req s = (r, s') ->
  (forall i l,
     find (fun x => (label_id x =? i)%nat) (labels s) = Some l ->
     find (fun x => (label_id x =? i)%nat) (labels s') = Some l)
  /\ (forall k, In k (taskLabels s') ->
        In k (taskLabels s) \/ link_in_project s k).
Proof.
  intros H.
  assert (Hm : forall A (m : M A) (wrap : A -> Response),
             respond wrap m s = (r, s') -> exists a, m s = (a, s')).
  { intros A m wrap Hr. apply respond_cases in Hr.
    destruct Hr as [(a & Hr & _) | (e & Hr & _)]; eauto. }
  unfold link_in_project.
  destruct req; simpl in H; apply Hm in H; destruct H as [a H].
  - unfold Query_project in H. links_frame H.
  - unfold Query_tasks in H. links_frame H.
  - unfold Query_comments in H. links_frame H.
  - unfold Query_activityLog in H. links_frame H.
  - unfold createProject in H. links_frame H.
  - unfold createColumn in H. links_frame H.
  - unfold createTask in H. links_frame H.
  - unfold updateTask in H. links_frame H.
  - apply moveTask_cases in H.
    destruct H as [[-> _] | (t & u & _ & _ & _ & _ & _ & _ & _ & _ & _ & Hl & Hk & _)].
    + split; auto.
    + rewrite Hl, Hk. split; auto.
  - unfold assignTask in H. links_frame H.
  - unfold commentTask in H. links_frame H.
  - unfold inviteMember in H. links_frame H.
  - unfold acceptInvite in H. links_frame H.
  - unfold createLabel in H. links_frame H.
  - unfold addLabelToTask in H. links_frame H.
  - unfold removeLabelFromTask in H. links_frame H.
Qed.

Lemma project_of_column_shifted input cols c :
  option_map column_projectId
    (find (fun x => (column_id x =? c)%nat) (shifted_columns input cols))
  = option_map column_projectId (find (fun x => (column_id x =? c)%nat) cols).
Proof.
  unfold shifted_columns, updateWhere.
  induction cols as [| x l IH]; simpl; auto.
  match goal with |- context [if ?b then shift_column x else x] => destruct b end;
    simpl; destruct (column_id x =? c)%nat; auto.
Qed.

Lemma project_of_column_grows s s' extra :
  (forall c, option_map column_projectId
               (find (fun x => (column_id x =? c)%nat) (columns s'))
             = option_map column_projectId
                 (find (fun x => (column_id x =? c)%nat) (columns s ++ extra))) ->
  forall c p, project_of_column s c = Some p -> project_of_column s' c = Some p.
Proof.
  intros H c p. unfold project_of_column. rewrite H.
  destruct (find _ (columns s)) as [x |] eqn:E; [| discriminate].
  now rewrite (find_app_some _ _ _ _ E).
Qed.

Lemma find_of_shape i rows rows' :
  map task_shape rows' = map task_shape rows ->
  option_map task_columnId (find (fun t => (task_id t =? i)%nat) rows')
  = option_map task_columnId (find (fun t => (task_id t =? i)%nat) rows).
Proof.
  revert rows. induction rows' as [| x l IH]; intros [| y m] H; try discriminate; auto.
  simpl in H. unfold task_shape at 1 3 in H. injection H as Hi Hc Hp Hl.
  simpl. rewrite Hi.
  destruct (task_id y =? i)%nat; simpl; [now rewrite Hc | auto].
Qed.

Lemma project_of_task_by_column s s' t p :
  (forall c q, project_of_column s c = Some q -> project_of_column s' c = Some q) ->
  option_map task_columnId (find (fun x => (task_id x =? t)%nat) (tasks s'))
  = option_map task_columnId (find (fun x => (task_id x =? t)%nat) (tasks s)) ->
  project_of_task s t = Some p -> project_of_task s' t = Some p.
Proof.
  intros Hc Hf. unfold project_of_task.
  destruct (find _ (tasks s)) as [x |]; [| discriminate].
  destruct (find _ (tasks s')) as [y |]; [| discriminate].
  simpl in Hf. injection Hf as ->. apply Hc.
Qed.

Lemma moveTask_same_project ctx input s r s' :
  moveTask ctx input s = (r, s') ->
  s' = s
  \/ exists p, project_of_task s (mt_taskId input) = Some p
               /\ project_of_column s (mt_toColumnId input) = Some p.
Proof.
  intros H. unfold moveTask in H. unfold_reads_in H.
  repeat break_read_in H; try (done_run H; left; reflexivity).
  all: right.
  all: match goal with
       | Hn : negb (_ =? _)%nat = false |- _ =>
           apply negb_false_iff, Nat.eqb_eq in Hn
       end.
  all: repeat match goal with
              | Hs : Some _ = Some _ |- _ => injection Hs as <-
              | H1 : ?x = Some ?a, H2 : ?x = Some ?b |- _ =>
                  rewrite H1 in H2; injection H2 as <-
              end.
  all: eexists; split;
    [ eapply project_of_task_find; eassumption
    | unfold project_of_column;
      match goal with
      | Hc : find (fun c => (column_id c =? mt_toColumnId _)%nat) _ = Some _ |- _ =>
          rewrite Hc; simpl; congruence
      end ].
Qed.

Lemma createColumn_project_frame ctx input s r s' :
  createColumn ctx input s = (r, s') ->
  forall t p, project_of_task s t = Some p -> project_of_task s' t = Some p.
Proof.
  intros H t p.
  destruct (createColumn_effect _ _ _ _ _ H) as (Ht & _ & _ & Hc).
  apply project_of_task_by_column; [| now rewrite Ht].
  destruct Hc as [Hc | [[_ Hc] | (_ & _ & col & Hc & _)]].
  - intros c q. unfold project_of_column. now rewrite Hc.
  - apply (project_of_column_grows s s' []). intros c. rewrite Hc, app_nil_r.
    apply project_of_column_shifted.
  - intros c q. unfold project_of_column. rewrite Hc.
    destruct (find _ (columns s)) as [x |] eqn:E; [| discriminate].
    pose proof (project_of_column_shifted input (columns s) c) as Hsh.
    rewrite E in Hsh.
    destruct (find _ (shifted_columns input (columns s))) as [y |] eqn:F;
      [| discriminate].
    rewrite (find_app_some _ _ _ _ F), Hsh. auto.
Qed.

Lemma createTask_project_frame ctx input s r s' :
  createTask ctx input s = (r, s') ->
  forall t p, project_of_task s t = Some p -> project_of_task s' t = Some p.
Proof.
  intros H t p Hp.
  destruct (createTask_effect _ _ _ _ _ H) as (Hc & _ & _ & Ht).
  apply (project_of_task_by_column s s' t p); [| | exact Hp].
  - intros c q. unfold project_of_column. now rewrite Hc.
  - destruct Ht as [-> | (x & -> & _)]; auto.
    destruct (find (fun x0 => (task_id x0 =? t)%nat) (tasks s)) as [y |] eqn:E.
    + now rewrite (find_app_some _ _ _ _ E).
    + unfold project_of_task in Hp. rewrite E in Hp. discriminate.
Qed.

Lemma moveTask_project_frame ctx input s r s' :
  NoDup (map task_id (tasks s)) ->
  moveTask ctx input s = (r, s') ->
  forall t p, project_of_task s t = Some p -> project_of_task s' t = Some p.
Proof.
  intros Hk H t p Hp.
  pose proof (moveTask_same_project _ _ _ _ _ H) as Hproj.
  destruct (moveTask_effect _ _ _ _ _ H) as (Hc & _ & _ & Ht).
  destruct Hproj as [-> | (q & Hq1 & Hq2)]; [exact Hp |].
  destruct Ht as [Ht | (task & Hf & _ & Ht)].
  - unfold project_of_task, project_of_column in *. now rewrite Ht, Hc.
  - unfold project_of_task in *.
    rewrite Ht, (find_final input (tasks s) task Hk).
    destruct (find (fun x => (task_id x =? t)%nat) (tasks s)) as [y |] eqn:E;
      [| discriminate].
    cbn. rewrite final_column, placed_column.
    unfold project_of_column in *. rewrite Hc.
    destruct (Nat.eqb_spec (task_id y) (mt_taskId input)) as [Ey | Ey]; [| exact Hp].
    assert (y = task) as ->.
    { apply (the_task input (tasks s) task Hk Hf); [apply (find_some _ _ E) | exact Ey]. }
    rewrite Hf in Hq1. congruence.
Qed.

Lemma project_frame ctx req s r s' :
  NoDup (map task_id (tasks s)) ->
  resolve ctx req s = (r, s') ->
  forall t p, project_of_task s t = Some p -> project_of_task s' t = Some p.
Proof.
  intros Hk H.
  assert (Hm : forall A (m : M A) (wrap : A -> Response),
             respond wrap m s = (r, s') -> exists a, m s = (a, s')).
  { intros A m wrap Hr. apply respond_cases in Hr.
    destruct Hr as [(a & Hr & _) | (e & Hr & _)]; eauto. }
  destruct (ordered_op req) eqn:Hop.
  - destruct req; try discriminate Hop; simpl in H; apply Hm in H; destruct H as [a H].
    + eapply createColumn_project_frame; eauto.
    + eapply createTask_project_frame; eauto.
    + eapply moveTask_project_frame; eauto.
  - assert (Hsame : columns s' = columns s ->
                    map task_shape (tasks s') = map task_shape (tasks s) ->
                    forall t p, project_of_task s t = Some p ->
                                project_of_task s' t = Some p).
    { intros Hc Hs t p. apply project_of_task_by_column.
      - intros c q. unfold project_of_column. now rewrite Hc.
      - now apply find_of_shape. }
    destruct req; try discriminate Hop.
    5:{ simpl in H. apply Hm in H. destruct H as [a Hrun].
        apply createProject_cases in Hrun.
        destruct Hrun as [[-> _] | (u & q & _ & _ & _ & _ & _ & _ & _ & Hc & Ht & _)]; auto.
        intros t p. apply project_of_task_by_column; [| now rewrite Ht].
        eapply project_of_column_grows. intros c. now rewrite Hc. }
    all: apply other_requests_frame in H; [| reflexivity | discriminate].
    all: destruct H as (Hc & _ & _ & Hs & _); now apply Hsame.
Qed.

Lemma request_keyed ctx req s :
  keyed s -> keyed (snd (resolve ctx req s)).
Proof.
  intros [Hk Hf].
  destruct (resolve ctx req s) as [r s'] eqn:H. simpl.
  assert (Hm : forall A (m : M A) (wrap : A -> Response),
             respond wrap m s = (r, s') -> exists a, m s = (a, s')).
  { intros A m wrap Hr. apply respond_cases in Hr.
    destruct Hr as [(a & Hr & _) | (e & Hr & _)]; eauto. }
  assert (Hsame : map task_id (tasks s') = map task_id (tasks s) ->
                  (nextId s <= nextId s')%nat -> keyed s').
  { intros E Hn. split; rewrite E; auto. eapply Forall_lt_mono; eauto. }
  destruct (ordered_op req) eqn:Hop.
  - destruct req; try discriminate Hop; simpl in H; apply Hm in H; destruct H as [a H].
    + destruct (createColumn_effect _ _ _ _ _ H) as (Ht & _ & Hn & _).
      apply Hsame; [now rewrite Ht | exact Hn].
    + destruct (createTask_effect _ _ _ _ _ H) as (_ & _ & Hn & Ht).
      destruct Ht as [Ht | (t & Ht & Hid & Hlt & _)].
      * apply Hsame; [now rewrite Ht | exact Hn].
      * split; rewrite Ht, map_app; simpl.
        -- apply NoDup_app; auto.
           ++ repeat constructor. simpl. tauto.
           ++ intros i Hi [<- | []]. rewrite Forall_forall in Hf.
              specialize (Hf _ Hi). lia.
        -- apply Forall_app. split.
           ++ apply Forall_lt_mono with (n := nextId s); [lia | auto].
           ++ repeat constructor. simpl. lia.
    + destruct (moveTask_effect _ _ _ _ _ H) as (_ & _ & Hn & Ht).
      destruct Ht as [Ht | (task & Hfind & _ & Ht)].
      * apply Hsame; [now rewrite Ht | exact Hn].
      * apply Hsame; [| exact Hn]. rewrite Ht. now apply moved_rows_keys.
  - destruct req; try discriminate Hop.
    5:{ simpl in H. apply Hm in H. destruct H as [a Hrun].
        apply createProject_cases in Hrun.
        destruct Hrun as [[-> _] | (u & q & _ & _ & _ & _ & _ & _ & _ & _ & Ht & _ & _ & Hn)].
        - now split.
        - apply Hsame; [now rewrite Ht | lia]. }
    all: apply other_requests_frame in H; [| reflexivity | discriminate].
    all: destruct H as (_ & _ & Hn & Hs & _).
    all: apply Hsame; [now apply keys_of_shape | exact Hn].
Qed.

Lemma request_scoped ctx req s :
  keyed s -> labels_scoped s -> labels_scoped (snd (resolve ctx req s)).
Proof.
  intros [Hk _] Hs.
  destruct (resolve ctx req s) as [r s'] eqn:H. simpl.
  destruct (links_frame_of _ _ _ _ _ H) as [Hl Hlinks].
  pose proof (project_frame _ _ _ _ _ Hk H) as Hp.
  assert (Hlift : forall k, link_in_project s k -> link_in_project s' k).
  { intros k (p & l & H1 & H2 & H3). exists p, l. auto. }
  unfold labels_scoped in *. rewrite Forall_forall in *.
  intros k Hin. destruct (Hlinks k Hin) as [Hold | Hnew]; auto.
Qed.

Lemma run_scoped reqs :
  forall s, keyed s -> labels_scoped s -> keyed (run s reqs) /\ labels_scoped (run s reqs).
Proof.
  induction reqs as [| [ctx req] rest IH]; intros s Hk Hs; simpl; auto.
  apply IH; [now apply request_keyed | now apply request_scoped].
Qed.

(** X23. A task only ever carries labels of its own project.  If every link
    of the store joins a task and a label of one project, the same holds after
    any sequence of requests, successful or not: [addLabelToTask] refuses a
    label of another project, and [moveTask] refuses to carry a task, with its
    labels, into another project. *)
Theorem labels_stay_in_project s reqs :
  keyed s -> labels_scoped s -> labels_scoped (run s reqs).
Proof.
  intros Hk Hs. now apply run_scoped.
Qed.

Lemma labelled_board_scoped : keyed labelled_board /\ labels_scoped labelled_board.
Proof.
  split; [split |].
  - vm_compute. repeat (apply NoDup_cons; [simpl; intuition discriminate |]).
    apply NoDup_nil.
  - vm_compute. repeat (apply Forall_cons; [lia |]). apply Forall_nil.
  - unfold labels_scoped. vm_compute taskLabels.
    repeat (apply Forall_cons; [| apply Forall_nil]).
    exists 10%nat, bug_label. vm_compute. auto.
Qed.

Lemma labels_stay_in_project_witness :
  labels_scoped (run labelled_board label_requests)
  /\ map (fun k => (tl_taskId k, tl_labelId k))
       (taskLabels (run labelled_board label_requests))
     = [(31%nat, 103%nat); (31%nat, 40%nat)].
Proof.
  split; [| vm_compute; reflexivity].
  apply (labels_stay_in_project labelled_board label_requests);
    apply labelled_board_scoped.
Defined.

(** ** Failed requests write nothing *)

Lemma column_project_exists s c col :
  sound s ->
  find (fun x => (column_id x =? c)%nat) (columns s) = Some col ->
  existsb (fun p => (project_id p =? column_projectId col)%nat) (projects s) = true.
Proof.
  intros Hs Hf. apply find_some in Hf. destruct Hf as [Hin _].
  pose proof (valid_column_fk _ (sound_valid _ Hs)) as Hfk.
  rewrite Forall_forall in Hfk. exact (Hfk col Hin).
Qed.

Lemma member_project_exists s p u m :
  sound s ->
  find (is_member_row p u) (members s) = Some m ->
  existsb (fun q => (project_id q =? p)%nat) (projects s) = true.
Proof.
  intros Hs Hf. apply find_some in Hf. destruct Hf as [Hin Hrow].
  unfold is_member_row in Hrow. apply andb_prop in Hrow. destruct Hrow as [Hp _].
  apply Nat.eqb_eq in Hp. subst p.
  pose proof (sound_members _ Hs) as Hfk.
  rewrite Forall_forall in Hfk. exact (Hfk m Hin).
Qed.

Lemma task_exists_updated i p d rows :
  existsb (fun t => (task_id t =? i)%nat) (updateWhere p (applyUpdate d) rows)
  = existsb (fun t => (task_id t =? i)%nat) rows.
Proof.
  unfold updateWhere. induction rows as [| x l IH]; simpl; auto.
  rewrite IH. now destruct (p x).
Qed.

Ltac known_rows Hs :=
  repeat match goal with
         | Hc : find (fun x => (column_id x =? _)%nat) (columns _) = Some _ |- _ =>
             pose proof (column_project_exists _ _ _ Hs Hc); revert Hc
         | Hm : find (is_member_row _ _) (members _) = Some _ |- _ =>
             pose proof (member_project_exists _ _ _ _ Hs Hm); revert Hm
         | Ht : find (fun x => (task_id x =? _)%nat) (tasks _) = Some _ |- _ =>
             pose proof (find_existsb _ _ _ Ht); revert Ht
         | Hl : find (fun x => (label_id x =? _)%nat) (labels _) = Some _ |- _ =>
             pose proof (find_existsb _ _ _ Hl); revert Hl
         end;
  intros.

Ltac fk_contra Hs :=
  exfalso;
  repeat match goal with
         | Hs' : Some _ = Some _ |- _ => injection Hs' as <-
         end;
  known_rows Hs;
  repeat match goal with
         | Hc : (_ && _)%bool = true |- _ =>
             apply andb_prop in Hc; destruct Hc
         end;
  unfold user_exists, project_exists, task_exists, label_exists, column_exists,
    opt_exists in *;
  cbn [users projects members columns tasks comments labels taskLabels invitations
         activity nextId set_projects set_members set_columns set_tasks set_comments
         set_labels set_taskLabels set_invitations set_activity set_nextId] in *;
  match goal with
  | H1 : ?x = Some _, H2 : ?x = None |- _ => rewrite H1 in H2; discriminate H2
  | Hb : _ = false |- _ =>
      rewrite ?task_exists_updated, ?existsb_app in Hb;
      repeat match goal with
             | Hk : existsb _ _ = true |- _ => rewrite Hk in Hb
             end;
      cbn in Hb; rewrite ?Nat.eqb_refl, ?orb_true_r in Hb; discriminate Hb
  end.

Lemma assignTask_atomic ctx u taskId a s e s' :
  sound s -> ctx_user ctx = Some u -> user_exists s (au_id u) = true ->
  assignTask ctx taskId a s = (Err e, s') -> s' = s.
Proof.
  intros Hs Hu Hux H. unfold assignTask in H. unfold_store_in H.
  rewrite Hu in H.
  repeat (break_in H; try discriminate H).
  all: inversion H; subst; clear H; try reflexivity.
  all: fk_contra Hs.
Qed.

Ltac atomic H Hs Hu :=
  unfold_store_in H; rewrite ?Hu in H;
  repeat (break_in H; try discriminate H);
  inversion H; subst; clear H; try reflexivity;
  fk_contra Hs.

Section Atomic.

Variable ctx : GraphQLContext.

Variable u : AuthUser.

Variable s : Db.

Hypothesis Hs : sound s.

Hypothesis Hu : ctx_user ctx = Some u.

Hypothesis Hux : user_exists s (au_id u) = true.

Lemma updateTask_atomic taskId input e s' :
  updateTask ctx taskId input s = (Err e, s') -> s' = s.
Proof. intros H. unfold updateTask in H. atomic H Hs Hu. Qed.

Lemma commentTask_atomic input e s' :
  commentTask ctx input s = (Err e, s') -> s' = s.
Proof. intros H. unfold commentTask in H. atomic H Hs Hu. Qed.

Lemma createTask_atomic input e s' :
  createTask ctx input s = (Err e, s') -> s' = s.
Proof. intros H. unfold createTask in H. atomic H Hs Hu. Qed.

Lemma createProject_atomic name e s' :
  createProject ctx name s = (Err e, s') -> s' = s.
Proof. intros H. unfold createProject in H. atomic H Hs Hu. Qed.

Lemma createLabel_atomic input e s' :
  createLabel ctx input s = (Err e, s') -> s' = s.
Proof. intros H. unfold createLabel in H. atomic H Hs Hu. Qed.

Lemma inviteMember_atomic input token e s' :
  inviteMember ctx input token s = (Err e, s') -> s' = s.
Proof. intros H. unfold inviteMember in H. atomic H Hs Hu. Qed.

Lemma addLabelToTask_atomic taskId labelId e s' :
  addLabelToTask ctx taskId labelId s = (Err e, s') -> s' = s.
Proof. intros H. unfold addLabelToTask in H. atomic H Hs Hu. Qed.

Lemma removeLabelFromTask_atomic taskId labelId e s' :
  removeLabelFromTask ctx taskId labelId s = (Err e, s') -> s' = s.
Proof. intros H. unfold removeLabelFromTask in H. atomic H Hs Hu. Qed.

Lemma acceptInvite_atomic token e s' :
  acceptInvite ctx token s = (Err e, s') -> s' = s.
Proof. intros H. unfold acceptInvite in H. atomic H Hs Hu. Qed.

End Atomic.

Lemma createColumn_atomic ctx u s input e s' :
  sound s -> ctx_user ctx = Some u -> user_exists s (au_id u) = true ->
  createColumn ctx input s = (Err e, s') -> s' = s.
Proof.
  intros Hs Hu Hux H. unfold createColumn in H.
  unfold_store_in H; rewrite ?Hu in H;
  repeat (break_in H; try discriminate H);
  inversion H; subst; clear H; try reflexivity.
  all: try solve [fk_contra Hs].
  assert (Hsame : updateWhere
                    (fun c => ((column_projectId c =? cc_projectId input)%nat
                               && (cc_position input <=? column_position c))%bool)
                    shift_column (columns s) = columns s).
  { pose proof (valid_column_fk _ (sound_valid _ Hs)) as Hfk.
    unfold project_exists in Heqb2. cbn in Heqb2.
    unfold updateWhere. rewrite <- (map_id (columns s)) at 2.
    apply map_ext_in. intros c Hc. rewrite Forall_forall in Hfk.
    specialize (Hfk c Hc). unfold project_exists in Hfk.
    destruct (Nat.eqb_spec (column_projectId c) (cc_projectId input)) as [E | E];
      [| reflexivity].
    rewrite E in Hfk. congruence. }
  rewrite Hsame. now destruct s.
Qed.

Lemma renumber_rows_keys ids :
  forall idx rows, map task_id (renumber_rows ids idx rows) = map task_id rows.
Proof.
  induction ids as [| i ids IH]; intros idx rows; simpl; auto.
  now rewrite IH, updateWhere_keys.
Qed.

Lemma task_exists_keys i rows rows' :
  map task_id rows' = map task_id rows ->
  existsb (fun t => (task_id t =? i)%nat) rows'
  = existsb (fun t => (task_id t =? i)%nat) rows.
Proof.
  revert rows. induction rows' as [| x l IH]; intros [| y m] H; try discriminate; auto.
  simpl in H. injection H as Hx Hl. simpl. now rewrite Hx, (IH m Hl).
Qed.

Lemma task_exists_where i p (g : Task -> Task) rows :
  (forall r, task_id (g r) = task_id r) ->
  existsb (fun t => (task_id t =? i)%nat) (updateWhere p g rows)
  = existsb (fun t => (task_id t =? i)%nat) rows.
Proof.
  intros Hg. unfold updateWhere. induction rows as [| x l IH]; simpl; auto.
  rewrite IH. destruct (p x); [now rewrite Hg | reflexivity].
Qed.

Lemma moveTask_atomic ctx u s input e s' :
  sound s -> ctx_user ctx = Some u -> user_exists s (au_id u) = true ->
  moveTask ctx input s = (Err e, s') -> s' = s.
Proof.
  intros Hs Hu Hux H. unfold moveTask in H. unfold_reads_in H.
  repeat break_read_in H; try (done_run H; reflexivity).
  all: exfalso.
  all: match goal with
  | Hc : find (fun c => (column_id c =? mt_toColumnId _)%nat) _ = Some _ |- _ =>
      pose proof (column_exists_find _ _ _ Hc) as Hcol
  end.
  all: repeat match goal with Hx : Some _ = Some _ |- _ => injection Hx as <- end.
  all: match goal with Hp : (_ <? 1) = false |- _ => apply Z.ltb_ge in Hp end.
  all: match goal with
  | Hf : find _ (tasks _) = Some ?t |- _ =>
    erewrite task_update_run in H;
      [| cbn [tasks set_tasks]; rewrite find_shifted, Hf; reflexivity
       | now apply update_accepted_move ]
  end.
  all: rewrite renumber_run in H;
    [| intros x Hx; apply (Permutation_in _ (orderBy_perm _ _)) in Hx;
       apply filter_In in Hx; now apply in_map ].
  all: unfold activityLog_create in H; unfold_store_in H; repeat break_in H;
    try discriminate H.
  all: match goal with
       | Hf : find (fun t => (task_id t =? mt_taskId _)%nat) _ = Some _ |- _ =>
           pose proof (found_task_id _ _ _ Hf) as Hid
       end.
  all: known_rows Hs.
  all: unfold user_exists, project_exists, task_exists, opt_exists in *;
    cbn [users projects tasks set_tasks applyUpdate shift_task task_id] in *.
  all: match goal with
       | Hb : _ = false |- _ =>
           rewrite (task_exists_keys _ _ _ (renumber_rows_keys _ _ _)) in Hb;
           rewrite task_exists_updated in Hb;
           rewrite task_exists_where in Hb by reflexivity;
           rewrite Hid in Hb;
           repeat match goal with
                  | Hk : existsb _ _ = true |- _ => rewrite Hk in Hb
                  end;
           discriminate Hb
       end.
Qed.

(** X24. The resolvers open no transaction, yet a failed request leaves no
    partial write behind: on a sound store, when the caller's account row
    exists, every request that ends in an error, INTERNAL_SERVER_ERROR
    included, leaves the store exactly as it was.  Every check and every
    constraint that can fail does so before the first write. *)
Theorem failed_request_writes_nothing ctx u req s e s' :
  sound s -> ctx_user ctx = Some u -> user_exists s (au_id u) = true ->
  resolve ctx req s = (Err e, s') ->
  s' = s.
Proof.
  intros Hs Hu Hux H.
  assert (Hm : forall A (m : M A) (wrap : A -> Response),
             respond wrap m s = (Err e, s') -> m s = (Err e, s')).
  { intros A m wrap Hr. apply respond_cases in Hr.
    destruct Hr as [(a & _ & Hr) | (e' & Hr & He)]; [discriminate |].
    now injection He as <-. }
  destruct req; simpl in H; apply Hm in H.
  - apply (f_equal snd) in H. simpl in H. rewrite <- H.
    unfold Query_project. read_only.
  - apply (f_equal snd) in H. simpl in H. rewrite <- H.
    unfold Query_tasks. read_only.
  - apply (f_equal snd) in H. simpl in H. rewrite <- H.
    unfold Query_comments. read_only.
  - apply (f_equal snd) in H. simpl in H. rewrite <- H.
    unfold Query_activityLog. read_only.
  - eapply createProject_atomic; eauto.
  - eapply createColumn_atomic; eauto.
  - eapply createTask_atomic; eauto.
  - eapply updateTask_atomic; eauto.
  - eapply moveTask_atomic; eauto.
  - eapply assignTask_atomic; eauto.
  - eapply commentTask_atomic; eauto.
  - eapply inviteMember_atomic; eauto.
  - eapply acceptInvite_atomic; eauto.
  - eapply createLabel_atomic; eauto.
  - eapply addLabelToTask_atomic; eauto.
  - eapply removeLabelFromTask_atomic; eauto.
Qed.

Lemma failed_request_writes_nothing_witness :
  resolve as_root assign_to_nobody board = (Err INTERNAL_SERVER_ERROR, board).
Proof.
  assert (H : exists s', resolve as_root assign_to_nobody board
                         = (Err INTERNAL_SERVER_ERROR, s'))
    by (eexists; vm_compute; reflexivity).
  destruct H as [s' H].
  rewrite H. f_equal.
  exact (failed_request_writes_nothing as_root {| au_id := 2; au_role := ADMIN |}
           assign_to_nobody board INTERNAL_SERVER_ERROR s'
           board_sound eq_refl eq_refl H).
Defined.

(** ** Label names *)

Lemma createLabel_ok ctx input s l s' :
  createLabel ctx input s = (Ok l, s') ->
  l = {| label_id := nextId s; label_name := trim (cl_name input);
         label_color := trimOrNull (cl_color input);
         label_projectId := cl_projectId input |}
  /\ (1 <= String.length (trim (cl_name input)))%nat
  /\ labels s' = labels s ++ [l]
  /\ existsb (fun x => ((label_projectId x =? cl_projectId input)%nat
                        && String.eqb (label_name x) (trim (cl_name input)))%bool)
       (labels s) = false.
Proof.
  intros H. unfold createLabel in H. unfold_store_in H.
  repeat (break_in H; try discriminate H).
  all: inversion H; subst; clear H.
  all: split; [reflexivity |].
  all: split;
    [match goal with Hl : (_ <? 1)%nat = false |- _ => now apply Nat.ltb_ge in Hl end |].
  all: split; [reflexivity |].
  all: match goal with
       | Hb : (_ && negb ?d)%bool = true |- _ =>
           apply andb_prop in Hb; destruct Hb as [_ Hb];
           now apply negb_true_iff in Hb
       end.
Qed.

(** X25. Label names are unique inside a project.  A label accepted by
    [createLabel] carries the trimmed, non-blank name, and no label of that
    project had this name before.  Asking for a name the project already uses
    is not reported as bad input: for a caller who passes the owner gate the
    unique index refuses the row, the call fails with INTERNAL_SERVER_ERROR
    and nothing is written. *)
Theorem createLabel_names_are_unique ctx input s :
  (forall l s', createLabel ctx input s = (Ok l, s') ->
     label_name l = trim (cl_name input)
     /\ (1 <= String.length (label_name l))%nat
     /\ label_projectId l = cl_projectId input
     /\ labels s' = labels s ++ [l]
     /\ forall x, In x (labels s) -> label_projectId x = cl_projectId input ->
                  label_name x <> label_name l)
  /\ (forall x,
        requireProjectOwnerOrAdmin ctx (cl_projectId input) s = (Ok tt, s) ->
        In x (labels s) -> label_projectId x = cl_projectId input ->
        label_name x = trim (cl_name input) ->
        (1 <= String.length (trim (cl_name input)))%nat ->
        createLabel ctx input s = (Err INTERNAL_SERVER_ERROR, s)).
Proof.
  split.
  - intros l s' H. apply createLabel_ok in H. destruct H as (-> & Hl & Hs & Hd).
    cbn [label_name label_projectId].
    split; [reflexivity |]. split; [exact Hl |]. split; [reflexivity |].
    split; [exact Hs |].
    intros x Hx Hp Hn.
    assert (Hdup : existsb (fun x => ((label_projectId x =? cl_projectId input)%nat
                                      && String.eqb (label_name x) (trim (cl_name input)))%bool)
                     (labels s) = true).
    { apply existsb_exists. exists x. split; [exact Hx |].
      now rewrite Hp, Hn, Nat.eqb_refl, String.eqb_refl. }
    congruence.
  - intros x Hg Hx Hp Hn Hl. unfold createLabel.
    rewrite (bind_run _ _ _ _ _ Hg).
    apply Nat.ltb_ge in Hl. rewrite Hl. simpl when.
    rewrite (bind_run _ _ s tt s) by reflexivity.
    apply bind_fail. unfold label_create. unfold_store.
    assert (Hdup : existsb (fun l => ((label_projectId l =? cl_projectId input)%nat
                                      && String.eqb (label_name l) (trim (cl_name input)))%bool)
                     (labels s) = true).
    { apply existsb_exists. exists x. split; [exact Hx |].
      now rewrite Hp, Hn, Nat.eqb_refl, String.eqb_refl. }
    rewrite Hdup, andb_false_r. reflexivity.
Qed.

Lemma createLabel_names_are_unique_witness :
  createLabel as_alice second_bug_label board = (Err INTERNAL_SERVER_ERROR, board)
  /\ exists l s', createLabel as_alice feature_label board = (Ok l, s')
                  /\ label_name l = "feature"%string.
Proof.
  destruct (createLabel_names_are_unique as_alice second_bug_label board) as [_ Hdup].
  destruct (createLabel_names_are_unique as_alice feature_label board) as [Hnew _].
  split.
  - apply (Hdup bug_label); [reflexivity | simpl; auto | reflexivity | reflexivity |].
    vm_compute. lia.
  - do 2 eexists. split; [vm_compute; reflexivity |].
    eapply Hnew. vm_compute. reflexivity.
Defined.

(** ** Listing projects *)

Lemma Query_projects_ok ctx offset limit search s page s' :
  Query_projects ctx offset limit search s = (Ok page, s') ->
  exists u,
    ctx_user ctx = Some u
    /\ s' = s
    /\ 0 <= offset /\ 1 <= limit <= 50
    /\ search = None
    /\ page
       = paginate
           (rev (filter
                   (fun pr =>
                      (Role_eqb (au_role u) ADMIN
                       || existsb (is_member_row (project_id pr) (au_id u)) (members s))%bool)
                   (projects s)))
           offset limit.
Proof.
  intros H. unfold Query_projects, name_contains_insensitive in H. unfold_store_in H.
  destruct search as [q0 |]; cbn [option_map] in H.
  all: repeat (break_in H; try discriminate H).
  all: inversion H; subst; clear H.
  all: repeat match goal with
              | Hs : Some _ = Some _ |- _ => injection Hs as <-
              end.
  all: eexists; split; [reflexivity |]; split; [reflexivity |].
  all: match goal with
       | Hp : (_ && _ && _)%bool = true |- _ =>
           apply andb_prop in Hp; destruct Hp as [Hp H50];
           apply andb_prop in Hp; destruct Hp as [H0 H1];
           apply Z.leb_le in H0, H1, H50
       end.
  all: split; [lia |]; split; [lia |]; split; [reflexivity |].
  all: match goal with
       | Hr : Role_eqb _ ADMIN = _ |- _ => rewrite Hr
       end.
  all: cbn [orb fst snd]; try reflexivity.
  match goal with
  | |- context [filter (fun _ => true) ?l] =>
      replace (filter (fun _ : Project => true) l) with l; [reflexivity |];
      clear; induction l as [| x rest IH]; simpl; congruence
  end.
Qed.

Lemma Query_projects_search ctx u offset limit q s :
  ctx_user ctx = Some u -> 0 <= offset -> 1 <= limit <= 50 ->
  Query_projects ctx offset limit (Some q) s
  = (Err (if (String.length (trim q) =? 0)%nat
          then BAD_USER_INPUT else INTERNAL_SERVER_ERROR), s).
Proof.
  intros Hu Ho Hl. unfold Query_projects, name_contains_insensitive, parsePagination.
  unfold_store. rewrite Hu.
  replace ((0 <=? offset) && (1 <=? limit) && (limit <=? 50))%bool with true
    by (symmetry; rewrite !andb_true_iff, !Z.leb_le; lia).
  cbn [option_map]. destruct (String.length (trim q) =? 0)%nat; [reflexivity |].
  destruct (Role_eqb (au_role u) ADMIN); reflexivity.
Qed.

Lemma Query_projects_run ctx u offset limit s :
  ctx_user ctx = Some u -> 0 <= offset -> 1 <= limit <= 50 ->
  exists page, Query_projects ctx offset limit None s = (Ok page, s).
Proof.
  intros Hu Ho Hl. unfold Query_projects, name_contains_insensitive, parsePagination.
  unfold_store. rewrite Hu.
  replace ((0 <=? offset) && (1 <=? limit) && (limit <=? 50))%bool with true
    by (symmetry; rewrite !andb_true_iff, !Z.leb_le; lia).
  cbn [option_map]. destruct (Role_eqb (au_role u) ADMIN); eexists; reflexivity.
Qed.

(** X26. [Query.projects] answers an authenticated caller with valid
    pagination bounds in one of three ways, and never writes.  Without a
    search text it succeeds: the items are stored projects, a caller who is
    not an ADMIN sees only projects in which that caller has a membership row,
    an ADMIN gets the number of all projects as total, and the page obeys the
    pagination bounds.  A search text that is blank once trimmed is refused
    with BAD_USER_INPUT.  Any other search text ends in
    INTERNAL_SERVER_ERROR, because the SQLite store has no case-insensitive
    filter: a listing that succeeds had no search text. *)
Theorem projects_listing_is_scoped ctx offset limit s :
  (forall search page s',
      Query_projects ctx offset limit search s = (Ok page, s') ->
      s' = s /\ search = None /\ page_ok offset limit page
      /\ exists u,
           ctx_user ctx = Some u
           /\ (forall p, In p (items page) ->
                 In p (projects s)
                 /\ (au_role u = USER -> is_member s (project_id p) (au_id u) = true))
           /\ (au_role u = ADMIN -> total page = Z.of_nat (List.length (projects s))))
  /\ (forall u, ctx_user ctx = Some u -> 0 <= offset -> 1 <= limit <= 50 ->
        (exists page, Query_projects ctx offset limit None s = (Ok page, s))
        /\ (forall q, String.length (trim q) = 0%nat ->
              Query_projects ctx offset limit (Some q) s = (Err BAD_USER_INPUT, s))
        /\ (forall q, String.length (trim q) <> 0%nat ->
              Query_projects ctx offset limit (Some q) s
              = (Err INTERNAL_SERVER_ERROR, s))).
Proof.
  split.
  - intros search page s' H. apply Query_projects_ok in H.
    destruct H as (u & Hu & -> & Ho & Hl & -> & ->).
    split; [reflexivity |]. split; [reflexivity |]. split; [now apply paginate_ok |].
    exists u. split; [exact Hu |]. split.
    + intros p Hin. apply in_paginate in Hin. apply in_rev in Hin.
      apply filter_In in Hin. destruct Hin as [Hin Hm].
      split; [exact Hin |].
      intros Hr. rewrite Hr in Hm. exact Hm.
    + intros Hr. rewrite Hr. cbn [paginate total Role_eqb orb].
      rewrite length_rev. do 2 f_equal.
      induction (projects s) as [| x l IH]; simpl; [reflexivity | now rewrite IH].
  - intros u Hu Ho Hl. split; [now apply (Query_projects_run ctx u) |].
    split; intros q Hq; rewrite (Query_projects_search ctx u) by assumption.
    + apply Nat.eqb_eq in Hq. now rewrite Hq.
    + apply Nat.eqb_neq in Hq. now rewrite Hq.
Qed.

Lemma projects_listing_is_scoped_witness :
  (exists page,
      Query_projects as_alice 0 10 None board = (Ok page, board)
      /\ map project_id (items page) = [10%nat]
      /\ forall p, In p (items page) -> is_member board (project_id p) 1 = true)
  /\ Query_projects as_alice 0 10 (Some "   "%string) board = (Err BAD_USER_INPUT, board)
  /\ Query_projects as_alice 0 10 (Some " oar "%string) board
     = (Err INTERNAL_SERVER_ERROR, board).
Proof.
  destruct (projects_listing_is_scoped as_alice 0 10 board) as [Hok Hcalls].
  destruct (Hcalls _ eq_refl ltac:(lia) ltac:(lia)) as (_ & Hblank & Hsearch).
  split; [| split].
  - eexists. split; [vm_compute; reflexivity |].
    split; [reflexivity |].
    edestruct (Hok None) as (_ & _ & _ & u & Hu & Hitems & _); [vm_compute; reflexivity |].
    injection Hu as <-.
    intros p Hp. now apply Hitems.
  - apply Hblank. vm_compute. reflexivity.
  - apply Hsearch. vm_compute. discriminate.
Defined.

(** ** Reading a board in position order *)

Lemma ascending_from lo l :
  StronglySorted Z.lt l ->
  (forall z, In z l -> lo <= z <= lo + Z.of_nat (List.length l) - 1) ->
  l = map (fun k => lo + Z.of_nat k) (seq 0 (List.length l)).
Proof.
  intros Hs. revert lo. induction Hs as [| x t Ht IH Hx]; intros lo Hb; [reflexivity |].
  assert (Htail : t = map (fun k => (lo + 1) + Z.of_nat k) (seq 0 (List.length t))).
  { apply IH. intros z Hz. rewrite Forall_forall in Hx. specialize (Hx z Hz).
    pose proof (Hb x (or_introl eq_refl)) as Hbx.
    specialize (Hb z (or_intror Hz)). simpl List.length in Hb. lia. }
  assert (Hlo : x = lo).
  { pose proof (Hb x (or_introl eq_refl)) as Hbx. simpl List.length in Hbx.
    destruct t as [| y t'].
    - simpl in Hbx. lia.
    - simpl in Htail. injection Htail as Hy _.
      rewrite Forall_forall in Hx. specialize (Hx y (or_introl eq_refl)). lia. }
  simpl. rewrite <- seq_shift, map_map. subst x. f_equal; [lia |].
  rewrite Htail at 1. apply map_ext. intros k. lia.
Qed.

Lemma sorted_contiguous l :
  StronglySorted Z.le l -> contiguous l ->
  l = map (fun k => Z.of_nat k + 1) (seq 0 (List.length l)).
Proof.
  intros Hs [Hnd Hin].
  assert (Hlt : StronglySorted Z.lt l).
  { clear Hin. induction Hs as [| x t Ht IH Hx]; constructor.
    - apply IH. now inversion Hnd.
    - inversion Hnd as [| ? ? Hnx _]; subst.
      rewrite Forall_forall in *. intros z Hz. specialize (Hx z Hz).
      assert (x <> z) by (intros ->; contradiction). lia. }
  rewrite (ascending_from 1 l Hlt) at 1.
  - apply map_ext. intros k. lia.
  - intros z Hz. apply Hin in Hz. lia.
Qed.

Section ByKey.

Context {A : Type} (key : A -> Z).

Lemma orderBy_key_sorted l :
  StronglySorted Z.le (map key (orderBy (fun a b => key a <=? key b) l)).
Proof.
  assert (Hs : StronglySorted (fun a b => (key a <=? key b) = true)
                 (orderBy (fun a b => key a <=? key b) l)).
  { apply Sorted_StronglySorted.
    - intros a b c Hab Hbc. apply Z.leb_le in Hab, Hbc. apply Z.leb_le. lia.
    - apply orderBy_is_sorted. intros a b.
      destruct (Z.leb_spec (key a) (key b)); [now left | right].
      apply Z.leb_le. lia. }
  induction Hs as [| x t Ht IH Hx]; simpl; constructor; auto.
  rewrite Forall_forall in *. intros z Hz. apply in_map_iff in Hz.
  destruct Hz as [y [<- Hy]]. apply Z.leb_le. auto.
Qed.

Lemma ordered_keys l :
  contiguous (map key l) ->
  map key (orderBy (fun a b => key a <=? key b) l)
  = map (fun k => Z.of_nat k + 1) (seq 0 (List.length l)).
Proof.
  intros Hc.
  rewrite (sorted_contiguous _ (orderBy_key_sorted l)).
  - rewrite length_map. now rewrite (Permutation_length (orderBy_perm _ l)).
  - eapply contiguous_perm; [| exact Hc].
    apply Permutation_map, Permutation_sym, orderBy_perm.
Qed.

End ByKey.

Lemma seq_from {B} (f : nat -> B) a m :
  map f (seq a m) = map (fun k => f (a + k)%nat) (seq 0 m).
Proof.
  revert a. induction m as [| m IH]; intros a; simpl; [reflexivity |].
  rewrite Nat.add_0_r. f_equal. rewrite (IH (S a)), <- seq_shift, map_map.
  apply map_ext. intros k. f_equal. lia.
Qed.

Lemma firstn_of_seq n a m : firstn n (seq a m) = seq a (Nat.min n m).
Proof.
  revert a m. induction n as [| n IH]; intros a [| m]; simpl; auto.
  now rewrite IH.
Qed.

Lemma page_of_range n offset limit :
  0 <= offset ->
  let shown := firstn (Z.to_nat limit)
                 (skipn (Z.to_nat offset) (map (fun k => Z.of_nat k + 1) (seq 0 n))) in
  shown = map (fun k => offset + Z.of_nat k + 1) (seq 0 (List.length shown)).
Proof.
  intros Ho shown. subst shown.
  rewrite skipn_map, firstn_map, skipn_seq, firstn_of_seq, length_map, length_seq. simpl.
  rewrite seq_from. apply map_ext. intros k. lia.
Qed.

(** X27. On a board with contiguous positions the field resolvers read the
    board in order: [Project.columns] returns the project's columns at
    positions 1, 2, ..., n, and an unfiltered [Column.tasks] page starting at
    offset [o] holds the column's tasks at positions o+1, o+2, ... without
    gap; its total is the size of the column. *)
Theorem board_reads_follow_positions s :
  positions_ok s ->
  (forall p, exists cols,
      Project_columns p s = (Ok cols, s)
      /\ Permutation cols
           (filter (fun c => (column_projectId c =? project_id p)%nat) (columns s))
      /\ map column_position cols
         = map (fun k => Z.of_nat k + 1) (seq 0 (List.length cols)))
  /\ (forall c offset limit page s',
        Column_tasks c offset limit None None s = (Ok page, s') ->
        s' = s
        /\ page_ok offset limit page
        /\ total page = Z.of_nat (List.length (task_positions (column_id c) s))
        /\ (forall t, In t (items page) ->
              In t (tasks s) /\ task_columnId t = column_id c)
        /\ map task_position (items page)
           = map (fun k => offset + Z.of_nat k + 1)
               (seq 0 (List.length (items page)))).
Proof.
  intros [Hcols Htasks]. split.
  - intros p. eexists. split; [reflexivity |]. split; [apply orderBy_perm |].
    unfold column_asc.
    rewrite (ordered_keys column_position) by apply Hcols.
    now rewrite (Permutation_length (orderBy_perm _ _)).
  - intros c offset limit page s' H. unfold Column_tasks in H. unfold_store_in H.
    destruct ((0 <=? offset) && (1 <=? limit) && (limit <=? 50))%bool eqn:Hp;
      [| discriminate H].
    apply andb_prop in Hp. destruct Hp as [Hp H50].
    apply andb_prop in Hp. destruct Hp as [H0 H1].
    apply Z.leb_le in H0, H1, H50.
    injection H as <- <-. cbn [fst snd].
    rewrite (filter_ext _ (fun t => (task_columnId t =? column_id c)%nat))
      by (intros t; now rewrite !andb_true_r).
    split; [reflexivity |]. split; [apply paginate_ok; lia |].
    split.
    { unfold paginate, task_positions. cbn [total].
      now rewrite (Permutation_length (orderBy_perm _ _)), length_map. }
    split.
    { intros t Ht. apply in_paginate in Ht.
      apply (Permutation_in _ (orderBy_perm _ _)) in Ht.
      apply filter_In in Ht. destruct Ht as [Hin Hc]. now apply Nat.eqb_eq in Hc. }
    unfold paginate. cbn [items].
    rewrite <- (firstn_map task_position), <- (skipn_map task_position).
    unfold position_asc.
    rewrite (ordered_keys task_position) by apply Htasks.
    pose proof (page_of_range
                  (List.length (filter (fun t => (task_columnId t =? column_id c)%nat)
                                  (tasks s))) offset limit H0) as Hpage.
    cbv zeta in Hpage. rewrite Hpage at 1. do 2 f_equal.
    rewrite !length_firstn, !length_skipn, length_map, length_seq.
    now rewrite (Permutation_length (orderBy_perm _ _)).
Qed.

Lemma board_reads_follow_positions_witness :
  exists page,
    Column_tasks todo_column 1 2 None None board = (Ok page, board)
    /\ map task_position (items page) = [2; 3].
Proof.
  eexists. split; [vm_compute; reflexivity |].
  destruct (board_reads_follow_positions board (valid_positions _ board_valid))
    as [_ Hpages].
  edestruct (Hpages todo_column 1 2) as (_ & _ & _ & _ & Hpos);
    [vm_compute; reflexivity |].
  exact Hpos.
Defined.
